(** * vite-plugin-inline-js: the inline-and-rewrite stage

    A shallow embedding of [viteJsInline] (plugins/vite-plugin-js-inline):
    the [closeBundle] hook that walks [dist], finds script tags with a
    [src] attribute in every HTML file and replaces the eligible ones by an
    inline script element.

    Conventions.
    - JavaScript strings are Rocq strings whose characters are read as code
      units below 256; every pattern character of the plugin is ASCII.
    - Side effects (console output, file-system probes and writes, the
      dynamic import of terser and the calls to its [minify]) are recorded
      in an event trace, in program order.
    - The file system is a finite map from absolute paths to nodes. It is
      read through [fs.existsSync], [fs.readFileSync], [fs.readdirSync],
      [fs.statSync] and changed by [fs.writeFileSync] only.
    - Node's [path] module and [process.cwd()] are the host's; the plugin is
      written against a [Host] record and a POSIX instance is given.
    - [fs.writeFileSync] is taken to succeed.
    - A pattern is a sequence of quantified character classes with one
      capturing group, global like the default one. In this fragment
      capture 1 is set in every match or in none; alternation, optional
      groups and the other constructs a custom pattern may use are not
      modelled.
    - The percentage of the [Minified] line is computed in double
      arithmetic, by the IEEE 754 specification of the operations.
    - [while] loops and the recursive directory walk take fuel; [None]
      means the fuel ran out. *)

From Stdlib Require Import String Ascii List Bool Arith Lia.
From Stdlib Require ZArith SpecFloat.
From stdpp Require Import base option gmap strings.
Import ListNotations.

Local Open Scope string_scope.
Local Open Scope list_scope.
Local Open Scope nat_scope.

#[local] Arguments String.append !_ _ : simpl nomatch.

(** ** JavaScript string primitives *)

Module JsString.

(** [s.startsWith(p)] *)
Fixpoint startsWith (s p : string) {struct p} : bool :=
  match p with
  | EmptyString => true
  | String a p' =>
      match s with
      | EmptyString => false
      | String b s' => if Ascii.eqb a b then startsWith s' p' else false
      end
  end.

(** [s.indexOf(p)], [None] standing for [-1]. *)
Fixpoint indexOf (s p : string) : option nat :=
  if startsWith s p then Some 0
  else match s with
       | EmptyString => None
       | String _ s' => option_map S (indexOf s' p)
       end.

(** [s.includes(p)] *)
Definition includes (s p : string) : bool :=
  match indexOf s p with Some _ => true | None => false end.

(** [s.endsWith(p)] *)
Definition endsWith (s p : string) : bool :=
  let n := String.length s in
  let m := String.length p in
  if n <? m then false else String.eqb (substring (n - m) m s) p.

(** [s.slice(0, n)] and [s.slice(n)] *)
Fixpoint take (n : nat) (s : string) : string :=
  match n, s with
  | S n', String a s' => String a (take n' s')
  | _, _ => EmptyString
  end.

Fixpoint drop (n : nat) (s : string) : string :=
  match n, s with
  | S n', String _ s' => drop n' s'
  | _, _ => s
  end.

(** GetSubstitution of ECMA-262 for a string search value: there are no
    captures and no named groups, so the dollar forms with a meaning are
    [$$], [$&], [$`] and [$']; any other [$] stands for itself. *)
Fixpoint getSubstitution (matched before after template : string) : string :=
  match template with
  | EmptyString => EmptyString
  | String a t =>
      if Ascii.eqb a "$" then
        match t with
        | String b t' =>
            if Ascii.eqb b "$" then
              String "$" (getSubstitution matched before after t')
            else if Ascii.eqb b "&" then
              matched +:+ getSubstitution matched before after t'
            else if Ascii.eqb b "`" then
              before +:+ getSubstitution matched before after t'
            else if Ascii.eqb b "'" then
              after +:+ getSubstitution matched before after t'
            else String a (getSubstitution matched before after t)
        | EmptyString => String a EmptyString
        end
      else String a (getSubstitution matched before after t)
  end.

(** [s.replace(pat, repl)] with a string [pat]: the first occurrence only. *)
Definition replace (s pat repl : string) : string :=
  match indexOf s pat with
  | None => s
  | Some i =>
      let before := take i s in
      let after := drop (i + String.length pat) s in
      before +:+ getSubstitution pat before after repl +:+ after
  end.

(** [s.replace(/^\.\//, "")] *)
Definition stripDotSlash (s : string) : string :=
  if startsWith s "./" then drop 2 s else s.

(** Decimal rendering of a number inside a template literal. *)
Fixpoint digits (fuel n : nat) (acc : string) : string :=
  match fuel with
  | O => acc
  | S fuel' =>
      let d := ascii_of_nat (48 + n mod 10) in
      if n <? 10 then String d acc else digits fuel' (n / 10) (String d acc)
  end.

Definition ofNat (n : nat) : string := digits (S n) n EmptyString.

End JsString.

(** ** Regular expressions

    The fragment of RegExp the plugin's default pattern lives in: a
    sequence of character classes, each taken once, [*] or [+] (greedy,
    with backtracking), some of them inside the capturing group. All
    patterns are global ([g]): [exec] starts at [lastIndex]. *)

Module RegExp.

Inductive quant := Once | Star | Plus.

Record piece := Piece { cls : ascii -> bool; rep : quant; grp : bool }.

(** A match in progress: the text matched so far and capture 1. *)
Definition partial := (string * option string)%type.

Definition close (p : piece) (r : partial) : partial :=
  (fst r, if grp p then Some (default EmptyString (snd r)) else snd r).

Definition consume (p : piece) (c : ascii) (r : partial) : partial :=
  (String c (fst r),
   if grp p then Some (String c (default EmptyString (snd r))) else snd r).

(** Greedy repetition of the class of [p], then the continuation [k];
    the longest run is tried first and given back one character at a time. *)
Fixpoint greedy (p : piece) (k : string -> option partial) (s : string)
  : option partial :=
  match s with
  | String c s' =>
      if cls p c then
        match greedy p k s' with
        | Some r => Some (consume p c r)
        | None => option_map (close p) (k s)
        end
      else option_map (close p) (k s)
  | EmptyString => option_map (close p) (k s)
  end.

Fixpoint matchHere (ps : list piece) (s : string) : option partial :=
  match ps with
  | [] => Some (EmptyString, None)
  | p :: ps' =>
      match rep p with
      | Once =>
          match s with
          | String c s' =>
              if cls p c then
                option_map (fun r => consume p c (close p r)) (matchHere ps' s')
              else None
          | EmptyString => None
          end
      | Star => greedy p (matchHere ps') s
      | Plus =>
          match s with
          | String c s' =>
              if cls p c then option_map (consume p c) (greedy p (matchHere ps') s')
              else None
          | EmptyString => None
          end
      end
  end.

(** The array returned by [exec]: [index], element 0 and element 1. *)
Record found := Found { index : nat; fullMatch : string; capture : option string }.

(** Leftmost match at or after position [i]; [s] is the text from [i] on. *)
Fixpoint search (ps : list piece) (s : string) (i : nat) : option found :=
  match matchHere ps s with
  | Some r => Some (Found i (fst r) (snd r))
  | None =>
      match s with
      | String _ s' => search ps s' (S i)
      | EmptyString => None
      end
  end.

(** [re.exec(text)] for a global [re] whose [lastIndex] is [lastIndex].
    The second component is the value [lastIndex] is left at. *)
Definition exec (ps : list piece) (text : string) (lastIndex : nat)
  : option found * nat :=
  if String.length text <? lastIndex then (None, 0)
  else match search ps (JsString.drop lastIndex text) lastIndex with
       | Some m => (Some m, index m + String.length (fullMatch m))
       | None => (None, 0)
       end.

(** Pattern syntax. *)
Definition chr (c : ascii) : piece := Piece (Ascii.eqb c) Once false.

Fixpoint lit (s : string) : list piece :=
  match s with
  | EmptyString => []
  | String c s' => chr c :: lit s'
  end.

Definition oneOf (cs : string) (c : ascii) : bool :=
  JsString.includes cs (String c EmptyString).

Definition noneOf (cs : string) (c : ascii) : bool := negb (oneOf cs c).

(** [\s] on code units below 256: TAB, LF, VT, FF, CR, space, NBSP. *)
Definition space (c : ascii) : bool :=
  let n := nat_of_ascii c in
  ((9 <=? n) && (n <=? 13)) || (n =? 32) || (n =? 160).

End RegExp.

(** The default [scriptTagPattern],
    [/<script\s+[^>]*src=[Q]([^Q]+)[Q][^>]*>\s*<\/script>/g]
    where [Q] stands for the two quote characters (double and single). *)
Definition quotes : string := String "034" (String "'" EmptyString).

Definition defaultScriptTagPattern : list RegExp.piece :=
  RegExp.lit "<script"
  ++ [RegExp.Piece RegExp.space RegExp.Plus false;
      RegExp.Piece (RegExp.noneOf ">") RegExp.Star false]
  ++ RegExp.lit "src="
  ++ [RegExp.Piece (RegExp.oneOf quotes) RegExp.Once false;
      RegExp.Piece (RegExp.noneOf quotes) RegExp.Plus true;
      RegExp.Piece (RegExp.oneOf quotes) RegExp.Once false;
      RegExp.Piece (RegExp.noneOf ">") RegExp.Star false]
  ++ RegExp.lit ">"
  ++ [RegExp.Piece RegExp.space RegExp.Star false]
  ++ RegExp.lit "</script>".

(** ** The host: file system, console, path, terser *)

(** What a path names on disk; a directory lists its entries in the order
    [fs.readdirSync] reports them. *)
Inductive node :=
| File (content : string)
| Dir (names : list string).

Inductive level := Info | Warn | Error.

Inductive event :=
| Console (l : level) (msg : string)
| ExistsSync (p : string)
| WriteFileSync (p data : string)
| Import (module : string)
| Minify (code : string).

(** The completion of a call that may throw. *)
Inductive completion (A : Type) :=
| Normal (a : A)
| Throw (e : string).
Arguments Normal {A} a.
Arguments Throw {A} e.

(** What [terser.minify] resolves to: an object with [code] or with [error]. *)
Inductive minifyResult :=
| MinifyCode (code : string)
| MinifyError (e : string).

(** The terser module, by its [minify]; [Throw] is a rejected promise. *)
Definition terser := string -> completion minifyResult.

Record Host := {
  cwd : string;                        (* process.cwd() *)
  resolve : list string -> string;     (* path.resolve(...) *)
  dirname : string -> string;          (* path.dirname *)
  join : string -> string -> string;   (* path.join *)
  relative : string -> string -> string; (* path.relative *)
  importTerser : completion terser;    (* await import('terser') *)
  byteLength : string -> nat;          (* Buffer.byteLength(s, 'utf8') *)
  savings : nat -> nat -> string       (* ((1 - m / o) * 100).toFixed(1) *)
}.

Definition existsSync (fs : gmap string node) (p : string) : bool :=
  match fs !! p with Some _ => true | None => false end.

Definition readFileSync (fs : gmap string node) (p : string) : completion string :=
  match fs !! p with
  | Some (File c) => Normal c
  | Some (Dir _) => Throw "EISDIR: illegal operation on a directory, read"
  | None => Throw "ENOENT: no such file or directory, open"
  end.

Definition readdirSync (fs : gmap string node) (p : string)
  : completion (list string) :=
  match fs !! p with
  | Some (Dir names) => Normal names
  | Some (File _) => Throw "ENOTDIR: not a directory, scandir"
  | None => Throw "ENOENT: no such file or directory, scandir"
  end.

(** [fs.statSync(p).isDirectory()] *)
Definition statIsDirectory (fs : gmap string node) (p : string) : completion bool :=
  match fs !! p with
  | Some (Dir _) => Normal true
  | Some (File _) => Normal false
  | None => Throw "ENOENT: no such file or directory, stat"
  end.

(** ** The plugin *)

Record options := {
  minify : bool;
  scriptTagPattern : list RegExp.piece;
  transformContent : string -> string -> completion string;
  sourceDirs : list string;
  inlineAll : bool
}.

Definition defaultOptions : options := {|
  minify := false;
  scriptTagPattern := defaultScriptTagPattern;
  transformContent := fun content _ => Normal content;
  sourceDirs := ["src"; "public"];
  inlineAll := false
|}.

(** The per-file variables of [closeBundle]: [htmlContent], [modified] and
    the [lastIndex] of the shared pattern object. *)
Record fileState := FileState {
  htmlContent : string;
  modified : bool;
  lastIndex : nat
}.

(** The stage identifier every console line starts with. *)
Definition logPrefix : string := "[js-inline] ".
Definition newline : string := String "010" EmptyString.
(* U+2192 in UTF-8 *)
Definition arrow : string := String "226" (String "134" (String "146" EmptyString)).

(** The template literal of the inline element. *)
Definition inlineScriptTag (jsContent : string) : string :=
  "<script>" +:+ newline +:+ jsContent +:+ "</script>".

Section Plugin.

Variable host : Host.
Variable opts : options.

(** [findHtmlFiles(dir, fileList)]; the array is shared by the recursive
    calls, so it is threaded through them. *)
Fixpoint findHtmlFiles (fuel : nat) (fs : gmap string node) (dir : string)
    (fileList : list string) : option (completion (list string)) :=
  match fuel with
  | O => None
  | S fuel' =>
      match readdirSync fs dir with
      | Throw e => Some (Throw e)
      | Normal files =>
          (fix each (files : list string) (fileList : list string) :=
             match files with
             | [] => Some (Normal fileList)
             | file :: rest =>
                 let filePath := join host dir file in
                 match statIsDirectory fs filePath with
                 | Throw e => Some (Throw e)
                 | Normal true =>
                     match findHtmlFiles fuel' fs filePath fileList with
                     | Some (Normal fileList') => each rest fileList'
                     | other => other
                     end
                 | Normal false =>
                     if JsString.endsWith file ".html"
                     then each rest (fileList ++ [filePath])
                     else each rest fileList
                 end
             end) files fileList
      end
  end.

(** The skip test of the loop body (the [continue] branch). *)
Definition skipped (fullMatch srcPath : string) : bool :=
  JsString.startsWith srcPath "http"
  || (negb (JsString.includes fullMatch "inline") && negb (inlineAll opts)).

(** The path tried for an extra source directory. *)
Definition attemptPath (dir srcPath : string) : string :=
  resolve host [cwd host; dir; JsString.stripDotSlash srcPath].

(** The [for (const dir of sourceDirs)] loop with its [break]. *)
Fixpoint trySourceDirs (fs : gmap string node) (srcPath : string)
    (dirs : list string) (jsFilePath : string)
  : list event * (string * bool) :=
  match dirs with
  | [] => ([], (jsFilePath, false))
  | dir :: rest =>
      let p := attemptPath dir srcPath in
      if existsSync fs p then ([ExistsSync p], (p, true))
      else
        let '(tr, r) := trySourceDirs fs srcPath rest jsFilePath in
        (ExistsSync p :: tr, r)
  end.

(** The four tries; returns [jsFilePath] and [fileExists]. *)
Definition locate (fs : gmap string node) (distDir htmlFile srcPath : string)
  : list event * (string * bool) :=
  let jsFilePath := resolve host [dirname host htmlFile; srcPath] in
  let fileExists := existsSync fs jsFilePath in
  let tr := [ExistsSync jsFilePath] in
  let '(tr, (jsFilePath, fileExists)) :=
    if negb fileExists then
      let p := resolve host [distDir; srcPath] in
      (tr ++ [ExistsSync p], (p, existsSync fs p))
    else (tr, (jsFilePath, fileExists)) in
  let '(tr, (jsFilePath, fileExists)) :=
    if negb fileExists then
      let p := resolve host [cwd host; srcPath] in
      (tr ++ [ExistsSync p], (p, existsSync fs p))
    else (tr, (jsFilePath, fileExists)) in
  if negb fileExists then
    let '(tr', r) := trySourceDirs fs srcPath (sourceDirs opts) jsFilePath in
    (tr ++ tr', r)
  else (tr, (jsFilePath, fileExists)).

(** The minification block; returns the new [jsContent]. *)
Definition minifyContent (terserModule : option terser)
    (srcPath jsContent : string) : list event * string :=
  match (if minify opts then terserModule else None) with
  | None => ([], jsContent)
  | Some t =>
      let pre := [Console Info (logPrefix +:+ "Minifying " +:+ srcPath +:+ "...");
                  Minify jsContent] in
      match t jsContent with
      | Throw error =>
          (pre ++ [Console Warn
                     (logPrefix +:+ "Error minifying " +:+ srcPath +:+ ": " +:+ error)],
           jsContent)
      | Normal (MinifyError e) =>
          (pre ++ [Console Warn
                     (logPrefix +:+ "Minification error for " +:+ srcPath +:+ ": " +:+ e)],
           jsContent)
      | Normal (MinifyCode code) =>
          let originalSize := byteLength host jsContent in
          let minifiedSize := byteLength host code in
          (pre ++ [Console Info
                     (logPrefix +:+ "Minified " +:+ srcPath +:+ ": "
                      +:+ JsString.ofNat originalSize +:+ " " +:+ arrow +:+ " "
                      +:+ JsString.ofNat minifiedSize +:+ " bytes ("
                      +:+ savings host originalSize minifiedSize
                      +:+ "% savings)")],
           code)
      end
  end.

(** The warnings of the [else] branch: every path that was tried. *)
Definition notFoundWarnings (distDir htmlFile srcPath : string) : list event :=
  [Console Warn (logPrefix +:+ "Could not find JavaScript file to inline: " +:+ srcPath);
   Console Warn (logPrefix +:+ "Attempted paths:");
   Console Warn (logPrefix +:+ "1. " +:+ resolve host [dirname host htmlFile; srcPath]);
   Console Warn (logPrefix +:+ "2. " +:+ resolve host [distDir; srcPath]);
   Console Warn (logPrefix +:+ "3. " +:+ resolve host [cwd host; srcPath])]
  ++ imap (fun index dir =>
             Console Warn (logPrefix +:+ JsString.ofNat (index + 4) +:+ ". "
                           +:+ attemptPath dir srcPath))
       (sourceDirs opts).

(** The body of the inner [try]: the new [htmlContent] and [modified]. *)
Definition tryInline (fs : gmap string node) (terserModule : option terser)
    (distDir htmlFile : string) (st : fileState) (fullMatch srcPath : string)
  : list event * completion (string * bool) :=
  let '(tr, (jsFilePath, fileExists)) := locate fs distDir htmlFile srcPath in
  if fileExists then
    match readFileSync fs jsFilePath with
    | Throw e => (tr, Throw e)
    | Normal jsContent =>
        match transformContent opts jsContent srcPath with
        | Throw e => (tr, Throw e)
        | Normal jsContent =>
            let '(tr', jsContent) := minifyContent terserModule srcPath jsContent in
            (tr ++ tr'
             ++ [Console Info (logPrefix +:+ "Inlined JavaScript file: " +:+ srcPath)],
             Normal (JsString.replace (htmlContent st) fullMatch
                       (inlineScriptTag jsContent), true))
        end
    end
  else
    (tr ++ notFoundWarnings distDir htmlFile srcPath,
     Normal (htmlContent st, modified st)).

(** The body of the [while] loop for the match [m]; [st] already carries
    the [lastIndex] that [exec] left. A match without capture 1 makes
    [srcPath.startsWith] throw, outside the inner [try]. *)
Definition step (fs : gmap string node) (terserModule : option terser)
    (distDir htmlFile : string) (st : fileState) (m : RegExp.found)
  : list event * completion fileState :=
  match RegExp.capture m with
  | None => ([], Throw "TypeError: Cannot read properties of undefined")
  | Some srcPath =>
      let fullMatch := RegExp.fullMatch m in
      if skipped fullMatch srcPath then ([], Normal st)
      else
        match tryInline fs terserModule distDir htmlFile st fullMatch srcPath with
        | (tr, Normal (c, b)) => (tr, Normal (FileState c b (lastIndex st)))
        | (tr, Throw error) =>
            (tr ++ [Console Error
                      (logPrefix +:+ "Error inlining JavaScript file " +:+ srcPath
                       +:+ ": " +:+ error)],
             Normal st)
        end
  end.

(** [while ((match = scriptTagPattern.exec(htmlContent)) !== null)] *)
Fixpoint scan (fuel : nat) (fs : gmap string node) (terserModule : option terser)
    (distDir htmlFile : string) (st : fileState)
  : option (list event * completion fileState) :=
  match fuel with
  | O => None
  | S fuel' =>
      match RegExp.exec (scriptTagPattern opts) (htmlContent st) (lastIndex st) with
      | (None, i) => Some ([], Normal (FileState (htmlContent st) (modified st) i))
      | (Some m, i) =>
          match step fs terserModule distDir htmlFile
                  (FileState (htmlContent st) (modified st) i) m with
          | (tr, Throw e) => Some (tr, Throw e)
          | (tr, Normal st') =>
              match scan fuel' fs terserModule distDir htmlFile st' with
              | Some (tr', r) => Some (tr ++ tr', r)
              | None => None
              end
          end
      end
  end.

(** The body of [for (const htmlFile of htmlFiles)], with its [try]. *)
Definition processFile (fuel : nat) (fs : gmap string node)
    (terserModule : option terser) (distDir htmlFile : string)
  : option (list event * gmap string node) :=
  let rel := relative host distDir htmlFile in
  let start := Console Info (logPrefix +:+ "Processing HTML file: " +:+ rel) in
  let failed error :=
    Console Error (logPrefix +:+ "Error processing HTML file " +:+ htmlFile
                   +:+ ": " +:+ error) in
  match readFileSync fs htmlFile with
  | Throw error => Some ([start; failed error], fs)
  | Normal content =>
      match scan fuel fs terserModule distDir htmlFile (FileState content false 0) with
      | None => None
      | Some (tr, Throw error) => Some (start :: tr ++ [failed error], fs)
      | Some (tr, Normal st) =>
          if modified st then
            Some (start :: tr
                  ++ [WriteFileSync htmlFile (htmlContent st);
                      Console Info
                        (logPrefix +:+ "Updated HTML file with inlined scripts: " +:+ rel)],
                  <[htmlFile := File (htmlContent st)]> fs)
          else
            Some (start :: tr
                  ++ [Console Info (logPrefix +:+ "No scripts to inline in: " +:+ rel)],
                  fs)
      end
  end.

Fixpoint processFiles (fuel : nat) (fs : gmap string node)
    (terserModule : option terser) (distDir : string) (htmlFiles : list string)
  : option (list event * gmap string node) :=
  match htmlFiles with
  | [] => Some ([], fs)
  | htmlFile :: rest =>
      match processFile fuel fs terserModule distDir htmlFile with
      | None => None
      | Some (tr, fs') =>
          match processFiles fuel fs' terserModule distDir rest with
          | None => None
          | Some (tr', fs'') => Some (tr ++ tr', fs'')
          end
      end
  end.

(** The loading block at the head of [closeBundle]. *)
Definition loadTerser (terserModule : option terser)
  : list event * option terser :=
  if minify opts then
    match importTerser host with
    | Normal t =>
        ([Import "terser";
          Console Info
            (logPrefix +:+ "Minification is enabled and terser is available")],
         Some t)
    | Throw _ =>
        ([Import "terser";
          Console Warn
            (logPrefix +:+ "Terser is not installed but minify=true. Please install terser: npm install terser --save-dev");
          Console Warn (logPrefix +:+ "Continuing without minification")],
         terserModule)
    end
  else ([], terserModule).

(** One run of the hook. [terserModule] is the closure variable of the
    plugin instance: [None] for a new instance. The result is the trace,
    the file system and the variable afterwards, and how the hook
    completed. *)
Definition closeBundle (fuel : nat) (terserModule : option terser)
    (fs : gmap string node)
  : option (list event * gmap string node * option terser * completion unit) :=
  let hello :=
    Console Info (logPrefix +:+ "Looking for HTML files in dist directory...") in
  let '(tr0, terserModule) := loadTerser terserModule in
  let distDir := resolve host [cwd host; "dist"] in
  if negb (existsSync fs distDir) then
    Some (hello :: tr0
          ++ [ExistsSync distDir;
              Console Warn (logPrefix +:+ "Dist directory not found at: " +:+ distDir)],
          fs, terserModule, Normal tt)
  else
    match findHtmlFiles fuel fs distDir [] with
    | None => None
    | Some (Throw e) =>
        Some (hello :: tr0 ++ [ExistsSync distDir], fs, terserModule, Throw e)
    | Some (Normal htmlFiles) =>
        let found :=
          Console Info (logPrefix +:+ "Found " +:+ JsString.ofNat (length htmlFiles)
                        +:+ " HTML files in dist directory") in
        match processFiles fuel fs terserModule distDir htmlFiles with
        | None => None
        | Some (tr, fs') =>
            Some (hello :: tr0 ++ [ExistsSync distDir; found] ++ tr
                  ++ [Console Info (logPrefix +:+ "Plugin completed successfully")],
                  fs', terserModule, Normal tt)
        end
    end.

End Plugin.

(** ** A POSIX host

    Node's [path.posix] on the paths the plugin builds. *)

Module Posix.

(** [s.split('/')] *)
Fixpoint split (s : string) (cur : string) : list string :=
  match s with
  | EmptyString => [cur]
  | String c s' =>
      if Ascii.eqb c "/" then cur :: split s' EmptyString
      else split s' (cur +:+ String c EmptyString)
  end.

(** The segment stack of [normalizeString], below the root: empty and
    [.] segments are dropped, [..] removes the segment before it. *)
Fixpoint normalize (segs : list string) (stack : list string) : list string :=
  match segs with
  | [] => stack
  | seg :: rest =>
      if String.eqb seg "" || String.eqb seg "." then normalize rest stack
      else if String.eqb seg ".." then normalize rest (removelast stack)
      else normalize rest (stack ++ [seg])
  end.

Fixpoint joinSegs (segs : list string) : string :=
  match segs with
  | [] => EmptyString
  | [seg] => seg
  | seg :: rest => seg +:+ "/" +:+ joinSegs rest
  end.

(** The arguments are taken from the right until one is absolute; the
    working directory, which is absolute, comes last. *)
Fixpoint gather (rev_paths : list string) (acc : string) : string :=
  match rev_paths with
  | [] => acc
  | p :: rest =>
      if String.eqb p "" then gather rest acc
      else if JsString.startsWith p "/" then p +:+ "/" +:+ acc
      else gather rest (p +:+ "/" +:+ acc)
  end.

Definition resolve (cwd : string) (paths : list string) : string :=
  "/" +:+ joinSegs (normalize (split (gather (rev (cwd :: paths)) "") "") []).

(** [path.dirname] of a normalized absolute path. *)
Definition dirname (p : string) : string :=
  "/" +:+ joinSegs (removelast (normalize (split p "") [])).

(** [path.join] of a normalized absolute directory and an entry name. *)
Definition join (dir file : string) : string :=
  "/" +:+ joinSegs (normalize (split (dir +:+ "/" +:+ file) "") []).

Fixpoint stripCommon (a b : list string) : list string * list string :=
  match a, b with
  | x :: a', y :: b' => if String.eqb x y then stripCommon a' b' else (a, b)
  | _, _ => (a, b)
  end.

(** [path.relative] of two normalized absolute paths. *)
Definition relative (from to : string) : string :=
  let '(up, down) :=
    stripCommon (normalize (split from "") []) (normalize (split to "") []) in
  joinSegs (map (fun _ => "..") up ++ down).

(** UTF-8 length of a string of code units below 256. *)
Fixpoint byteLength (s : string) : nat :=
  match s with
  | EmptyString => 0
  | String c s' => (if nat_of_ascii c <? 128 then 1 else 2) + byteLength s'
  end.

(** Doubles, by their IEEE 754 specification: sign, mantissa and
    exponent, every operation rounded to the nearest double. *)
Definition double : Set := SpecFloat.spec_float.

(** An integer as a Number. *)
Definition number (n : nat) : double :=
  SpecFloat.binary_normalize 53 1024 (Z.of_nat n) 0 false.

(** [x.toFixed(1)]: the integer [n] for which [n / 10] is nearest to
    [x], the larger one on a tie, printed with one digit behind the
    point. Values of 10^21 and more, which another algorithm prints, do
    not arise from sizes. *)
Definition toFixed1 (x : double) : string :=
  match x with
  | SpecFloat.S754_nan => "NaN"
  | SpecFloat.S754_infinity s => if s then "-Infinity" else "Infinity"
  | SpecFloat.S754_zero _ => "0.0"
  | SpecFloat.S754_finite s m e =>
      let n :=
        if (0 <=? e)%Z then (10 * Z.pos m * 2 ^ e)%Z
        else ((20 * Z.pos m + 2 ^ (- e)) / 2 ^ (1 - e))%Z in
      (if s then "-" else "")
      +:+ JsString.ofNat (Z.to_nat (n / 10)) +:+ "."
      +:+ JsString.ofNat (Z.to_nat (n mod 10))
  end.

(** [((1 - minifiedSize / originalSize) * 100).toFixed(1)] *)
Definition savings (originalSize minifiedSize : nat) : string :=
  toFixed1
    (SpecFloat.SFmul 53 1024
       (SpecFloat.SFsub 53 1024 (number 1)
          (SpecFloat.SFdiv 53 1024 (number minifiedSize) (number originalSize)))
       (number 100)).

End Posix.

Definition posixHost (wd : string) (terserImport : completion terser) : Host := {|
  cwd := wd;
  resolve := Posix.resolve wd;
  dirname := Posix.dirname;
  join := Posix.join;
  relative := Posix.relative;
  importTerser := terserImport;
  byteLength := Posix.byteLength;
  savings := Posix.savings
|}.

Definition noTerser : completion terser := Throw "Cannot find package 'terser'".

(** * Notions used in the statements *)

(** ** Substitutions, writes and imports in a trace *)

(** The line logged right after a substitution. *)
Definition isInlined (e : event) : bool :=
  match e with
  | Console Info msg => JsString.startsWith msg (logPrefix +:+ "Inlined JavaScript file: ")
  | _ => false
  end.

Definition isWrite (e : event) : bool :=
  match e with WriteFileSync _ _ => true | _ => false end.

(** How many substitutions a trace reports, and the writes it holds. *)
Definition substitutions (tr : list event) : nat := length (List.filter isInlined tr).

Definition writes (tr : list event) : list event := List.filter isWrite tr.

(** A trace with no substitution and no write. *)
Definition quiet (tr : list event) : bool :=
  forallb (fun e => negb (isInlined e) && negb (isWrite e)) tr.


Definition isImport (e : event) : bool :=
  match e with Import _ => true | _ => false end.

Definition isMinify (e : event) : bool :=
  match e with Minify _ => true | _ => false end.

Definition isWarn (e : event) : bool :=
  match e with Console Warn _ => true | _ => false end.

(** How often the run imported a module, and its calls to [minify]. *)
Definition imports (tr : list event) : nat := length (List.filter isImport tr).

Definition minifyCalls (tr : list event) : nat := length (List.filter isMinify tr).

(** What the loading block leaves in the trace when the import fails. *)
Definition failedLoad : list event :=
  [Import "terser";
   Console Warn
     (logPrefix +:+ "Terser is not installed but minify=true. Please install terser: npm install terser --save-dev");
   Console Warn (logPrefix +:+ "Continuing without minification")].

(** The same options with minification switched off. *)
Definition withoutMinify (opts : options) : options := {|
  minify := false;
  scriptTagPattern := scriptTagPattern opts;
  transformContent := transformContent opts;
  sourceDirs := sourceDirs opts;
  inlineAll := inlineAll opts
|}.

(** ** Patterns and matches *)

Definition isSome {A : Type} (o : option A) : bool :=
  match o with Some _ => true | None => false end.

(** A pattern has capture 1 when one of its pieces lies in the group. *)
Definition hasGroup (ps : list RegExp.piece) : bool := existsb RegExp.grp ps.

(** A pattern with a piece taken once or more cannot match the empty
    string. *)
Definition consuming (p : RegExp.piece) : bool :=
  match RegExp.rep p with RegExp.Star => false | _ => true end.

Definition nonEmpty (ps : list RegExp.piece) : bool := existsb consuming ps.

(** What a continuation is known to return. *)
Definition returns (k : string -> option RegExp.partial) (g : bool) (n : nat) : Prop :=
  forall s r, k s = Some r ->
    isSome (snd r) = g
    /\ n <= String.length (fst r)
    /\ s = fst r +:+ JsString.drop (String.length (fst r)) s.

(** Text in which no tag can start: every [<] is followed by a
    character other than [s]. *)
Fixpoint noTagStart (w : string) : bool :=
  match w with
  | EmptyString => true
  | String a w' =>
      (negb (Ascii.eqb a "<")
       || match w' with
          | String b _ => negb (Ascii.eqb b "s")
          | EmptyString => false
          end)
      && noTagStart w'
  end.

(** ** References and candidate locations *)

Section Notions.

Variable host : Host.
Variable opts : options.

(** The candidate locations in the order the specification lists them:
    against the directory of the document, against the output root,
    against the working directory, then one per extra source directory,
    with a leading [./] of the source stripped. *)
Definition candidates (distDir htmlFile srcPath : string) : list string :=
  [resolve host [dirname host htmlFile; srcPath];
   resolve host [distDir; srcPath];
   resolve host [cwd host; srcPath]]
  ++ map (fun dir => resolve host [cwd host; dir; JsString.stripDotSlash srcPath])
       (sourceDirs opts).

(** First match wins, as a function of its own: the candidates that are
    probed and the one that is found. *)
Fixpoint firstExisting (fs : gmap string node) (ps : list string)
  : list string * option string :=
  match ps with
  | [] => ([], None)
  | p :: rest =>
      if existsSync fs p then ([p], Some p)
      else let '(tried, r) := firstExisting fs rest in (p :: tried, r)
  end.


End Notions.


(** ** A project on disk, for the closed statements *)

Module Example.

Definition host : Host := posixHost "/proj" noTerser.

Definition page : string := "/proj/dist/index.html".

(** [/proj/dist] holds [index.html] with the text [html]; [files] are
    the other files there are, by absolute path. *)
Definition disk (html : string) (files : list (string * string))
  : gmap string node :=
  list_to_map
    (("/proj/dist", Dir ["index.html"])
     :: (page, File html)
     :: map (fun pc => (fst pc, File (snd pc))) files).

End Example.

(** The default options with [minify] on. *)
Definition minifying : options := {|
  minify := true;
  scriptTagPattern := defaultScriptTagPattern;
  transformContent := fun content _ => Normal content;
  sourceDirs := ["src"; "public"];
  inlineAll := false
|}.

(** ** The directory walk and the tree *)

(** The directories the walk from [root] descends into: [root], and every
    entry of such a directory that is a directory itself. *)
Inductive reached (host : Host) (fs : gmap string node) (root : string)
  : string -> Prop :=
| reached_root : reached host fs root root
| reached_entry d names f names' :
    reached host fs root d ->
    fs !! d = Some (Dir names) -> In f names ->
    fs !! join host d f = Some (Dir names') ->
    reached host fs root (join host d f).

(** What the walk from [root] lists: a path [path.join(d, f)] for an entry
    [f] of a directory [d] it descends into, whose name ends in [.html]
    and which is a regular file on disk. *)
Definition htmlEntry (host : Host) (fs : gmap string node) (root p : string)
  : Prop :=
  exists d names f c,
    reached host fs root d /\ fs !! d = Some (Dir names) /\ In f names
    /\ p = join host d f /\ JsString.endsWith f ".html" = true
    /\ fs !! p = Some (File c).

(** Two file systems with the same paths, the same directories and files
    in the same places; only file contents may differ. *)
Definition sameTree (fs fs' : gmap string node) : Prop :=
  forall p,
    match fs !! p, fs' !! p with
    | None, None => True
    | Some (Dir names), Some (Dir names') => names = names'
    | Some (File _), Some (File _) => True
    | _, _ => False
    end.

(** ** Minifiers and what a run puts out *)

(** A result of [minify] other than code: an error or a throw. *)
Definition neverCode (r : completion minifyResult) : bool :=
  match r with Normal (MinifyCode _) => false | _ => true end.

(** A stand-in for terser that marks what it was given, and one whose
    [minify] rejects every input. *)
Definition markingTerser : terser :=
  fun code => Normal (MinifyCode ("/*min*/" +:+ code)).

Definition brokenTerser : terser := fun _ => Throw "SyntaxError: Unexpected token".

(** What a run puts out: its writes, the file system it leaves and how it
    completes; log lines, probes and the module are left out. *)
Definition output
    (x : list event * gmap string node * option terser * completion unit)
  : list event * gmap string node * completion unit :=
  let '(tr, fs', _, r) := x in (writes tr, fs', r).

(** ** Tags and greedy runs *)

(** Every character of [s] is in the class [f]. *)
Fixpoint every (f : ascii -> bool) (s : string) : bool :=
  match s with
  | EmptyString => true
  | String c s' => f c && every f s'
  end.

(** A script element with an empty body: attribute text [pre], then
    [src=] with the value [src] quoted by [q], then attribute text
    [attrs]. *)
Definition scriptTag (q : ascii) (pre src attrs : string) : string :=
  "<script " +:+ pre +:+ "src="
  +:+ String q (src +:+ String q (attrs +:+ "></script>")).

(** The result of a piece that took the run [a] before [r]. *)
Fixpoint takeAll (p : RegExp.piece) (a : string) (r : RegExp.partial)
  : RegExp.partial :=
  match a with
  | EmptyString => RegExp.close p r
  | String c a' => RegExp.consume p c (takeAll p a' r)
  end.

(** The class of [p] does not continue into [b]. *)
Definition stops (p : RegExp.piece) (b : string) : Prop :=
  match b with String c _ => RegExp.cls p c = false | EmptyString => True end.

(** ** Text in which the default pattern cannot match *)

(** The head every match of the default pattern has: [<script] and a
    white-space character. *)
Definition opensTag (s : string) : Prop :=
  exists sp s', s = "<script" +:+ String sp s' /\ RegExp.space sp = true.

(** No such head begins inside [w], whatever follows [w]. *)
Definition tagFree (w : string) : Prop :=
  forall j x, j < String.length w -> ~ opensTag (JsString.drop j (w +:+ x)).

(** ** Exceptions of the walk *)

(** What [fs.readdirSync] and [fs.statSync] throw. *)
Definition walkError (e : string) : Prop :=
  e = "ENOENT: no such file or directory, scandir"
  \/ e = "ENOTDIR: not a directory, scandir"
  \/ e = "ENOENT: no such file or directory, stat".

(** ** Documents made of tags and text *)

(** No match of [ps] begins inside [w], whatever follows [w]. *)
Definition tagless (ps : list RegExp.piece) (w : string) : Prop :=
  forall j x, j < String.length w ->
    RegExp.matchHere ps (JsString.drop j (w +:+ x)) = None.

(** [t] is matched as a whole, with the source [src], whatever follows
    it. *)
Definition wholeTag (ps : list RegExp.piece) (t src : string) : Prop :=
  forall x, RegExp.matchHere ps (t +:+ x) = Some (t, Some src).

(** The text [t] begins nowhere inside [w], whatever follows [w]. *)
Definition absent (t w : string) : Prop :=
  forall j x, j < String.length w ->
    JsString.startsWith (JsString.drop j (w +:+ x)) t = false.

(** What the loop body does with a reference: it keeps the tag (the
    reference is skipped, found nowhere, unreadable, or the user
    transform throws), or it puts the inline element of a script content
    in its place. *)
Inductive fate := Kept | Inlined (jsContent : string).

Section Fate.

Variable host : Host.
Variable opts : options.

Definition fateOf (fs : gmap string node) (terserModule : option terser)
    (distDir htmlFile fullMatch srcPath : string) : fate :=
  if skipped opts fullMatch srcPath then Kept
  else
    let '(_, (jsFilePath, fileExists)) :=
      locate host opts fs distDir htmlFile srcPath in
    if fileExists then
      match readFileSync fs jsFilePath with
      | Throw _ => Kept
      | Normal jsContent =>
          match transformContent opts jsContent srcPath with
          | Throw _ => Kept
          | Normal jsContent =>
              Inlined (snd (minifyContent host opts terserModule srcPath jsContent))
          end
      end
    else Kept.


End Fate.

(** A tag with its source, and the text up to the next tag. *)
Record part := Part { tagText : string; tagSource : string; behind : string }.

Fixpoint body (ps : list part) : string :=
  match ps with
  | [] => ""
  | p :: rest => tagText p +:+ behind p +:+ body rest
  end.


(** The same with every tag treated according to its fate. *)
Fixpoint settled (f : string -> string -> fate) (ps : list part) : string :=
  match ps with
  | [] => ""
  | p :: rest =>
      match f (tagText p) (tagSource p) with
      | Kept => tagText p
      | Inlined jsContent => inlineScriptTag jsContent
      end +:+ behind p +:+ settled f rest
  end.

Fixpoint inlinedCount (f : string -> string -> fate) (ps : list part) : nat :=
  match ps with
  | [] => 0
  | p :: rest =>
      match f (tagText p) (tagSource p) with Kept => 0 | Inlined _ => 1 end
      + inlinedCount f rest
  end.

(** The tag of [p] is matched as a whole, no match begins inside it or
    in the text behind it; a script put in its place holds no dollar sign
    and its inline element holds no match. *)
Definition sound (ps : list RegExp.piece) (f : string -> string -> fate)
    (p : part) : Prop :=
  wholeTag ps (tagText p) (tagSource p)
  /\ tagless ps (JsString.drop 1 (tagText p))
  /\ tagless ps (behind p)
  /\ match f (tagText p) (tagSource p) with
     | Kept => True
     | Inlined jsContent =>
         JsString.includes jsContent "$" = false
         /\ tagless ps (inlineScriptTag jsContent)
     end.

(** An inline element, with the text up to the next tag, is at least as
    long as the tag it replaces. *)
Fixpoint spaced (f : string -> string -> fate) (ps : list part) : Prop :=
  match ps with
  | [] => True
  | p :: rest =>
      match f (tagText p) (tagSource p), rest with
      | Inlined jsContent, _ :: _ =>
          String.length (tagText p)
          <= String.length (inlineScriptTag jsContent) + String.length (behind p)
      | _, _ => True
      end
      /\ spaced f rest
  end.


(** * Properties *)

(** ** Strings *)

Section StringFacts.

Import JsString.

Lemma append_nil_r (s : string) : s +:+ "" = s.
Proof. induction s; simpl; congruence. Qed.

Lemma append_assoc (a b c : string) : (a +:+ b) +:+ c = a +:+ b +:+ c.
Proof. induction a; simpl; congruence. Qed.

Lemma length_append (a b : string) :
  String.length (a +:+ b) = String.length a + String.length b.
Proof. induction a; simpl; congruence. Qed.

Lemma startsWith_append (p s : string) : startsWith (p +:+ s) p = true.
Proof. induction p; simpl; [reflexivity|]. now rewrite Ascii.eqb_refl. Qed.

Lemma startsWith_split (s p : string) :
  startsWith s p = true -> s = p +:+ drop (String.length p) s.
Proof.
  revert s; induction p as [|a p IH]; intros s H; simpl in *.
  - now destruct s.
  - destruct s as [|b s]; [discriminate|].
    destruct (Ascii.eqb_spec a b) as [->|]; [|discriminate].
    simpl. f_equal. now apply IH.
Qed.

Lemma take_drop (n : nat) (s : string) : take n s +:+ drop n s = s.
Proof.
  revert s; induction n; intros [|a s]; simpl; try reflexivity.
  now rewrite IHn.
Qed.

Lemma drop_drop (n m : nat) (s : string) : drop n (drop m s) = drop (m + n) s.
Proof.
  revert s; induction m; intros s; simpl; [reflexivity|].
  destruct s; simpl; [now destruct n|]. apply IHm.
Qed.

Lemma drop_append (a b : string) : drop (String.length a) (a +:+ b) = b.
Proof. induction a; simpl; [now destruct b|assumption]. Qed.

Lemma take_append (a b : string) : take (String.length a) (a +:+ b) = a.
Proof. induction a; simpl; [now destruct b|congruence]. Qed.

(** [indexOf] finds an occurrence: the text splits around it. *)
Lemma indexOf_split (s p : string) (i : nat) :
  indexOf s p = Some i ->
  s = take i s +:+ p +:+ drop (i + String.length p) s.
Proof.
  revert i; induction s as [|a s IH]; intros i; simpl.
  - destruct p; simpl; [|discriminate]. now intros [= <-].
  - destruct (startsWith (String a s) p) eqn:E.
    + intros [= <-]. simpl. now apply startsWith_split.
    + destruct (indexOf s p) as [j|]; simpl; [|discriminate].
      intros [= <-]. simpl. f_equal. now apply IH.
Qed.

Lemma includes_cons (a : ascii) (s p : string) :
  includes (String a s) p = false ->
  startsWith (String a s) p = false /\ includes s p = false.
Proof.
  unfold includes; cbn [indexOf].
  destruct (startsWith (String a s) p); [discriminate|].
  now destruct (indexOf s p).
Qed.

(** A template without a dollar sign is substituted as it stands. *)
Lemma getSubstitution_plain (m b a t : string) :
  includes t "$" = false -> getSubstitution m b a t = t.
Proof.
  induction t as [|c t IH]; intros H; [reflexivity|].
  apply includes_cons in H as [H1 H2].
  cbn [getSubstitution].
  destruct (Ascii.eqb_spec c "$") as [->|_]; [discriminate H1|].
  now rewrite IH.
Qed.

Lemma includes_append_r (a b p : string) :
  includes (a +:+ b) p = false -> includes b p = false.
Proof.
  induction a as [|c a IH]; simpl; [trivial|].
  intros H. apply includes_cons in H as [_ H]. now apply IH.
Qed.

End StringFacts.

(** ** The loop body *)

Section StepFacts.

Variable host : Host.
Variable opts : options.

(** A reference that resolves to a readable file whose content survives
    the user transform is substituted. *)
Lemma tryInline_resolved fs terserModule distDir htmlFile st fullMatch srcPath
    trL p c0 c1 trM jsContent :
  locate host opts fs distDir htmlFile srcPath = (trL, (p, true)) ->
  readFileSync fs p = Normal c0 ->
  transformContent opts c0 srcPath = Normal c1 ->
  minifyContent host opts terserModule srcPath c1 = (trM, jsContent) ->
  tryInline host opts fs terserModule distDir htmlFile st fullMatch srcPath
  = (trL ++ trM
     ++ [Console Info (logPrefix +:+ "Inlined JavaScript file: " +:+ srcPath)],
     Normal (JsString.replace (htmlContent st) fullMatch
               (inlineScriptTag jsContent), true)).
Proof.
  intros HL HR HT HM. unfold tryInline. now rewrite HL, HR, HT, HM.
Qed.

(** A reference found nowhere leaves the state as it is. *)
Lemma tryInline_missing fs terserModule distDir htmlFile st fullMatch srcPath
    trL p :
  locate host opts fs distDir htmlFile srcPath = (trL, (p, false)) ->
  tryInline host opts fs terserModule distDir htmlFile st fullMatch srcPath
  = (trL ++ notFoundWarnings host opts distDir htmlFile srcPath,
     Normal (htmlContent st, modified st)).
Proof. intros HL. unfold tryInline. now rewrite HL. Qed.

Lemma replace_found (doc pat repl : string) (i : nat) :
  JsString.indexOf doc pat = Some i ->
  JsString.includes repl "$" = false ->
  JsString.replace doc pat repl
  = JsString.take i doc +:+ repl
    +:+ JsString.drop (i + String.length pat) doc.
Proof.
  intros Hi Hd. unfold JsString.replace. rewrite Hi.
  now rewrite getSubstitution_plain.
Qed.

Lemma includes_inlineScriptTag (c : string) :
  JsString.includes c "$" = false ->
  JsString.includes (inlineScriptTag c) "$" = false.
Proof.
  intros H. unfold inlineScriptTag, newline.
  assert (G : forall t, JsString.includes t "$" = false ->
              JsString.includes (c +:+ t) "$" = false).
  { induction c as [|a c IH]; intros t Ht; [exact Ht|].
    apply includes_cons in H as [H1 H2].
    unfold JsString.includes in *. cbn [String.append JsString.indexOf].
    change (String a c +:+ t) with (String a (c +:+ t)).
    cbn [JsString.startsWith] in *.
    destruct (Ascii.eqb "$" a); [discriminate|].
    specialize (IH H2 t Ht). now destruct (JsString.indexOf (c +:+ t) "$"). }
  specialize (G "</script>" eq_refl).
  unfold JsString.includes in *. cbn.
  now destruct (JsString.indexOf (c +:+ "</script>") "$").
Qed.

End StepFacts.

(** C10. When a reference resolves and the final script content (after
    the user transform and the optional minification) holds no dollar
    sign, the element put in place of the first occurrence of the tag is
    exactly the opening tag, a line feed, the content and the closing tag.
    The replacement goes through [String.prototype.replace] with a string
    replacement, so the shape is not kept for every content: a content of
    two dollar signs is written as one. *)
Theorem inline_element_exact (host : Host) (opts : options)
    fs terserModule distDir htmlFile st fullMatch srcPath
    trL p c0 c1 trM jsContent i :
  locate host opts fs distDir htmlFile srcPath = (trL, (p, true)) ->
  readFileSync fs p = Normal c0 ->
  transformContent opts c0 srcPath = Normal c1 ->
  minifyContent host opts terserModule srcPath c1 = (trM, jsContent) ->
  JsString.indexOf (htmlContent st) fullMatch = Some i ->
  JsString.includes jsContent "$" = false ->
  snd (tryInline host opts fs terserModule distDir htmlFile st fullMatch srcPath)
  = Normal (JsString.take i (htmlContent st)
            +:+ ("<script>" +:+ newline +:+ jsContent +:+ "</script>")
            +:+ JsString.drop (i + String.length fullMatch) (htmlContent st),
            true)
  /\ JsString.replace (htmlContent st) fullMatch (inlineScriptTag "$$")
     <> JsString.take i (htmlContent st) +:+ inlineScriptTag "$$"
        +:+ JsString.drop (i + String.length fullMatch) (htmlContent st).
Proof.
  intros HL HR HT HM Hi Hd. split.
  - rewrite (tryInline_resolved _ _ _ _ _ _ _ _ _ _ _ _ _ _ _ HL HR HT HM).
    cbn [snd]. f_equal. f_equal.
    apply replace_found; [assumption|].
    now apply includes_inlineScriptTag.
  - unfold JsString.replace. rewrite Hi. intros E.
    apply (f_equal String.length) in E.
    rewrite !length_append in E. cbn in E. lia.
Qed.

(** ** Eligibility *)

Section Eligibility.

Variable host : Host.
Variable opts : options.

(** The loop goes on to resolution exactly when the source does not
    begin with [http] and the tag text holds [inline] or [inlineAll] is
    set. *)
Lemma skipped_false_iff (fullMatch srcPath : string) :
  skipped opts fullMatch srcPath = false
  <-> JsString.startsWith srcPath "http" = false
      /\ (JsString.includes fullMatch "inline" = true \/ inlineAll opts = true).
Proof.
  unfold skipped.
  destruct (JsString.startsWith srcPath "http"),
    (JsString.includes fullMatch "inline"), (inlineAll opts); cbn;
    intuition discriminate.
Qed.

(** A skipped match is left untouched: no event, the same state. *)
Lemma step_skipped fs terserModule distDir htmlFile st i fullMatch srcPath :
  skipped opts fullMatch srcPath = true ->
  step host opts fs terserModule distDir htmlFile st
    (RegExp.Found i fullMatch (Some srcPath))
  = ([], Normal st).
Proof. intros H. unfold step. cbn. now rewrite H. Qed.

(** A source that begins with [http] is skipped under every option. *)
Lemma http_source_skipped (fullMatch srcPath : string) :
  JsString.startsWith srcPath "http" = true ->
  skipped opts fullMatch srcPath = true.
Proof. intros H. unfold skipped. now rewrite H. Qed.

End Eligibility.

(** C1, evaluated where it fails. The script [http-utils.js] lies next to
    the page and its tag carries the marker: its source path is not
    protocol-prefixed, so it should be a candidate. The skip test only
    looks at the first four characters of the path: the match is skipped
    and the file is not rewritten. *)
Theorem local_script_named_http_is_skipped :
  let html := "<script src='http-utils.js' inline></script>" in
  let fs := Example.disk html [("/proj/dist/http-utils.js", "let u = 1;")] in
  existsSync fs "/proj/dist/http-utils.js" = true
  /\ RegExp.exec defaultScriptTagPattern html 0
     = (Some (RegExp.Found 0 html (Some "http-utils.js")), 44)
  /\ skipped defaultOptions html "http-utils.js" = true
  /\ processFile Example.host defaultOptions 5 fs None "/proj/dist" Example.page
     = Some ([Console Info "[js-inline] Processing HTML file: index.html";
              Console Info "[js-inline] No scripts to inline in: index.html"],
             fs).
Proof.
  cbv zeta. repeat (split; [vm_compute; reflexivity|]). vm_compute; reflexivity.
Qed.

(** C2, evaluated where it fails. A protocol-relative source does not
    begin with [http], so the skip test lets it through; [path.resolve]
    reads it as an absolute path, and when a file lies there it is
    inlined. *)
Theorem protocol_relative_source_is_inlined :
  let html := "<script src='//cdn.example.com/lib.js' inline></script>" in
  let fs := Example.disk html [("/cdn.example.com/lib.js", "lib();")] in
  skipped defaultOptions html "//cdn.example.com/lib.js" = false
  /\ processFile Example.host defaultOptions 5 fs None "/proj/dist" Example.page
     = Some ([Console Info "[js-inline] Processing HTML file: index.html";
              ExistsSync "/cdn.example.com/lib.js";
              Console Info
                "[js-inline] Inlined JavaScript file: //cdn.example.com/lib.js";
              WriteFileSync Example.page (inlineScriptTag "lib();");
              Console Info
                "[js-inline] Updated HTML file with inlined scripts: index.html"],
             <[Example.page := File (inlineScriptTag "lib();")]> fs).
Proof.
  cbv zeta. repeat (split; [vm_compute; reflexivity|]). vm_compute; reflexivity.
Qed.

(** The tag text of a remote script can hold [inline] too: it is still
    skipped. *)
Lemma marker_in_remote_source_not_eligible :
  let html := "<script src='https://cdn.example.com/inline-utils.js'></script>" in
  RegExp.exec defaultScriptTagPattern html 0
  = (Some (RegExp.Found 0 html (Some "https://cdn.example.com/inline-utils.js")),
     String.length html)
  /\ JsString.includes html "inline" = true
  /\ inlineAll defaultOptions = false
  /\ skipped defaultOptions html "https://cdn.example.com/inline-utils.js" = true.
Proof.
  cbv zeta. repeat (split; [vm_compute; reflexivity|]). vm_compute; reflexivity.
Qed.

(** C9. The marker test is a substring test on the whole tag text: a
    match whose text holds [inline] anywhere, be it in the value of [src]
    or in another attribute, passes it whatever [inlineAll] is, and when
    its source does not begin with [http] the loop does not skip it and
    goes on to resolve and inline it. *)
Theorem marker_is_substring_test (host : Host) (opts : options)
    fs terserModule distDir htmlFile st i (fullMatch srcPath : string) :
  JsString.includes fullMatch "inline" = true ->
  JsString.startsWith srcPath "http" = false ->
  skipped opts fullMatch srcPath = false
  /\ step host opts fs terserModule distDir htmlFile st
       (RegExp.Found i fullMatch (Some srcPath))
     = match tryInline host opts fs terserModule distDir htmlFile st
               fullMatch srcPath with
       | (tr, Normal (c, b)) => (tr, Normal (FileState c b (lastIndex st)))
       | (tr, Throw error) =>
           (tr ++ [Console Error
                     (logPrefix +:+ "Error inlining JavaScript file " +:+ srcPath
                      +:+ ": " +:+ error)],
            Normal st)
       end.
Proof.
  intros Hm Hs.
  assert (E : skipped opts fullMatch srcPath = false).
  { apply skipped_false_iff. auto. }
  split; [exact E|]. unfold step. cbn. now rewrite E.
Qed.

Lemma marker_is_substring_test_witness :
  let html := "<script src='inline-utils.js'></script>" in
  let fs := Example.disk html [("/proj/dist/inline-utils.js", "let u = 1;")] in
  JsString.includes html "inline" = true
  /\ JsString.startsWith "inline-utils.js" "http" = false
  /\ skipped defaultOptions html "inline-utils.js" = false
  /\ step Example.host defaultOptions fs None "/proj/dist" Example.page
       (FileState html false 39) (RegExp.Found 0 html (Some "inline-utils.js"))
     = ([ExistsSync "/proj/dist/inline-utils.js";
         Console Info "[js-inline] Inlined JavaScript file: inline-utils.js"],
        Normal (FileState (inlineScriptTag "let u = 1;") true 39)).
Proof.
  intros html fs.
  pose proof (marker_is_substring_test Example.host defaultOptions fs None
                "/proj/dist" Example.page (FileState html false 39) 0
                html "inline-utils.js" eq_refl eq_refl) as [H1 H2].
  split; [reflexivity|]. split; [reflexivity|]. split; [exact H1|].
  rewrite H2. vm_compute. reflexivity.
Defined.

Lemma inline_element_exact_witness :
  let html := "<p><script src='./a.js' inline></script></p>" in
  let fullMatch := "<script src='./a.js' inline></script>" in
  let fs := Example.disk html [("/proj/dist/a.js", "console.log(1);")] in
  snd (tryInline Example.host defaultOptions fs None "/proj/dist" Example.page
         (FileState html false 40) fullMatch "./a.js")
  = Normal ("<p>" +:+ ("<script>" +:+ newline +:+ "console.log(1);" +:+ "</script>")
            +:+ "</p>", true)
  /\ JsString.replace html fullMatch (inlineScriptTag "$$")
     <> "<p>" +:+ inlineScriptTag "$$" +:+ "</p>".
Proof.
  intros html fullMatch fs.
  exact (inline_element_exact Example.host defaultOptions fs None "/proj/dist"
           Example.page (FileState html false 40) fullMatch "./a.js"
           [ExistsSync "/proj/dist/a.js"] "/proj/dist/a.js"
           "console.log(1);" "console.log(1);" [] "console.log(1);" 3
           eq_refl eq_refl eq_refl eq_refl eq_refl eq_refl).
Defined.

(** ** Resolution *)

Section Resolution.

Variable host : Host.
Variable opts : options.

Lemma trySourceDirs_firstExisting fs srcPath dirs jsFilePath :
  trySourceDirs host fs srcPath dirs jsFilePath
  = let '(tried, r) :=
      firstExisting fs (map (fun dir => attemptPath host dir srcPath) dirs) in
    (map ExistsSync tried,
     match r with Some p => (p, true) | None => (jsFilePath, false) end).
Proof.
  induction dirs as [|dir rest IH]; cbn [trySourceDirs map firstExisting].
  - reflexivity.
  - destruct (existsSync fs (attemptPath host dir srcPath)); [reflexivity|].
    rewrite IH.
    now destruct (firstExisting fs (map _ rest)) as [tried [p|]].
Qed.

(** The four tries of the loop body are first-match-wins over
    [candidates]. *)
Lemma locate_firstExisting fs distDir htmlFile srcPath :
  let '(tried, r) := firstExisting fs (candidates host opts distDir htmlFile srcPath) in
  fst (locate host opts fs distDir htmlFile srcPath) = map ExistsSync tried
  /\ match r with
     | Some p => snd (locate host opts fs distDir htmlFile srcPath) = (p, true)
     | None => snd (snd (locate host opts fs distDir htmlFile srcPath)) = false
     end.
Proof.
  unfold locate, candidates. cbn [app firstExisting].
  destruct (existsSync fs (resolve host [dirname host htmlFile; srcPath]));
    [now cbn|].
  destruct (existsSync fs (resolve host [distDir; srcPath])); [now cbn|].
  destruct (existsSync fs (resolve host [cwd host; srcPath])); [now cbn|].
  cbn [negb]. rewrite trySourceDirs_firstExisting. unfold attemptPath.
  destruct (firstExisting fs (map _ (sourceDirs opts))) as [tried [p|]];
    now cbn.
Qed.

Lemma firstExisting_none fs ps :
  Forall (fun p => existsSync fs p = false) ps ->
  firstExisting fs ps = (ps, None).
Proof.
  induction 1 as [|p ps Hp _ IH]; cbn [firstExisting]; [reflexivity|].
  now rewrite Hp, IH.
Qed.

(** What [firstExisting] returns: the tried paths are the candidates up
    to the first that exists, which is the result; nothing after it is
    tried. *)
Lemma firstExisting_spec fs ps :
  let '(tried, r) := firstExisting fs ps in
  match r with
  | Some p =>
      exists before after,
        ps = before ++ p :: after /\ tried = before ++ [p]
        /\ Forall (fun q => existsSync fs q = false) before
        /\ existsSync fs p = true
  | None => tried = ps /\ Forall (fun q => existsSync fs q = false) ps
  end.
Proof.
  induction ps as [|p ps IH]; cbn [firstExisting].
  - split; [reflexivity|constructor].
  - destruct (existsSync fs p) eqn:E.
    + exists [], ps. repeat split; auto.
    + destruct (firstExisting fs ps) as [tried [q|]].
      * destruct IH as (before & after & -> & -> & HF & Hq).
        exists (p :: before), after. repeat split; auto.
      * destruct IH as [-> HF]. split; [reflexivity|]. now constructor.
Qed.

End Resolution.

(** C3. Resolution tries, in this order, the source against the
    directory of the document, against the output root, against the
    working directory and then, for each extra source directory as listed,
    the source without a leading [./] against that directory. The path
    it returns is the first of these that exists; the paths probed on
    disk are the candidates up to and including that one, and none after
    it. When the path against the document's directory exists, it is the
    only one probed and its file is the one inlined, whatever lies in the
    extra source directories. *)
Theorem resolution_order (host : Host) (opts : options)
    (fs : gmap string node) (distDir htmlFile srcPath : string) :
  let docPath := resolve host [dirname host htmlFile; srcPath] in
  let cs :=
    docPath :: resolve host [distDir; srcPath] :: resolve host [cwd host; srcPath]
    :: map (fun dir => resolve host [cwd host; dir; JsString.stripDotSlash srcPath])
         (sourceDirs opts) in
  match locate host opts fs distDir htmlFile srcPath with
  | (tr, (jsFilePath, true)) =>
      exists before after,
        cs = before ++ jsFilePath :: after
        /\ Forall (fun q => existsSync fs q = false) before
        /\ existsSync fs jsFilePath = true
        /\ tr = map ExistsSync (before ++ [jsFilePath])
  | (tr, (_, false)) =>
      Forall (fun q => existsSync fs q = false) cs /\ tr = map ExistsSync cs
  end
  /\ (existsSync fs docPath = true ->
      locate host opts fs distDir htmlFile srcPath
      = ([ExistsSync docPath], (docPath, true))
      /\ forall terserModule st fullMatch c0 c1 trM jsContent,
           readFileSync fs docPath = Normal c0 ->
           transformContent opts c0 srcPath = Normal c1 ->
           minifyContent host opts terserModule srcPath c1 = (trM, jsContent) ->
           tryInline host opts fs terserModule distDir htmlFile st fullMatch srcPath
           = ([ExistsSync docPath] ++ trM
              ++ [Console Info (logPrefix +:+ "Inlined JavaScript file: " +:+ srcPath)],
              Normal (JsString.replace (htmlContent st) fullMatch
                        (inlineScriptTag jsContent), true))).
Proof.
  intros docPath cs. split.
  - pose proof (locate_firstExisting host opts fs distDir htmlFile srcPath) as L.
    pose proof (firstExisting_spec fs (candidates host opts distDir htmlFile srcPath))
      as F.
    change (candidates host opts distDir htmlFile srcPath) with cs in L, F.
    destruct (firstExisting fs cs) as [tried r].
    destruct (locate host opts fs distDir htmlFile srcPath) as [tr [p b]].
    cbn [fst snd] in L. destruct L as [-> L].
    destruct r as [q|].
    + injection L as -> ->.
      destruct F as (before & after & E & -> & HF & Hq).
      exists before, after. auto.
    + subst b. destruct F as [-> HF]. auto.
  - intros Hdoc.
    assert (L : locate host opts fs distDir htmlFile srcPath
                = ([ExistsSync docPath], (docPath, true))).
    { unfold locate. fold docPath. now rewrite Hdoc. }
    split; [exact L|]. intros tm st fm c0 c1 trM jsContent HR HT HM.
    exact (tryInline_resolved host opts fs tm distDir htmlFile st fm srcPath
             _ _ _ _ _ _ L HR HT HM).
Qed.

Lemma resolution_order_witness :
  let html := "<script src='./a.js' inline></script>" in
  let fs := Example.disk html [("/proj/dist/a.js", "dist();");
                               ("/proj/src/a.js", "src();")] in
  existsSync fs "/proj/dist/a.js" = true
  /\ existsSync fs "/proj/src/a.js" = true
  /\ tryInline Example.host defaultOptions fs None "/proj/dist" Example.page
       (FileState html false 37) html "./a.js"
     = ([ExistsSync "/proj/dist/a.js";
         Console Info "[js-inline] Inlined JavaScript file: ./a.js"],
        Normal (inlineScriptTag "dist();", true)).
Proof.
  intros html fs.
  split; [reflexivity|]. split; [reflexivity|].
  destruct (resolution_order Example.host defaultOptions fs "/proj/dist"
              Example.page "./a.js") as [_ H].
  destruct (H eq_refl) as [_ H'].
  exact (H' None (FileState html false 37) html "dist();" "dist();" []
           "dist();" eq_refl eq_refl eq_refl).
Defined.

(** ** References that resolve nowhere *)

Section Unresolved.

Variable host : Host.
Variable opts : options.

Lemma imap_map {A B C : Type} (f : nat -> B -> C) (g : A -> B) (l : list A) :
  imap f (map g l) = imap (fun i x => f i (g x)) l.
Proof.
  revert f; induction l as [|x l IH]; intros f; [reflexivity|].
  cbn [map imap]. f_equal. apply IH.
Qed.

(** The numbered lines of the warning are the candidates, in order. *)
Lemma notFoundWarnings_candidates distDir htmlFile srcPath :
  notFoundWarnings host opts distDir htmlFile srcPath
  = [Console Warn (logPrefix +:+ "Could not find JavaScript file to inline: " +:+ srcPath);
     Console Warn (logPrefix +:+ "Attempted paths:")]
    ++ imap (fun k p => Console Warn (logPrefix +:+ JsString.ofNat (k + 1) +:+ ". " +:+ p))
         (candidates host opts distDir htmlFile srcPath).
Proof.
  unfold notFoundWarnings, candidates. cbn [app imap]. do 5 f_equal.
  rewrite imap_map. apply imap_ext. intros i dir _.
  unfold compose, attemptPath.
  replace (S (S (S i)) + 1) with (i + 4) by lia. reflexivity.
Qed.

Lemma locate_none fs distDir htmlFile srcPath :
  Forall (fun q => existsSync fs q = false)
    (candidates host opts distDir htmlFile srcPath) ->
  exists p,
    locate host opts fs distDir htmlFile srcPath
    = (map ExistsSync (candidates host opts distDir htmlFile srcPath), (p, false)).
Proof.
  intros HF.
  pose proof (locate_firstExisting host opts fs distDir htmlFile srcPath) as L.
  rewrite (firstExisting_none fs _ HF) in L.
  destruct (locate host opts fs distDir htmlFile srcPath) as [tr [p b]].
  cbn [fst snd] in L. destruct L as [-> ->]. now exists p.
Qed.

(** Unfolding the [while] loop once at a match. *)
Lemma scan_match fuel fs terserModule distDir htmlFile st m i :
  RegExp.exec (scriptTagPattern opts) (htmlContent st) (lastIndex st) = (Some m, i) ->
  scan host opts (S fuel) fs terserModule distDir htmlFile st
  = match step host opts fs terserModule distDir htmlFile
            (FileState (htmlContent st) (modified st) i) m with
    | (tr, Throw e) => Some (tr, Throw e)
    | (tr, Normal st') =>
        match scan host opts fuel fs terserModule distDir htmlFile st' with
        | Some (tr', r) => Some (tr ++ tr', r)
        | None => None
        end
    end.
Proof. intros E. cbn [scan]. now rewrite E. Qed.

Lemma scan_done fuel fs terserModule distDir htmlFile st i :
  RegExp.exec (scriptTagPattern opts) (htmlContent st) (lastIndex st) = (None, i) ->
  scan host opts (S fuel) fs terserModule distDir htmlFile st
  = Some ([], Normal (FileState (htmlContent st) (modified st) i)).
Proof. intros E. cbn [scan]. now rewrite E. Qed.

End Unresolved.

(** C4. A candidate reference whose source exists at none of the
    candidate locations does not fail the file: the loop body probes every
    candidate, warns with one numbered line per attempted path (against
    the document's directory, the output root, the working directory, and
    one per extra source directory), leaves [htmlContent] and [modified]
    as they were, and the loop goes on from the end of the match with the
    remaining references. *)
Theorem unresolved_reference_is_reported (host : Host) (opts : options)
    fuel fs terserModule distDir htmlFile st m srcPath i :
  RegExp.exec (scriptTagPattern opts) (htmlContent st) (lastIndex st) = (Some m, i) ->
  RegExp.capture m = Some srcPath ->
  skipped opts (RegExp.fullMatch m) srcPath = false ->
  Forall (fun q => existsSync fs q = false)
    (candidates host opts distDir htmlFile srcPath) ->
  let st' := FileState (htmlContent st) (modified st) i in
  let report :=
    map ExistsSync (candidates host opts distDir htmlFile srcPath)
    ++ [Console Warn (logPrefix +:+ "Could not find JavaScript file to inline: " +:+ srcPath);
        Console Warn (logPrefix +:+ "Attempted paths:")]
    ++ imap (fun k p => Console Warn (logPrefix +:+ JsString.ofNat (k + 1) +:+ ". " +:+ p))
         (candidates host opts distDir htmlFile srcPath) in
  step host opts fs terserModule distDir htmlFile st' m = (report, Normal st')
  /\ scan host opts (S fuel) fs terserModule distDir htmlFile st
     = match scan host opts fuel fs terserModule distDir htmlFile st' with
       | Some (tr, r) => Some (report ++ tr, r)
       | None => None
       end.
Proof.
  intros He Hc Hs HF st' report.
  assert (E : step host opts fs terserModule distDir htmlFile st' m
              = (report, Normal st')).
  { unfold step. rewrite Hc, Hs.
    destruct (locate_none host opts fs distDir htmlFile srcPath HF) as [p L].
    rewrite (tryInline_missing host opts fs terserModule distDir htmlFile st'
               (RegExp.fullMatch m) srcPath _ _ L).
    rewrite notFoundWarnings_candidates. reflexivity. }
  split; [exact E|].
  rewrite (scan_match host opts fuel fs terserModule distDir htmlFile st m i He).
  fold st'. now rewrite E.
Qed.

Lemma unresolved_reference_is_reported_witness :
  let html := "<script src='./gone.js' inline></script><script src='a.js' inline></script>" in
  let fs := Example.disk html [("/proj/dist/a.js", "a();")] in
  scan Example.host defaultOptions 3 fs None "/proj/dist" Example.page
    (FileState html false 0)
  = Some ([ExistsSync "/proj/dist/gone.js"; ExistsSync "/proj/dist/gone.js";
           ExistsSync "/proj/gone.js"; ExistsSync "/proj/src/gone.js";
           ExistsSync "/proj/public/gone.js";
           Console Warn "[js-inline] Could not find JavaScript file to inline: ./gone.js";
           Console Warn "[js-inline] Attempted paths:";
           Console Warn "[js-inline] 1. /proj/dist/gone.js";
           Console Warn "[js-inline] 2. /proj/dist/gone.js";
           Console Warn "[js-inline] 3. /proj/gone.js";
           Console Warn "[js-inline] 4. /proj/src/gone.js";
           Console Warn "[js-inline] 5. /proj/public/gone.js";
           ExistsSync "/proj/dist/a.js";
           Console Info "[js-inline] Inlined JavaScript file: a.js"],
          Normal (FileState
                    ("<script src='./gone.js' inline></script>"
                     +:+ inlineScriptTag "a();") true 0)).
Proof.
  intros html fs.
  destruct (unresolved_reference_is_reported Example.host defaultOptions 2 fs None
              "/proj/dist" Example.page (FileState html false 0)
              (RegExp.Found 0 "<script src='./gone.js' inline></script>"
                 (Some "./gone.js"))
              "./gone.js" 40 eq_refl eq_refl eq_refl) as [_ H].
  - vm_compute. repeat constructor.
  - rewrite H. vm_compute. reflexivity.
Defined.

(** ** Matches *)

Section RegExpFacts.

Import RegExp.

Lemma close_returns p r g n s :
  isSome (snd r) = g /\ n <= String.length (fst r)
  /\ s = fst r +:+ JsString.drop (String.length (fst r)) s ->
  isSome (snd (close p r)) = grp p || g
  /\ n <= String.length (fst (close p r))
  /\ s = fst (close p r) +:+ JsString.drop (String.length (fst (close p r))) s.
Proof.
  intros (H1 & H2 & H3). unfold close. cbn [fst snd].
  repeat split; auto. destruct (grp p); [reflexivity|exact H1].
Qed.

Lemma consume_returns p c r g n s :
  isSome (snd r) = g /\ n <= String.length (fst r)
  /\ s = fst r +:+ JsString.drop (String.length (fst r)) s ->
  isSome (snd (consume p c r)) = grp p || g
  /\ S n <= String.length (fst (consume p c r))
  /\ String c s
     = fst (consume p c r)
       +:+ JsString.drop (String.length (fst (consume p c r))) (String c s).
Proof.
  intros (H1 & H2 & H3). unfold consume. cbn [fst snd String.length JsString.drop].
  repeat split.
  - destruct (grp p); [reflexivity|exact H1].
  - lia.
  - cbn. now f_equal.
Qed.

Lemma greedy_returns p k g n :
  returns k g n -> returns (greedy p k) (grp p || g) n.
Proof.
  intros Hk s. induction s as [|c s IH]; intros r; cbn [greedy].
  - destruct (k "") as [r0|] eqn:E; cbn; [|discriminate].
    intros [= <-]. apply close_returns. now apply Hk.
  - assert (Hclose : option_map (close p) (k (String c s)) = Some r ->
              isSome (snd r) = grp p || g
              /\ n <= String.length (fst r)
              /\ String c s = fst r +:+ JsString.drop (String.length (fst r)) (String c s)).
    { destruct (k (String c s)) as [r0|] eqn:E; cbn; [|discriminate].
      intros [= <-]. apply close_returns. now apply Hk. }
    destruct (cls p c); [|exact Hclose].
    destruct (greedy p k s) as [r1|] eqn:E1; [|exact Hclose].
    intros [= <-]. specialize (IH r1 eq_refl).
    destruct (consume_returns p c r1 (grp p || g) n s) as (A & B & C).
    { destruct IH as (I1 & I2 & I3). repeat split; auto. }
    repeat split; [|lia|exact C].
    rewrite A. now destruct (grp p), g.
Qed.

(** A match has capture 1 exactly when the pattern has the group, is
    a prefix of the text it was tried on, and is not empty when the
    pattern is [nonEmpty]. *)
Lemma matchHere_returns ps :
  returns (matchHere ps) (hasGroup ps) (if nonEmpty ps then 1 else 0).
Proof.
  induction ps as [|p ps IH]; intros s r.
  - cbn. intros [= <-]. cbn. repeat split; auto; now destruct s.
  - cbn [matchHere hasGroup nonEmpty existsb]. unfold consuming at 1.
    fold (hasGroup ps). fold (nonEmpty ps).
    destruct (rep p).
    + destruct s as [|c s]; [discriminate|].
      destruct (cls p c); [|discriminate].
      destruct (matchHere ps s) as [r0|] eqn:E; cbn; [|discriminate].
      intros [= <-].
      destruct (consume_returns p c (close p r0) (grp p || hasGroup ps) 0 s)
        as (A & B & C).
      { apply close_returns. destruct (IH s r0 E) as (I1 & I2 & I3).
        repeat split; auto. lia. }
      repeat split; [|exact B|exact C].
      rewrite A. now destruct (grp p), (hasGroup ps).
    + intros H. cbn [orb]. revert s r H. now apply greedy_returns.
    + destruct s as [|c s]; [discriminate|].
      destruct (cls p c); [|discriminate].
      destruct (greedy p (matchHere ps) s) as [r0|] eqn:E; cbn; [|discriminate].
      intros [= <-].
      destruct (consume_returns p c r0 (grp p || hasGroup ps) 0 s)
        as (A & B & C).
      { destruct (greedy_returns p _ _ _ IH s r0 E) as (I1 & I2 & I3).
        repeat split; auto. lia. }
      repeat split; [|exact B|exact C].
      rewrite A. now destruct (grp p), (hasGroup ps).
Qed.

Lemma search_bounds ps s i m :
  search ps s i = Some m ->
  isSome (capture m) = hasGroup ps
  /\ i <= index m
  /\ index m + String.length (fullMatch m) <= i + String.length s
  /\ (if nonEmpty ps then 1 else 0) <= String.length (fullMatch m).
Proof.
  revert i; induction s as [|c s IH]; intros i; cbn [search].
  - destruct (matchHere ps "") as [r|] eqn:E; [|discriminate].
    intros [= <-]. cbn.
    destruct (matchHere_returns ps _ _ E) as (A & B & C).
    apply (f_equal String.length) in C. rewrite length_append in C.
    cbn in C. repeat split; auto; lia.
  - destruct (matchHere ps (String c s)) as [r|] eqn:E.
    + intros [= <-]. cbn [index fullMatch capture].
      destruct (matchHere_returns ps _ _ E) as (A & B & C).
      apply (f_equal String.length) in C. rewrite length_append in C.
      repeat split; auto; lia.
    + intros H. apply IH in H. cbn [String.length]. intuition lia.
Qed.

Lemma length_drop (n : nat) (s : string) :
  String.length (JsString.drop n s) = String.length s - n.
Proof.
  revert s; induction n; intros [|c s]; cbn; auto.
Qed.

(** [exec] leaves [lastIndex] at the end of the match it returns. *)
Lemma exec_bounds ps text i m j :
  exec ps text i = (Some m, j) ->
  isSome (capture m) = hasGroup ps
  /\ j = index m + String.length (fullMatch m)
  /\ i <= index m
  /\ j <= String.length text
  /\ (if nonEmpty ps then 1 else 0) <= String.length (fullMatch m).
Proof.
  unfold exec. destruct (Nat.ltb_spec (String.length text) i) as [|Hle];
    [discriminate|].
  destruct (search ps (JsString.drop i text) i) as [m'|] eqn:E; [|discriminate].
  intros [= <- <-]. apply search_bounds in E as (A & B & C & D).
  rewrite length_drop in C. repeat split; auto; lia.
Qed.

End RegExpFacts.


Section Traces.

Variable host : Host.
Variable opts : options.

Lemma substitutions_app tr tr' :
  substitutions (tr ++ tr') = substitutions tr + substitutions tr'.
Proof. unfold substitutions. now rewrite List.filter_app, length_app. Qed.

Lemma writes_app tr tr' : writes (tr ++ tr') = writes tr ++ writes tr'.
Proof. apply List.filter_app. Qed.

Lemma quiet_app tr tr' : quiet (tr ++ tr') = quiet tr && quiet tr'.
Proof. apply List.forallb_app. Qed.

Lemma quiet_spec tr : quiet tr = true -> substitutions tr = 0 /\ writes tr = [].
Proof.
  unfold substitutions, writes.
  induction tr as [|e tr IH]; cbn; [auto|].
  destruct (isInlined e), (isWrite e); cbn; try discriminate. exact IH.
Qed.

Lemma quiet_probes ps : quiet (map ExistsSync ps) = true.
Proof. induction ps; cbn; auto. Qed.

Lemma quiet_locate fs distDir htmlFile srcPath :
  quiet (fst (locate host opts fs distDir htmlFile srcPath)) = true.
Proof.
  pose proof (locate_firstExisting host opts fs distDir htmlFile srcPath) as L.
  destruct (firstExisting fs _) as [tried r]. destruct L as [-> _].
  apply quiet_probes.
Qed.

Lemma quiet_imap_warn {A : Type} (f : nat -> A -> string) (l : list A) :
  quiet (imap (fun i x => Console Warn (f i x)) l) = true.
Proof.
  revert f; induction l as [|x l IH]; intros f; [reflexivity|].
  cbn [imap quiet forallb]. cbn. apply (IH (fun i => f (S i))).
Qed.

Lemma quiet_notFoundWarnings distDir htmlFile srcPath :
  quiet (notFoundWarnings host opts distDir htmlFile srcPath) = true.
Proof.
  unfold notFoundWarnings. rewrite quiet_app. cbn [andb quiet forallb].
  cbn. apply (quiet_imap_warn (fun index dir => _)).
Qed.

Lemma quiet_minifyContent terserModule srcPath jsContent :
  quiet (fst (minifyContent host opts terserModule srcPath jsContent)) = true.
Proof.
  unfold minifyContent.
  destruct (if minify opts then terserModule else None) as [t|]; [|reflexivity].
  destruct (t jsContent) as [[code|e]|e]; reflexivity.
Qed.

(** What one turn of the loop does to the state and the trace. *)
Lemma step_effect fs terserModule distDir htmlFile st m tr r :
  step host opts fs terserModule distDir htmlFile st m = (tr, r) ->
  match r with
  | Throw _ => tr = [] /\ RegExp.capture m = None
  | Normal st' =>
      RegExp.capture m <> None
      /\ lastIndex st' = lastIndex st
      /\ writes tr = []
      /\ ((substitutions tr = 0 /\ st' = st)
          \/ (substitutions tr = 1 /\ modified st' = true))
  end.
Proof.
  unfold step. destruct (RegExp.capture m) as [srcPath|].
  2:{ intros [= <- <-]. auto. }
  destruct (skipped opts (RegExp.fullMatch m) srcPath).
  { intros [= <- <-]. repeat split; auto; discriminate. }
  unfold tryInline.
  pose proof (quiet_locate fs distDir htmlFile srcPath) as QL.
  destruct (locate host opts fs distDir htmlFile srcPath) as [trL [p b]].
  cbn [fst] in QL. destruct (quiet_spec _ QL) as [SL WL].
  assert (Hfail : forall e,
    (trL ++ [Console Error (logPrefix +:+ "Error inlining JavaScript file " +:+ srcPath
                            +:+ ": " +:+ e)], Normal st) = (tr, r) ->
    match r with
    | Throw _ => tr = [] /\ Some srcPath = None
    | Normal st' =>
        Some srcPath <> None /\ lastIndex st' = lastIndex st /\ writes tr = []
        /\ ((substitutions tr = 0 /\ st' = st)
            \/ (substitutions tr = 1 /\ modified st' = true))
    end).
  { intros e [= <- <-]. rewrite writes_app, substitutions_app, WL, SL.
    repeat split; auto; discriminate. }
  destruct b.
  - destruct (readFileSync fs p) as [c0|e]; [|apply Hfail].
    destruct (transformContent opts c0 srcPath) as [c1|e]; [|apply Hfail].
    pose proof (quiet_minifyContent terserModule srcPath c1) as QM.
    destruct (minifyContent host opts terserModule srcPath c1) as [trM c].
    cbn [fst] in QM. destruct (quiet_spec _ QM) as [SM WM].
    intros [= <- <-].
    rewrite !writes_app, !substitutions_app, WL, SL, WM, SM.
    repeat split; auto; try discriminate.
  - pose proof (quiet_notFoundWarnings distDir htmlFile srcPath) as QN.
    destruct (quiet_spec _ QN) as [SN WN].
    intros [= <- <-]. rewrite writes_app, substitutions_app, WL, SL, WN, SN.
    repeat split; auto; try discriminate. left. now destruct st.
Qed.

End Traces.

(** ** The loop over the matches of one file *)

Section ScanFacts.

Variable host : Host.
Variable opts : options.

(** With a pattern that has the group, the loop does not throw. *)
Lemma scan_no_throw fuel fs terserModule distDir htmlFile st tr e :
  hasGroup (scriptTagPattern opts) = true ->
  scan host opts fuel fs terserModule distDir htmlFile st <> Some (tr, Throw e).
Proof.
  intros HG. revert st tr. induction fuel as [|fuel IH]; intros st tr;
    cbn [scan]; [discriminate|].
  destruct (RegExp.exec _ _ _) as [[m|] i] eqn:E; [|discriminate].
  apply exec_bounds in E as (A & _). rewrite HG in A.
  destruct (step host opts fs terserModule distDir htmlFile _ m) as [tr1 r1] eqn:S1.
  apply step_effect in S1. destruct r1 as [st'|e'].
  - specialize (IH st').
    destruct (scan host opts fuel fs terserModule distDir htmlFile st')
      as [[tr' r']|]; [|discriminate].
    intros [= <- ->]. now apply (IH tr').
  - destruct S1 as [_ S1]. rewrite S1 in A. discriminate.
Qed.

(** The loop invariant: no write happens inside the loop; [modified] is
    set exactly when a substitution was logged; without one the text is
    the one the loop started with; a throw comes before any event. *)
Lemma scan_invariant fuel fs terserModule distDir htmlFile st tr r :
  scan host opts fuel fs terserModule distDir htmlFile st = Some (tr, r) ->
  writes tr = []
  /\ match r with
     | Throw _ => tr = []
     | Normal st' =>
         modified st' = modified st || (0 <? substitutions tr)
         /\ (substitutions tr = 0 -> htmlContent st' = htmlContent st)
     end.
Proof.
  revert st tr r. induction fuel as [|fuel IH]; intros st tr r;
    cbn [scan]; [discriminate|].
  destruct (RegExp.exec _ _ _) as [[m|] i] eqn:E.
  2:{ intros [= <- <-]. cbn. split; [reflexivity|]. split; [|reflexivity].
      now rewrite orb_false_r. }
  pose proof (exec_bounds _ _ _ _ _ E) as (A & _).
  destruct (step host opts fs terserModule distDir htmlFile _ m) as [tr1 r1] eqn:S1.
  apply step_effect in S1. destruct r1 as [st1|e1].
  2:{ intros [= <- <-]. destruct S1 as [-> _]. auto. }
  destruct S1 as (C1 & _ & W1 & S1).
  destruct (scan host opts fuel fs terserModule distDir htmlFile st1)
    as [[tr2 r2]|] eqn:E2; [|discriminate].
  intros [= <- <-].
  destruct r2 as [st2|e2].
  2:{ exfalso. apply (scan_no_throw fuel fs terserModule distDir htmlFile st1 tr2 e2);
        [|exact E2].
      rewrite <- A. now destruct (RegExp.capture m). }
  destruct (IH _ _ _ E2) as (W2 & M2 & H2).
  rewrite writes_app, W1, W2, substitutions_app. split; [reflexivity|].
  destruct S1 as [[S1 ->]|[S1 M1]]; rewrite S1.
  - cbn [Nat.add]. cbn in M2, H2. auto.
  - rewrite M2, M1. cbn. split; [now rewrite orb_true_r|discriminate].
Qed.



End ScanFacts.


(** ** The minifier *)

Section FileEvents.

Variable host : Host.
Variable opts : options.
Variable terserModule : option terser.

(** A class of events that holds all console lines, probes and writes,
    and whatever the minification block emits. *)
Variable ok : event -> bool.
Hypothesis ok_console : forall l msg, ok (Console l msg) = true.
Hypothesis ok_probe : forall p, ok (ExistsSync p) = true.
Hypothesis ok_write : forall p data, ok (WriteFileSync p data) = true.
Hypothesis ok_minify : forall srcPath jsContent,
  forallb ok (fst (minifyContent host opts terserModule srcPath jsContent)) = true.

Lemma ok_locate fs distDir htmlFile srcPath :
  forallb ok (fst (locate host opts fs distDir htmlFile srcPath)) = true.
Proof.
  pose proof (locate_firstExisting host opts fs distDir htmlFile srcPath) as L.
  destruct (firstExisting fs _) as [tried r]. destruct L as [-> _].
  induction tried; cbn; [reflexivity|]. now rewrite ok_probe.
Qed.

Lemma ok_imap_warn {A : Type} (f : nat -> A -> string) (l : list A) :
  forallb ok (imap (fun i x => Console Warn (f i x)) l) = true.
Proof.
  revert f; induction l as [|x l IH]; intros f; [reflexivity|].
  cbn [imap forallb]. rewrite ok_console. apply (IH (fun i => f (S i))).
Qed.

Lemma ok_notFoundWarnings distDir htmlFile srcPath :
  forallb ok (notFoundWarnings host opts distDir htmlFile srcPath) = true.
Proof.
  unfold notFoundWarnings. rewrite List.forallb_app. cbn [forallb].
  rewrite !ok_console. cbn [andb].
  apply (ok_imap_warn (fun index dir =>
           logPrefix +:+ JsString.ofNat (index + 4) +:+ ". "
           +:+ attemptPath host dir srcPath)).
Qed.

Lemma ok_step fs distDir htmlFile st m :
  forallb ok (fst (step host opts fs terserModule distDir htmlFile st m)) = true.
Proof.
  unfold step. destruct (RegExp.capture m) as [srcPath|]; [|reflexivity].
  destruct (skipped opts (RegExp.fullMatch m) srcPath); [reflexivity|].
  unfold tryInline.
  pose proof (ok_locate fs distDir htmlFile srcPath) as QL.
  destruct (locate host opts fs distDir htmlFile srcPath) as [trL [p b]].
  cbn [fst] in QL.
  assert (Hfail : forall e : string,
            forallb ok (trL ++ [Console Error
              (logPrefix +:+ "Error inlining JavaScript file " +:+ srcPath
               +:+ ": " +:+ e)]) = true).
  { intros e. rewrite List.forallb_app, QL. cbn. now rewrite ok_console. }
  destruct b.
  - destruct (readFileSync fs p) as [c0|e]; [|apply Hfail].
    destruct (transformContent opts c0 srcPath) as [c1|e]; [|apply Hfail].
    pose proof (ok_minify srcPath c1) as QM.
    destruct (minifyContent host opts terserModule srcPath c1) as [trM c].
    cbn [fst] in *. rewrite !List.forallb_app, QL, QM. cbn.
    now rewrite ok_console.
  - cbn [fst]. now rewrite List.forallb_app, QL, ok_notFoundWarnings.
Qed.

Lemma ok_scan fuel fs distDir htmlFile st tr r :
  scan host opts fuel fs terserModule distDir htmlFile st = Some (tr, r) ->
  forallb ok tr = true.
Proof.
  revert st tr r; induction fuel as [|fuel IH]; intros st tr r; cbn [scan];
    [discriminate|].
  destruct (RegExp.exec _ _ _) as [[m|] i]; [|now intros [= <- <-]].
  pose proof (ok_step fs distDir htmlFile
                (FileState (htmlContent st) (modified st) i) m) as Q.
  destruct (step host opts fs terserModule distDir htmlFile _ m) as [tr1 [st1|e]];
    cbn [fst] in Q; [|now intros [= <- <-]].
  destruct (scan host opts fuel fs terserModule distDir htmlFile st1)
    as [[tr2 r2]|] eqn:E; [|discriminate].
  intros [= <- <-]. rewrite List.forallb_app, Q. now apply IH in E.
Qed.

Lemma ok_processFile fuel fs distDir htmlFile tr fs' :
  processFile host opts fuel fs terserModule distDir htmlFile = Some (tr, fs') ->
  forallb ok tr = true.
Proof.
  unfold processFile. destruct (readFileSync fs htmlFile) as [content|e].
  2:{ intros [= <- <-]. cbn. now rewrite !ok_console. }
  destruct (scan host opts fuel fs terserModule distDir htmlFile _)
    as [[tr0 r]|] eqn:E; [|discriminate].
  apply ok_scan in E.
  destruct r as [st|e]; [destruct (modified st)|]; intros [= <- <-];
    cbn [forallb]; rewrite List.forallb_app, E, ok_console; cbn;
    now rewrite ?ok_write, ?ok_console.
Qed.

Lemma ok_processFiles fuel fs distDir htmlFiles tr fs' :
  processFiles host opts fuel fs terserModule distDir htmlFiles = Some (tr, fs') ->
  forallb ok tr = true.
Proof.
  revert fs tr fs'; induction htmlFiles as [|f fl IH]; intros fs tr fs';
    cbn [processFiles]; [now intros [= <- <-]|].
  destruct (processFile host opts fuel fs terserModule distDir f)
    as [[tr1 fs1]|] eqn:E1; [|discriminate].
  destruct (processFiles host opts fuel fs1 terserModule distDir fl)
    as [[tr2 fs2]|] eqn:E2; [|discriminate].
  intros [= <- <-]. rewrite List.forallb_app.
  now rewrite (ok_processFile _ _ _ _ _ _ E1), (IH _ _ _ E2).
Qed.

End FileEvents.

Section MinifierFacts.

Variable host : Host.
Variable opts : options.

Lemma filter_none {A : Type} (P : A -> bool) (l : list A) :
  forallb (fun x => negb (P x)) l = true -> List.filter P l = [].
Proof.
  induction l as [|x l IH]; cbn; [reflexivity|].
  destruct (P x); cbn; [discriminate|exact IH].
Qed.

(** Without a module there is nothing to call. *)
Lemma minifyContent_unloaded srcPath jsContent :
  minifyContent host opts None srcPath jsContent = ([], jsContent).
Proof. unfold minifyContent. now destruct (minify opts). Qed.

Lemma notImport_minifyContent terserModule srcPath jsContent :
  forallb (fun e => negb (isImport e))
    (fst (minifyContent host opts terserModule srcPath jsContent)) = true.
Proof.
  unfold minifyContent.
  destruct (if minify opts then terserModule else None) as [t|]; [|reflexivity].
  destruct (t jsContent) as [[code|e]|e]; reflexivity.
Qed.

(** With no module loaded, the options with and without [minify] run
    the same way on every file. *)
Lemma step_unloaded fs distDir htmlFile st m :
  step host opts fs None distDir htmlFile st m
  = step host (withoutMinify opts) fs None distDir htmlFile st m.
Proof.
  unfold step, tryInline.
  change (locate host (withoutMinify opts)) with (locate host opts).
  change (notFoundWarnings host (withoutMinify opts))
    with (notFoundWarnings host opts).
  change (skipped (withoutMinify opts)) with (skipped opts).
  change (transformContent (withoutMinify opts)) with (transformContent opts).
  destruct (RegExp.capture m) as [srcPath|]; [|reflexivity].
  destruct (skipped opts _ srcPath); [reflexivity|].
  destruct (locate host opts fs distDir htmlFile srcPath) as [trL [p []]];
    [|reflexivity].
  destruct (readFileSync fs p) as [c0|]; [|reflexivity].
  destruct (transformContent opts c0 srcPath) as [c1|]; [|reflexivity].
  now rewrite minifyContent_unloaded.
Qed.

Lemma scan_unloaded fuel fs distDir htmlFile st :
  scan host opts fuel fs None distDir htmlFile st
  = scan host (withoutMinify opts) fuel fs None distDir htmlFile st.
Proof.
  revert st; induction fuel as [|fuel IH]; intros st; [reflexivity|].
  cbn [scan]. change (scriptTagPattern (withoutMinify opts))
    with (scriptTagPattern opts).
  destruct (RegExp.exec _ _ _) as [[m|] i]; [|reflexivity].
  rewrite step_unloaded.
  destruct (step host (withoutMinify opts) fs None distDir htmlFile _ m)
    as [tr [st'|e]]; [|reflexivity].
  now rewrite IH.
Qed.

Lemma processFiles_unloaded fuel fs distDir htmlFiles :
  processFiles host opts fuel fs None distDir htmlFiles
  = processFiles host (withoutMinify opts) fuel fs None distDir htmlFiles.
Proof.
  revert fs; induction htmlFiles as [|f fl IH]; intros fs; [reflexivity|].
  cbn [processFiles]. unfold processFile.
  destruct (readFileSync fs f) as [content|e].
  - rewrite scan_unloaded.
    destruct (scan host (withoutMinify opts) fuel fs None distDir f _)
      as [[tr [st|e]]|]; [destruct (modified st)| |]; now rewrite ?IH.
  - now rewrite IH.
Qed.

End MinifierFacts.

(** C6. With [minify] on, the module is imported exactly once in a run
    of the hook, at its start, whether the import succeeds or not. When
    the import fails, the loading block logs its two warning lines there
    and leaves the module unset; nothing is imported again and [minify]
    is never called; from then on the run is the run with [minify] off:
    the same files are rewritten with the same transformed, unminified
    content, and the rest of the trace is the same. *)
Theorem minifier_load_failure (host : Host) (opts : options) :
  minify opts = true ->
  (forall fuel terserModule fs tr fs' terserModule' r,
     closeBundle host opts fuel terserModule fs = Some (tr, fs', terserModule', r) ->
     imports tr = 1)
  /\ forall err,
       importTerser host = Throw err ->
       loadTerser host opts None = (failedLoad, None)
       /\ forall fuel fs,
            match closeBundle host (withoutMinify opts) fuel None fs with
            | None => closeBundle host opts fuel None fs = None
            | Some (tr0, fs', _, r) =>
                exists hello tr,
                  tr0 = hello :: tr
                  /\ closeBundle host opts fuel None fs
                     = Some (hello :: failedLoad ++ tr, fs', None, r)
                  /\ minifyCalls (hello :: failedLoad ++ tr) = 0
                  /\ length (List.filter isWarn (hello :: failedLoad ++ tr))
                     = 2 + length (List.filter isWarn tr0)
            end.
Proof.
  intros Hmin. split.
  { intros fuel tm fs tr fs' tm' r. unfold closeBundle.
    assert (L0 : exists tr0 tm1,
              loadTerser host opts tm = (Import "terser" :: tr0, tm1)
              /\ List.filter isImport tr0 = []).
    { unfold loadTerser. rewrite Hmin.
      destruct (importTerser host); eexists _, _; split; reflexivity. }
    destruct L0 as (tr0 & tm1 & -> & I0).
    destruct (negb (existsSync fs (resolve host [cwd host; "dist"]))).
    { intros [= <- _ _ _]. unfold imports. cbn [List.filter isImport app].
      rewrite List.filter_app, I0. reflexivity. }
    destruct (findHtmlFiles host fuel fs _ []) as [[htmlFiles|e]|]; [| |discriminate].
    2:{ intros [= <- _ _ _]. unfold imports. cbn [List.filter isImport app].
        rewrite List.filter_app, I0. reflexivity. }
    destruct (processFiles host opts fuel fs tm1 _ htmlFiles) as [[trF fsF]|] eqn:E;
      [|discriminate].
    intros [= <- _ _ _].
    assert (I : List.filter isImport trF = []).
    { apply filter_none.
      apply (ok_processFiles host opts tm1 (fun e => negb (isImport e))) in E; auto.
      intros. apply notImport_minifyContent. }
    unfold imports. cbn [List.filter isImport app].
    rewrite !List.filter_app. cbn [List.filter isImport app].
    rewrite !List.filter_app, I0, I. reflexivity. }
  intros err Himp.
  assert (L : loadTerser host opts None = (failedLoad, None)).
  { unfold loadTerser. now rewrite Hmin, Himp. }
  split; [exact L|]. intros fuel fs.
  unfold closeBundle. rewrite L.
  change (loadTerser host (withoutMinify opts) None) with (@nil event, @None terser).
  cbn [app].
  destruct (negb (existsSync fs (resolve host [cwd host; "dist"]))).
  { eexists _, _. repeat split. }
  destruct (findHtmlFiles host fuel fs _ []) as [[htmlFiles|e]|].
  3:{ reflexivity. }
  2:{ eexists _, _. repeat split. }
  rewrite <- processFiles_unloaded.
  destruct (processFiles host opts fuel fs None _ htmlFiles) as [[tr fs']|] eqn:E;
    [|reflexivity].
  eexists _, _. split; [reflexivity|]. split; [reflexivity|].
  assert (M : List.filter isMinify tr = []).
  { apply filter_none.
    apply (ok_processFiles host opts None (fun e => negb (isMinify e))) in E; auto.
    intros. now rewrite minifyContent_unloaded. }
  unfold minifyCalls. cbn [failedLoad app List.filter isMinify logPrefix].
  cbn. rewrite !List.filter_app, M. cbn. repeat split; reflexivity.
Qed.

(** When terser cannot be imported the run logs two warnings, not one,
    and inlines the script as it is. *)
Lemma load_failure_logs_two_warnings :
  let fs := Example.disk "<script src='a.js' inline></script>"
              [("/proj/dist/a.js", "a();")] in
  exists tr,
    closeBundle Example.host minifying 5 None fs
    = Some (tr, <[Example.page := File (inlineScriptTag "a();")]> fs, None, Normal tt)
    /\ List.filter isWarn tr
       = [Console Warn
            "[js-inline] Terser is not installed but minify=true. Please install terser: npm install terser --save-dev";
          Console Warn "[js-inline] Continuing without minification"]
    /\ length (List.filter isWarn tr) <> 1.
Proof.
  intros fs. eexists. split; [vm_compute; reflexivity|].
  split; [reflexivity|]. cbn. discriminate.
Qed.

Lemma minifier_load_failure_witness :
  let fs := Example.disk "<script src='a.js' inline></script>"
              [("/proj/dist/a.js", "a();")] in
  let fs' := <[Example.page := File (inlineScriptTag "a();")]> fs in
  let hello := Console Info "[js-inline] Looking for HTML files in dist directory..." in
  let tr :=
    [ExistsSync "/proj/dist";
     Console Info "[js-inline] Found 1 HTML files in dist directory";
     Console Info "[js-inline] Processing HTML file: index.html";
     ExistsSync "/proj/dist/a.js";
     Console Info "[js-inline] Inlined JavaScript file: a.js";
     WriteFileSync Example.page (inlineScriptTag "a();");
     Console Info "[js-inline] Updated HTML file with inlined scripts: index.html";
     Console Info "[js-inline] Plugin completed successfully"] in
  closeBundle Example.host (withoutMinify minifying) 5 None fs
  = Some (hello :: tr, fs', None, Normal tt)
  /\ closeBundle Example.host minifying 5 None fs
     = Some (hello :: failedLoad ++ tr, fs', None, Normal tt)
  /\ minifyCalls (hello :: failedLoad ++ tr) = 0.
Proof.
  intros fs fs' hello tr.
  assert (E0 : closeBundle Example.host (withoutMinify minifying) 5 None fs
               = Some (hello :: tr, fs', None, Normal tt))
    by (vm_compute; reflexivity).
  split; [exact E0|].
  destruct (minifier_load_failure Example.host minifying eq_refl) as [_ H].
  destruct (H _ eq_refl) as [_ H2]. specialize (H2 5 fs).
  rewrite E0 in H2. destruct H2 as (hello' & tr' & Heq & E1 & M & _).
  injection Heq as <- <-. split; [exact E1|exact M].
Defined.

(** ** The default pattern on rewritten text *)

Section DefaultPattern.

Import RegExp.

Lemma matchHere_chr c ps a s :
  matchHere (chr c :: ps) (String a s)
  = if Ascii.eqb c a
    then option_map (fun r => consume (chr c) a (close (chr c) r)) (matchHere ps s)
    else None.
Proof. reflexivity. Qed.

Lemma default_head :
  exists ps, defaultScriptTagPattern = chr "<" :: chr "s" :: ps.
Proof. eexists. reflexivity. Qed.

Lemma matchHere_noTagStart a w rest :
  noTagStart (String a w) = true ->
  matchHere defaultScriptTagPattern (String a w +:+ rest) = None.
Proof.
  destruct default_head as [ps ->]. cbn [noTagStart String.append].
  intros [H _]%andb_prop. rewrite matchHere_chr.
  destruct (Ascii.eqb_spec "<" a) as [<-|]; [|reflexivity].
  cbn in H. destruct w as [|b w]; [discriminate|].
  cbn [String.append]. rewrite matchHere_chr.
  rewrite Ascii.eqb_sym. now destruct (Ascii.eqb b "s").
Qed.

(** The search runs over such text without finding anything. *)
Lemma search_noTagStart w rest i :
  noTagStart w = true ->
  search defaultScriptTagPattern (w +:+ rest) i
  = search defaultScriptTagPattern rest (i + String.length w).
Proof.
  revert i; induction w as [|a w IH]; intros i H.
  - cbn. now rewrite Nat.add_0_r.
  - change (String a w +:+ rest) with (String a (w +:+ rest)).
    cbn [search]. change (String a (w +:+ rest)) with (String a w +:+ rest).
    rewrite (matchHere_noTagStart a w rest H).
    cbn [noTagStart] in H. apply andb_prop in H as [_ H].
    rewrite (IH (S i) H). cbn [String.length]. f_equal. lia.
Qed.

Lemma search_noTagStart_end w i :
  noTagStart w = true -> search defaultScriptTagPattern w i = None.
Proof.
  intros H. rewrite <- (append_nil_r w), (search_noTagStart w "" i H).
  destruct default_head as [ps ->]. reflexivity.
Qed.

Lemma noTagStart_drop k w :
  noTagStart w = true -> noTagStart (JsString.drop k w) = true.
Proof.
  revert w; induction k as [|k IH]; intros [|a w] H; cbn [JsString.drop]; auto.
  apply IH. cbn [noTagStart] in H. now apply andb_prop in H as [_ H].
Qed.

Lemma noTagStart_append c w :
  JsString.includes c "<" = false -> noTagStart w = true ->
  noTagStart (c +:+ w) = true.
Proof.
  intros Hc Hw. induction c as [|a c IH]; [exact Hw|].
  apply includes_cons in Hc as [H1 H2].
  change (String a c +:+ w) with (String a (c +:+ w)).
  cbn [noTagStart]. rewrite (IH H2), andb_true_r.
  cbn [JsString.startsWith] in H1. rewrite Ascii.eqb_sym.
  now destruct (Ascii.eqb "<" a).
Qed.

(** No match found in a text means none in what is left of it. *)
Lemma search_None_drop ps s i k j :
  search ps s i = None -> search ps (JsString.drop k s) j = None.
Proof.
  revert s i j; induction k as [|k IH]; intros s i j.
  - replace (JsString.drop 0 s) with s by now destruct s.
    revert i j; induction s as [|a s IHs]; intros i j; cbn [search];
      destruct (matchHere ps _); try discriminate; auto.
    intros H. now apply (IHs (S i)).
  - destruct s as [|a s]; cbn [JsString.drop].
    + cbn [search]. now destruct (matchHere ps "").
    + cbn [search]. destruct (matchHere ps (String a s)); [discriminate|].
      apply IH.
Qed.

Lemma drop_append_le k a b :
  k <= String.length a -> JsString.drop k (a +:+ b) = JsString.drop k a +:+ b.
Proof.
  revert a; induction k as [|k IH]; intros [|c a] H; cbn in *; try lia.
  - now destruct b.
  - reflexivity.
  - apply IH. lia.
Qed.

Lemma drop_append_ge k a b :
  String.length a <= k ->
  JsString.drop k (a +:+ b) = JsString.drop (k - String.length a) b.
Proof.
  revert k; induction a as [|c a IH]; intros k H; cbn in *.
  - now rewrite Nat.sub_0_r.
  - destruct k as [|k]; [lia|]. cbn. apply IH. lia.
Qed.

Lemma drop_all s : JsString.drop (String.length s) s = "".
Proof. induction s; cbn; auto. Qed.

(** The first occurrence of a tag text behind text where no tag starts
    is right behind it. *)
Lemma indexOf_noTagStart w t :
  noTagStart w = true ->
  JsString.startsWith t "<s" = true ->
  JsString.indexOf (w +:+ t) t = Some (String.length w).
Proof.
  intros Hw Ht. induction w as [|a w IH].
  - cbn [String.append String.length]. destruct t as [|c t]; [discriminate|].
    cbn [JsString.indexOf].
    pose proof (startsWith_append (String c t) "") as E.
    rewrite append_nil_r in E. now rewrite E.
  - change (String a w +:+ t) with (String a (w +:+ t)).
    cbn [JsString.indexOf String.length].
    cbn [noTagStart] in Hw. apply andb_prop in Hw as [Ha Hw].
    rewrite (IH Hw). cbn [option_map].
    assert (E : JsString.startsWith (String a (w +:+ t)) t = false).
    { destruct t as [|c t]; [discriminate Ht|].
      cbn [JsString.startsWith] in Ht |- *.
      destruct (Ascii.eqb_spec "<" c) as [<-|]; [|discriminate].
      destruct t as [|d t]; [discriminate Ht|].
      destruct (Ascii.eqb_spec "s" d) as [<-|]; [|discriminate].
      destruct (Ascii.eqb_spec "<" a) as [<-|]; [|reflexivity].
      cbn in Ha. destruct w as [|b w].
      - discriminate.
      - cbn [String.append JsString.startsWith]. rewrite Ascii.eqb_sym.
        now destruct (Ascii.eqb b "s"). }
    now rewrite E.
Qed.

End DefaultPattern.

Section TagShape.

Import RegExp.

Lemma matchHere_plus f g ps a s :
  matchHere (Piece f Plus g :: ps) (String a s)
  = if f a
    then option_map (consume (Piece f Plus g) a)
           (greedy (Piece f Plus g) (matchHere ps) s)
    else None.
Proof. reflexivity. Qed.

(** Whatever the default pattern matches starts with [<script] and a
    white-space character. *)
Lemma matchHere_default_shape s r :
  matchHere defaultScriptTagPattern s = Some r ->
  exists sp s', s = "<script" +:+ String sp s' /\ space sp = true.
Proof.
  unfold defaultScriptTagPattern. cbn [lit app].
  do 7 (destruct s as [|? s]; [discriminate|];
        rewrite matchHere_chr;
        match goal with
        | |- context [Ascii.eqb ?c ?a] =>
            destruct (Ascii.eqb_spec c a) as [<-|]; [|discriminate]
        end;
        destruct (matchHere _ s) eqn:?; [|discriminate];
        match goal with H : matchHere _ s = Some _ |- _ => revert H end;
        intros H _; revert H).
  destruct s as [|sp s]; [discriminate|].
  rewrite matchHere_plus. destruct (space sp) eqn:E; [|discriminate].
  intros _. now exists sp, s.
Qed.

(** The inline element from its second character on holds no tag start
    when the script content holds no [<]. *)
Lemma noTagStart_inline c :
  JsString.includes c "<" = false ->
  exists w, inlineScriptTag c = String "<" w /\ noTagStart w = true.
Proof.
  intros Hc. exists ("script>" +:+ newline +:+ c +:+ "</script>").
  split; [reflexivity|].
  cbn [String.append newline noTagStart Ascii.eqb Bool.eqb negb orb andb].
  now apply noTagStart_append.
Qed.

Lemma length_inlineScriptTag c :
  String.length (inlineScriptTag c) = 18 + String.length c.
Proof.
  unfold inlineScriptTag. rewrite !length_append. cbn. lia.
Qed.

(** A tag is not a prefix of text that starts with an inline element. *)
Lemma startsWith_inline_tag c rest t r :
  matchHere defaultScriptTagPattern t = Some r ->
  JsString.startsWith (inlineScriptTag c +:+ rest) t = false.
Proof.
  intros H. apply matchHere_default_shape in H as (sp & s' & -> & Hsp).
  cbn [inlineScriptTag String.append JsString.startsWith Ascii.eqb Bool.eqb].
  destruct (Ascii.eqb_spec sp ">") as [->|]; [discriminate Hsp|reflexivity].
Qed.

Lemma tag_startsWith t r :
  matchHere defaultScriptTagPattern t = Some r ->
  JsString.startsWith t "<s" = true.
Proof.
  intros H. now apply matchHere_default_shape in H as (sp & s' & -> & Hsp).
Qed.

End TagShape.

(** ** Two identical tags *)

Section TwoTags.

Variable host : Host.
Variable opts : options.
Variable fs : gmap string node.
Variable terserModule : option terser.
Variables distDir htmlFile : string.

(** The tag text, its source, and what the source resolves to. *)
Variables t srcPath jsContent : string.
Variables (trL trM : list event) (p c0 c1 : string).

Hypothesis Hpattern : scriptTagPattern opts = defaultScriptTagPattern.
Hypothesis Htag : RegExp.matchHere defaultScriptTagPattern t = Some (t, Some srcPath).
Hypothesis Heligible : skipped opts t srcPath = false.
Hypothesis Hlocate : locate host opts fs distDir htmlFile srcPath = (trL, (p, true)).
Hypothesis Hread : readFileSync fs p = Normal c0.
Hypothesis Htransform : transformContent opts c0 srcPath = Normal c1.
Hypothesis Hminify :
  minifyContent host opts terserModule srcPath c1 = (trM, jsContent).
Hypothesis Hdollar : JsString.includes jsContent "$" = false.
Hypothesis Hlt : JsString.includes jsContent "<" = false.

(** The tag is matched as it stands when followed by a second copy, and
    no match starts inside it. *)
Hypothesis Hpair :
  RegExp.matchHere defaultScriptTagPattern (t +:+ t) = Some (t, Some srcPath).
Hypothesis Hinner :
  RegExp.search defaultScriptTagPattern (JsString.drop 1 t) 0 = None.

Let inlined : string := inlineScriptTag jsContent.
Let trI : list event :=
  trL ++ trM ++ [Console Info (logPrefix +:+ "Inlined JavaScript file: " +:+ srcPath)].

(** One turn of the loop on a match of the tag: the first occurrence of
    the tag text in the current text is replaced. *)
Lemma step_tag text i j k :
  JsString.indexOf text t = Some k ->
  step host opts fs terserModule distDir htmlFile (FileState text false j)
    (RegExp.Found i t (Some srcPath))
  = (trI, Normal (FileState
                    (JsString.take k text +:+ inlined
                     +:+ JsString.drop (k + String.length t) text) true j))
  /\ forall b,
      step host opts fs terserModule distDir htmlFile (FileState text b j)
        (RegExp.Found i t (Some srcPath))
      = (trI, Normal (FileState
                        (JsString.take k text +:+ inlined
                         +:+ JsString.drop (k + String.length t) text) true j)).
Proof.
  intros Hk.
  assert (G : forall b,
    step host opts fs terserModule distDir htmlFile (FileState text b j)
      (RegExp.Found i t (Some srcPath))
    = (trI, Normal (FileState
                      (JsString.take k text +:+ inlined
                       +:+ JsString.drop (k + String.length t) text) true j))).
  { intros b. unfold step. cbn [RegExp.capture RegExp.fullMatch].
    rewrite Heligible.
    rewrite (tryInline_resolved host opts fs terserModule distDir htmlFile
               (FileState text b j) t srcPath _ _ _ _ _ _
               Hlocate Hread Htransform Hminify).
    cbn [htmlContent lastIndex].
    rewrite (replace_found text t (inlineScriptTag jsContent) k Hk
               (includes_inlineScriptTag jsContent Hdollar)).
    reflexivity. }
  split; [apply G|exact G].
Qed.

Lemma substitutions_trI : substitutions trI = 1.
Proof.
  pose proof (quiet_locate host opts fs distDir htmlFile srcPath) as QL.
  pose proof (quiet_minifyContent host opts terserModule srcPath c1) as QM.
  rewrite Hlocate in QL. rewrite Hminify in QM. cbn [fst] in QL, QM.
  apply quiet_spec in QL as [SL _]. apply quiet_spec in QM as [SM _].
  unfold trI. rewrite !substitutions_app, SL, SM. reflexivity.
Qed.

Lemma tag_nonempty : exists a t', t = String a t'.
Proof.
  destruct (matchHere_default_shape _ _ Htag) as (sp & s' & -> & _).
  eexists _, _. reflexivity.
Qed.

Lemma search_here ps s i r :
  RegExp.matchHere ps s = Some r ->
  RegExp.search ps s i = Some (RegExp.Found i (fst r) (snd r)).
Proof. intros H. destruct s; cbn [RegExp.search]; now rewrite H. Qed.

Lemma exec_at ps text i :
  i <= String.length text ->
  RegExp.exec ps text i
  = match RegExp.search ps (JsString.drop i text) i with
    | Some m => (Some m, RegExp.index m + String.length (RegExp.fullMatch m))
    | None => (None, 0)
    end.
Proof.
  intros H. unfold RegExp.exec.
  destruct (Nat.ltb_spec (String.length text) i); [lia|reflexivity].
Qed.

Lemma indexOf_startsWith x q :
  JsString.startsWith x q = true -> JsString.indexOf x q = Some 0.
Proof. intros H. destruct x; cbn [JsString.indexOf]; now rewrite H. Qed.

(** The whole loop on the text made of the tag twice. *)
Lemma two_tags_scan :
  exists tr,
    scan host opts 3 fs terserModule distDir htmlFile (FileState (t +:+ t) false 0)
    = Some (tr, Normal (FileState
                          (if String.length inlined <? String.length t
                           then inlined +:+ t else inlined +:+ inlined)
                          true 0))
    /\ substitutions tr
       = if String.length inlined <? String.length t then 1 else 2.
Proof.
  destruct tag_nonempty as (a & t' & Et).
  assert (Lt : 1 <= String.length t) by (rewrite Et; cbn; lia).
  assert (E1 : RegExp.exec (scriptTagPattern opts) (t +:+ t) 0
               = (Some (RegExp.Found 0 t (Some srcPath)), String.length t)).
  { rewrite Hpattern, exec_at by lia. cbn [JsString.drop].
    now rewrite (search_here _ _ 0 _ Hpair). }
  assert (I1 : JsString.indexOf (t +:+ t) t = Some 0)
    by apply indexOf_startsWith, startsWith_append.
  destruct (step_tag (t +:+ t) 0 (String.length t) 0 I1) as [S1 _].
  assert (T1 : JsString.take 0 (t +:+ t) +:+ inlined
               +:+ JsString.drop (0 + String.length t) (t +:+ t)
               = inlined +:+ t).
  { cbn [JsString.take Nat.add String.append]. now rewrite drop_append. }
  rewrite T1 in S1.
  rewrite (scan_match host opts 2 fs terserModule distDir htmlFile
           (FileState (t +:+ t) false 0) _ _ E1).
  cbn [htmlContent modified lastIndex]. rewrite S1.
  pose proof substitutions_trI as SI.
  destruct (Nat.ltb_spec (String.length inlined) (String.length t)) as [Hshort|Hlong].
  - assert (E2 : RegExp.exec (scriptTagPattern opts) (inlined +:+ t) (String.length t)
                 = (None, 0)).
    { rewrite Hpattern, exec_at by (rewrite length_append; lia).
      rewrite drop_append_ge by lia.
      replace (String.length t - String.length inlined)
        with (1 + (String.length t - String.length inlined - 1)) by lia.
      rewrite <- drop_drop.
      now rewrite (search_None_drop _ _ 0 _ _ Hinner). }
    rewrite (scan_done host opts 1 fs terserModule distDir htmlFile
               (FileState (inlined +:+ t) true (String.length t)) _ E2).
    cbn [htmlContent modified]. eexists. split; [reflexivity|].
    rewrite substitutions_app, SI. reflexivity.
  - destruct (noTagStart_inline jsContent Hlt) as (w & Ew & Nw).
    assert (N : noTagStart (JsString.drop (String.length t) inlined) = true).
    { unfold inlined. rewrite Ew, Et. cbn [String.length JsString.drop].
      now apply noTagStart_drop. }
    assert (E2 : RegExp.exec (scriptTagPattern opts) (inlined +:+ t) (String.length t)
                 = (Some (RegExp.Found (String.length inlined) t (Some srcPath)),
                    String.length inlined + String.length t)).
    { rewrite Hpattern, exec_at by (rewrite length_append; lia).
      rewrite drop_append_le by lia.
      rewrite (search_noTagStart _ _ _ N), (search_here _ _ _ _ Htag).
      cbn [fst snd RegExp.fullMatch RegExp.index]. rewrite length_drop.
      replace (String.length t + (String.length inlined - String.length t))
        with (String.length inlined) by lia.
      reflexivity. }
    assert (I2 : JsString.indexOf (inlined +:+ t) t = Some (String.length inlined)).
    { pose proof (startsWith_inline_tag jsContent t t _ Htag) as F.
      unfold inlined. rewrite Ew in F |- *.
      change (String "<" w +:+ t) with (String "<" (w +:+ t)) in F |- *.
      cbn [JsString.indexOf]. rewrite F.
      rewrite (indexOf_noTagStart w t Nw (tag_startsWith _ _ Htag)).
      reflexivity. }
    destruct (step_tag (inlined +:+ t) (String.length inlined)
                (String.length inlined + String.length t) (String.length inlined) I2)
      as [_ S2].
    specialize (S2 true).
    assert (T2 : JsString.take (String.length inlined) (inlined +:+ t) +:+ inlined
                 +:+ JsString.drop (String.length inlined + String.length t)
                       (inlined +:+ t)
                 = inlined +:+ inlined).
    { rewrite take_append, drop_append_ge by lia.
      replace (String.length inlined + String.length t - String.length inlined)
        with (String.length t) by lia.
      now rewrite drop_all, append_nil_r. }
    rewrite T2 in S2.
    assert (E3 : RegExp.exec (scriptTagPattern opts) (inlined +:+ inlined)
                   (String.length inlined + String.length t)
                 = (None, 0)).
    { rewrite Hpattern, exec_at by (rewrite length_append; lia).
      rewrite drop_append_ge by lia.
      replace (String.length inlined + String.length t - String.length inlined)
        with (String.length t) by lia.
      now rewrite (search_noTagStart_end _ _ N). }
    rewrite (scan_match host opts 1 fs terserModule distDir htmlFile
               (FileState (inlined +:+ t) true (String.length t)) _ _ E2).
    cbn [htmlContent modified lastIndex]. rewrite S2.
    rewrite (scan_done host opts 0 fs terserModule distDir htmlFile
               (FileState (inlined +:+ inlined) true
                  (String.length inlined + String.length t)) _ E3).
    cbn [htmlContent modified]. eexists. split; [reflexivity|].
    rewrite !substitutions_app, SI. reflexivity.
Qed.

End TwoTags.

(** With a script long enough for the inline element to reach past the
    end of the first tag, one pass substitutes both copies of the tag. *)
Lemma identical_tags_both_substituted :
  let t := "<script src='a.js' inline></script>" in
  let js := "window.application = { ready: true };" in
  let fs := Example.disk (t +:+ t) [("/proj/dist/a.js", js)] in
  exists tr,
    processFile Example.host defaultOptions 4 fs None "/proj/dist" Example.page
    = Some (tr, <[Example.page := File (inlineScriptTag js +:+ inlineScriptTag js)]> fs)
    /\ substitutions tr = 2
    /\ JsString.includes (inlineScriptTag js +:+ inlineScriptTag js) t = false.
Proof.
  cbv zeta. eexists. split; [vm_compute; reflexivity|].
  split; vm_compute; reflexivity.
Qed.

(** ** A second run *)


(** * Further properties of the code *)

(** ** The directory walk *)

Section Walk.

Variable host : Host.
Variable fs : gmap string node.
Variable root : string.

Lemma findHtmlFiles_sound fuel dir fileList res :
  reached host fs root dir ->
  findHtmlFiles host fuel fs dir fileList = Some (Normal res) ->
  exists new, res = fileList ++ new /\ Forall (htmlEntry host fs root) new.
Proof.
  revert dir fileList res. induction fuel as [|fuel IH]; intros dir fileList res Hd;
    cbn [findHtmlFiles]; [discriminate|].
  unfold readdirSync.
  destruct (fs !! dir) as [[c|names]|] eqn:Edir; try discriminate.
  assert (G : forall files, incl files names -> forall fileList,
    (fix each (files : list string) (fileList : list string) :=
       match files with
       | [] => Some (Normal fileList)
       | file :: rest =>
           let filePath := join host dir file in
           match statIsDirectory fs filePath with
           | Throw e => Some (Throw e)
           | Normal true =>
               match findHtmlFiles host fuel fs filePath fileList with
               | Some (Normal fileList') => each rest fileList'
               | other => other
               end
           | Normal false =>
               if JsString.endsWith file ".html"
               then each rest (fileList ++ [filePath])
               else each rest fileList
           end
       end) files fileList = Some (Normal res) ->
    exists new, res = fileList ++ new /\ Forall (htmlEntry host fs root) new).
  { induction files as [|file rest IHf]; intros Hin fl.
    - intros [= <-]. exists []. split; [now rewrite app_nil_r|constructor].
    - assert (Hfile : In file names) by (apply Hin; now left).
      assert (Hrest : incl rest names) by (intros x Hx; apply Hin; now right).
      unfold statIsDirectory.
      destruct (fs !! join host dir file) as [[c|names']|] eqn:El;
        [| |discriminate].
      + destruct (JsString.endsWith file ".html") eqn:Eh; intros H;
          apply (IHf Hrest) in H as (new & -> & F); [|now exists new].
        exists (join host dir file :: new). split; [now rewrite <- app_assoc|].
        constructor; [|exact F].
        exists dir, names, file, c. repeat split; assumption || reflexivity.
      + destruct (findHtmlFiles host fuel fs (join host dir file) fl)
          as [[sub|e]|] eqn:Esub; try discriminate.
        intros H. apply IH in Esub as (new1 & -> & F1);
          [|now apply (reached_entry host fs root dir names file names')].
        apply (IHf Hrest) in H as (new2 & -> & F2).
        exists (new1 ++ new2). split; [now rewrite <- app_assoc|].
        now apply Forall_app. }
  apply G. intros x Hx; exact Hx.
Qed.

End Walk.

Section WalkEdges.

Variable host : Host.
Variable fs : gmap string node.

(** One directory whose entries are all files: the inner loop alone. *)
Lemma findHtmlFiles_files fuel dir names fileList :
  readdirSync fs dir = Normal names ->
  Forall (fun f => exists c, fs !! join host dir f = Some (File c)) names ->
  findHtmlFiles host (S fuel) fs dir fileList
  = Some (Normal
            (fileList
             ++ map (join host dir)
                  (List.filter (fun f => JsString.endsWith f ".html") names))).
Proof.
  intros Hr HF. cbn [findHtmlFiles]. rewrite Hr. clear Hr.
  revert fileList. induction HF as [|file rest [c Hc] _ IH]; intros fileList.
  - cbn. now rewrite app_nil_r.
  - unfold statIsDirectory. rewrite Hc. cbn [List.filter].
    destruct (JsString.endsWith file ".html"); rewrite IH; [|reflexivity].
    cbn [map]. now rewrite <- app_assoc.
Qed.

(** An entry that cannot be stat'ed ends the walk with the exception of
    [fs.statSync], whatever was collected before it. *)
Lemma findHtmlFiles_dangling fuel dir before file after fileList :
  readdirSync fs dir = Normal (before ++ file :: after) ->
  Forall (fun f => exists c, fs !! join host dir f = Some (File c)) before ->
  fs !! join host dir file = None ->
  findHtmlFiles host (S fuel) fs dir fileList
  = Some (Throw "ENOENT: no such file or directory, stat").
Proof.
  intros Hr HF Hnone. cbn [findHtmlFiles]. rewrite Hr. clear Hr.
  revert fileList. induction HF as [|f rest [c Hc] _ IH]; intros fileList.
  - cbn [app]. unfold statIsDirectory. now rewrite Hnone.
  - cbn [app]. unfold statIsDirectory at 1. rewrite Hc.
    destruct (JsString.endsWith f ".html"); apply IH.
Qed.

End WalkEdges.

(** ** What a run does to the tree *)

Lemma sameTree_refl fs : sameTree fs fs.
Proof. intros p. now destruct (fs !! p) as [[c|names]|]. Qed.

Lemma sameTree_trans fs1 fs2 fs3 :
  sameTree fs1 fs2 -> sameTree fs2 fs3 -> sameTree fs1 fs3.
Proof.
  intros H12 H23 p. specialize (H12 p). specialize (H23 p).
  destruct (fs1 !! p) as [[?|?]|], (fs2 !! p) as [[?|?]|],
    (fs3 !! p) as [[?|?]|]; try contradiction; auto. congruence.
Qed.

Lemma sameTree_write fs p c data :
  fs !! p = Some (File c) -> sameTree fs (<[p := File data]> fs).
Proof.
  intros Hp q. destruct (decide (p = q)) as [<-|Hne].
  - now rewrite Hp, lookup_insert_eq.
  - rewrite lookup_insert_ne by exact Hne. now destruct (fs !! q) as [[?|?]|].
Qed.

Section Tree.

Variable host : Host.
Variable opts : options.

(** A file is either left alone or, having been read, written once. *)
Lemma processFile_writes fuel fs terserModule distDir htmlFile tr fs' :
  processFile host opts fuel fs terserModule distDir htmlFile = Some (tr, fs') ->
  (writes tr = [] /\ fs' = fs)
  \/ exists c data,
       fs !! htmlFile = Some (File c)
       /\ writes tr = [WriteFileSync htmlFile data]
       /\ fs' = <[htmlFile := File data]> fs.
Proof.
  unfold processFile, readFileSync.
  destruct (fs !! htmlFile) as [[c|names]|] eqn:El;
    try (intros [= <- <-]; now left).
  destruct (scan host opts fuel fs terserModule distDir htmlFile _)
    as [[tr0 r]|] eqn:E; [|discriminate].
  apply scan_invariant in E as [W _].
  destruct r as [st|e]; [destruct (modified st)|]; intros [= <- <-].
  - right. exists c, (htmlContent st). split; [reflexivity|]. split; [|reflexivity].
    change (?e :: tr0 ++ ?l) with ([e] ++ tr0 ++ l).
    now rewrite !writes_app, W.
  - left. split; [|reflexivity].
    change (?e :: tr0 ++ ?l) with ([e] ++ tr0 ++ l).
    now rewrite !writes_app, W.
  - left. split; [|reflexivity].
    change (?e :: tr0 ++ ?l) with ([e] ++ tr0 ++ l).
    now rewrite !writes_app, W.
Qed.

Lemma processFiles_tree fuel fs terserModule distDir htmlFiles tr fs' :
  processFiles host opts fuel fs terserModule distDir htmlFiles = Some (tr, fs') ->
  sameTree fs fs'
  /\ (forall p, fs' !! p <> fs !! p -> In p htmlFiles)
  /\ Forall (fun e => exists p data, e = WriteFileSync p data /\ In p htmlFiles)
       (writes tr).
Proof.
  revert fs tr fs'. induction htmlFiles as [|f rest IH]; intros fs tr fs';
    cbn [processFiles].
  - intros [= <- <-]. split; [apply sameTree_refl|]. split; [congruence|constructor].
  - destruct (processFile host opts fuel fs terserModule distDir f)
      as [[tr1 fs1]|] eqn:E1; [|discriminate].
    destruct (processFiles host opts fuel fs1 terserModule distDir rest)
      as [[tr2 fs2]|] eqn:E2; [|discriminate].
    intros [= <- <-]. apply IH in E2 as (T2 & C2 & W2).
    assert (W2' : Forall (fun e => exists p data,
                            e = WriteFileSync p data /\ In p (f :: rest))
                    (writes tr2)).
    { eapply Forall_impl; [exact W2|]. intros e (p & d & -> & Hin).
      exists p, d. split; [reflexivity|now right]. }
    rewrite writes_app.
    apply processFile_writes in E1 as [[W1 ->]|(c & data & Hf & W1 & ->)];
      rewrite W1.
    + split; [exact T2|]. split; [|exact W2'].
      intros p Hp. right. now apply C2.
    + split; [eapply sameTree_trans; [eapply sameTree_write, Hf|exact T2]|].
      split.
      * intros p Hp. destruct (decide (f = p)) as [->|Hne]; [now left|].
        right. apply C2. now rewrite lookup_insert_ne.
      * constructor; [|exact W2']. exists f, data. split; [reflexivity|now left].
Qed.

End Tree.

Section HookEdges.

Variable host : Host.
Variable opts : options.

Lemma writes_loadTerser terserModule :
  writes (fst (loadTerser host opts terserModule)) = [].
Proof.
  unfold loadTerser. destruct (minify opts); [|reflexivity].
  now destruct (importTerser host).
Qed.

End HookEdges.

(** X5. The hook never creates, removes or retypes a path: after a run the
    tree has the same paths, the same directories and files in the same
    places. The only contents that change, and the only targets of
    [fs.writeFileSync], are files the walk lists: entries of [dist] or of
    a directory reached from it whose name ends in [.html]. *)
Theorem closeBundle_keeps_tree (host : Host) (opts : options)
    fuel terserModule fs tr fs' terserModule' r :
  closeBundle host opts fuel terserModule fs = Some (tr, fs', terserModule', r) ->
  sameTree fs fs'
  /\ (forall p, fs' !! p <> fs !! p ->
      htmlEntry host fs (resolve host [cwd host; "dist"]) p)
  /\ Forall (fun e => exists p data,
               e = WriteFileSync p data
               /\ htmlEntry host fs (resolve host [cwd host; "dist"]) p)
       (writes tr).
Proof.
  unfold closeBundle.
  pose proof (writes_loadTerser host opts terserModule) as WL.
  destruct (loadTerser host opts terserModule) as [tr0 tm0]. cbn [fst] in WL.
  destruct (negb (existsSync fs (resolve host [cwd host; "dist"]))).
  { intros [= <- <- _ _]. split; [apply sameTree_refl|]. split; [congruence|].
    change (?e :: tr0 ++ ?l) with ([e] ++ tr0 ++ l).
    rewrite !writes_app, WL. constructor. }
  destruct (findHtmlFiles host fuel fs _ []) as [[htmlFiles|e]|] eqn:EW;
    [| |discriminate].
  2:{ intros [= <- <- _ _]. split; [apply sameTree_refl|]. split; [congruence|].
      change (?e :: tr0 ++ ?l) with ([e] ++ tr0 ++ l).
      rewrite !writes_app, WL. constructor. }
  apply (findHtmlFiles_sound host fs (resolve host [cwd host; "dist"])) in EW
    as (new & -> & HF); [|constructor]. cbn [app] in *.
  destruct (processFiles host opts fuel fs tm0 _ new) as [[trF fsF]|] eqn:EF;
    [|discriminate].
  intros [= <- <- _ _]. apply processFiles_tree in EF as (T & C & W).
  rewrite List.Forall_forall in HF.
  split; [exact T|]. split; [intros p Hp; now apply HF, C|].
  change (?e :: tr0 ++ ?l) with ([e] ++ tr0 ++ l).
  rewrite !writes_app, WL. cbn [writes List.filter isWrite app].
  rewrite List.filter_app. cbn [List.filter isWrite]. rewrite app_nil_r.
  fold (writes trF).
  eapply Forall_impl; [exact W|]. intros e (p & d & -> & Hin).
  exists p, d. split; [reflexivity|now apply HF].
Qed.

(** X1. The walk only ever appends: it returns the list it was given followed
    by what it found, and every path it adds is [path.join(d, f)] for an
    entry [f] of [dir] or of a directory reached from [dir], whose name
    ends in [.html] and which is a regular file on disk. Directories,
    other files and paths outside [dir] are never listed. *)
Theorem findHtmlFiles_appends_html_files (host : Host) (fs : gmap string node)
    fuel dir fileList res :
  findHtmlFiles host fuel fs dir fileList = Some (Normal res) ->
  exists new, res = fileList ++ new /\ Forall (htmlEntry host fs dir) new.
Proof. apply findHtmlFiles_sound. constructor. Qed.

Lemma findHtmlFiles_appends_html_files_witness :
  let fs : gmap string node :=
    list_to_map [("/proj/dist", Dir ["index.html"; "app.js"; "sub"]);
                 ("/proj/dist/index.html", File "<p>");
                 ("/proj/dist/app.js", File "a();");
                 ("/proj/dist/sub", Dir ["page.html"]);
                 ("/proj/dist/sub/page.html", File "<q>")] in
  exists new,
    ["/x.html"; "/proj/dist/index.html"; "/proj/dist/sub/page.html"]
    = ["/x.html"] ++ new
    /\ Forall (htmlEntry Example.host fs "/proj/dist") new.
Proof.
  intros fs.
  apply (findHtmlFiles_appends_html_files Example.host fs 3 "/proj/dist"
           ["/x.html"]).
  vm_compute. reflexivity.
Defined.

(** X2. In a directory that holds only files, the walk finds exactly the
    entries whose name ends in [.html], in the order [fs.readdirSync]
    lists them. *)
Theorem findHtmlFiles_flat_directory (host : Host) (fs : gmap string node)
    fuel dir names fileList :
  readdirSync fs dir = Normal names ->
  Forall (fun f => exists c, fs !! join host dir f = Some (File c)) names ->
  findHtmlFiles host (S fuel) fs dir fileList
  = Some (Normal
            (fileList
             ++ map (join host dir)
                  (List.filter (fun f => JsString.endsWith f ".html") names))).
Proof. apply findHtmlFiles_files. Qed.

Lemma findHtmlFiles_flat_directory_witness :
  let fs : gmap string node :=
    list_to_map [("/proj/dist", Dir ["b.html"; "app.js"; "a.html"; "html"]);
                 ("/proj/dist/b.html", File "<b>");
                 ("/proj/dist/app.js", File "a();");
                 ("/proj/dist/a.html", File "<a>");
                 ("/proj/dist/html", File "")] in
  findHtmlFiles Example.host 1 fs "/proj/dist" []
  = Some (Normal ["/proj/dist/b.html"; "/proj/dist/a.html"]).
Proof.
  intros fs.
  rewrite (findHtmlFiles_flat_directory Example.host fs 0 "/proj/dist"
             ["b.html"; "app.js"; "a.html"; "html"] [] eq_refl).
  - vm_compute. reflexivity.
  - repeat constructor; eexists; vm_compute; reflexivity.
Defined.

(** X3. An entry of [dist] that cannot be stat'ed (a dangling link) makes the
    hook throw out of the walk, which no [try] encloses: no file is
    processed or written, not even the HTML files listed before the
    entry. *)
Theorem dangling_entry_rejects_hook (host : Host) (opts : options)
    fuel terserModule fs before file after :
  let distDir := resolve host [cwd host; "dist"] in
  readdirSync fs distDir = Normal (before ++ file :: after) ->
  Forall (fun f => exists c, fs !! join host distDir f = Some (File c)) before ->
  fs !! join host distDir file = None ->
  closeBundle host opts (S fuel) terserModule fs
  = Some (Console Info (logPrefix +:+ "Looking for HTML files in dist directory...")
          :: fst (loadTerser host opts terserModule) ++ [ExistsSync distDir],
          fs, snd (loadTerser host opts terserModule),
          Throw "ENOENT: no such file or directory, stat").
Proof.
  intros distDir Hr HF Hnone. unfold closeBundle. fold distDir.
  destruct (loadTerser host opts terserModule) as [tr0 tm0].
  assert (Hex : existsSync fs distDir = true).
  { unfold existsSync, readdirSync in *. now destruct (fs !! distDir). }
  rewrite Hex. cbn [negb].
  now rewrite (findHtmlFiles_dangling host fs fuel distDir before file after []
                 Hr HF Hnone).
Qed.

Lemma dangling_entry_rejects_hook_witness :
  let fs : gmap string node :=
    list_to_map [("/proj/dist", Dir ["index.html"; "broken"]);
                 ("/proj/dist/index.html", File "<script src='a.js' inline></script>");
                 ("/proj/dist/a.js", File "a();")] in
  closeBundle Example.host defaultOptions 5 None fs
  = Some ([Console Info "[js-inline] Looking for HTML files in dist directory...";
           ExistsSync "/proj/dist"],
          fs, None, Throw "ENOENT: no such file or directory, stat").
Proof.
  intros fs.
  apply (dangling_entry_rejects_hook Example.host defaultOptions 4 None fs
           ["index.html"] "broken" []).
  - vm_compute. reflexivity.
  - repeat constructor. eexists. vm_compute. reflexivity.
  - vm_compute. reflexivity.
Defined.

(** X4. The guard at the head of the hook covers a missing [dist] only. When
    nothing lies at [dist] the hook warns and returns normally, with any
    fuel, after the import of terser if [minify] is on; when a regular
    file lies there the guard passes and [fs.readdirSync] throws out of
    the hook. In both cases the file system is left as it is. *)
Theorem dist_missing_or_not_a_directory (host : Host) (opts : options)
    fuel terserModule fs :
  let distDir := resolve host [cwd host; "dist"] in
  let hello :=
    Console Info (logPrefix +:+ "Looking for HTML files in dist directory...") in
  (fs !! distDir = None ->
   closeBundle host opts fuel terserModule fs
   = Some (hello :: fst (loadTerser host opts terserModule)
           ++ [ExistsSync distDir;
               Console Warn (logPrefix +:+ "Dist directory not found at: " +:+ distDir)],
           fs, snd (loadTerser host opts terserModule), Normal tt))
  /\ (forall c,
        fs !! distDir = Some (File c) ->
        closeBundle host opts (S fuel) terserModule fs
        = Some (hello :: fst (loadTerser host opts terserModule)
                ++ [ExistsSync distDir],
                fs, snd (loadTerser host opts terserModule),
                Throw "ENOTDIR: not a directory, scandir")).
Proof.
  intros distDir hello. split.
  - intros Hn. unfold closeBundle. fold distDir.
    destruct (loadTerser host opts terserModule) as [tr0 tm0].
    unfold existsSync. now rewrite Hn.
  - intros c Hc. unfold closeBundle. fold distDir.
    destruct (loadTerser host opts terserModule) as [tr0 tm0].
    unfold existsSync. rewrite Hc. cbn [negb findHtmlFiles].
    unfold readdirSync. now rewrite Hc.
Qed.

Lemma dist_missing_or_not_a_directory_witness :
  closeBundle Example.host minifying 0 None
    (list_to_map [("/proj/src/a.js", File "a();")])
  = Some ([Console Info "[js-inline] Looking for HTML files in dist directory...";
           Import "terser";
           Console Warn
             "[js-inline] Terser is not installed but minify=true. Please install terser: npm install terser --save-dev";
           Console Warn "[js-inline] Continuing without minification";
           ExistsSync "/proj/dist";
           Console Warn "[js-inline] Dist directory not found at: /proj/dist"],
          list_to_map [("/proj/src/a.js", File "a();")], None, Normal tt)
  /\ closeBundle Example.host defaultOptions 1 None
       (list_to_map [("/proj/dist", File "not a directory")])
     = Some ([Console Info "[js-inline] Looking for HTML files in dist directory...";
              ExistsSync "/proj/dist"],
             list_to_map [("/proj/dist", File "not a directory")], None,
             Throw "ENOTDIR: not a directory, scandir").
Proof.
  split.
  - apply (dist_missing_or_not_a_directory Example.host minifying 0 None
             (list_to_map [("/proj/src/a.js", File "a();")])).
    vm_compute. reflexivity.
  - apply (dist_missing_or_not_a_directory Example.host defaultOptions 0 None
             (list_to_map [("/proj/dist", File "not a directory")]))
      with (c := "not a directory").
    vm_compute. reflexivity.
Defined.

Lemma closeBundle_keeps_tree_witness :
  let fs := Example.disk "<script src='a.js' inline></script>"
              [("/proj/dist/a.js", "a();")] in
  let fs' := <[Example.page := File (inlineScriptTag "a();")]> fs in
  sameTree fs fs'
  /\ (forall p, fs' !! p <> fs !! p -> htmlEntry Example.host fs "/proj/dist" p)
  /\ Forall (fun e => exists p data,
               e = WriteFileSync p data
               /\ htmlEntry Example.host fs "/proj/dist" p)
       [WriteFileSync Example.page (inlineScriptTag "a();")].
Proof.
  intros fs fs'.
  apply (closeBundle_keeps_tree Example.host defaultOptions 5 None fs
           [Console Info "[js-inline] Looking for HTML files in dist directory...";
            ExistsSync "/proj/dist";
            Console Info "[js-inline] Found 1 HTML files in dist directory";
            Console Info "[js-inline] Processing HTML file: index.html";
            ExistsSync "/proj/dist/a.js";
            Console Info "[js-inline] Inlined JavaScript file: a.js";
            WriteFileSync Example.page (inlineScriptTag "a();");
            Console Info "[js-inline] Updated HTML file with inlined scripts: index.html";
            Console Info "[js-inline] Plugin completed successfully"]
           fs' None (Normal tt)).
  vm_compute. reflexivity.
Defined.

(** ** What can escape the hook *)

Section WalkThrows.

Variable host : Host.
Variable fs : gmap string node.

Lemma findHtmlFiles_throws fuel dir fileList e :
  findHtmlFiles host fuel fs dir fileList = Some (Throw e) -> walkError e.
Proof.
  revert dir fileList. induction fuel as [|fuel IH]; intros dir fileList;
    cbn [findHtmlFiles]; [discriminate|].
  unfold readdirSync.
  destruct (fs !! dir) as [[c|names]|];
    [intros [= <-]; right; now left| |intros [= <-]; now left].
  revert fileList. induction names as [|file rest IHf]; intros fileList;
    [discriminate|].
  unfold statIsDirectory.
  destruct (fs !! join host dir file) as [[c|names']|];
    [| |intros [= <-]; right; now right].
  - destruct (JsString.endsWith file ".html"); apply IHf.
  - destruct (findHtmlFiles host fuel fs (join host dir file) fileList)
      as [[sub|e']|] eqn:Esub; [apply IHf| |discriminate].
    intros [= <-]. now apply IH in Esub.
Qed.

End WalkThrows.

(** X15. No failure inside the processing of a file escapes the hook. When
    [closeBundle] ends with an exception, the exception is one of
    [fs.readdirSync] or [fs.statSync] from the directory walk; the run
    then stopped right behind the probe of [dist]: no file was processed
    and the file system is as it was. *)
Theorem only_the_walk_rejects_the_hook (host : Host) (opts : options)
    fuel terserModule fs tr fs' terserModule' e :
  closeBundle host opts fuel terserModule fs
  = Some (tr, fs', terserModule', Throw e) ->
  walkError e
  /\ fs' = fs
  /\ tr = Console Info (logPrefix +:+ "Looking for HTML files in dist directory...")
          :: fst (loadTerser host opts terserModule)
          ++ [ExistsSync (resolve host [cwd host; "dist"])].
Proof.
  unfold closeBundle.
  destruct (loadTerser host opts terserModule) as [tr0 tm0].
  destruct (negb (existsSync fs (resolve host [cwd host; "dist"])));
    [discriminate|].
  destruct (findHtmlFiles host fuel fs _ []) as [[htmlFiles|e']|] eqn:EW;
    [| |discriminate].
  - destruct (processFiles host opts fuel fs tm0 _ htmlFiles) as [[trF fsF]|];
      discriminate.
  - intros [= <- <- _ <-]. apply findHtmlFiles_throws in EW. now repeat split.
Qed.

Lemma only_the_walk_rejects_the_hook_witness :
  let fs : gmap string node :=
    list_to_map [("/proj/dist", Dir ["sub"; "index.html"]);
                 ("/proj/dist/sub", Dir ["gone.html"]);
                 ("/proj/dist/index.html", File "<script src='a.js' inline></script>");
                 ("/proj/dist/a.js", File "a();")] in
  walkError "ENOENT: no such file or directory, stat"
  /\ fs = fs
  /\ [Console Info "[js-inline] Looking for HTML files in dist directory...";
      ExistsSync "/proj/dist"]
     = Console Info (logPrefix +:+ "Looking for HTML files in dist directory...")
       :: fst (loadTerser Example.host defaultOptions None)
       ++ [ExistsSync (resolve Example.host [cwd Example.host; "dist"])].
Proof.
  intros fs.
  apply (only_the_walk_rejects_the_hook Example.host defaultOptions 5 None fs
           [Console Info "[js-inline] Looking for HTML files in dist directory...";
            ExistsSync "/proj/dist"]
           fs None "ENOENT: no such file or directory, stat").
  vm_compute. reflexivity.
Defined.

(** ** Failures inside the loop *)

(** X6. A reference whose file is found but cannot be read (the path is a
    directory), or whose content the user transform throws on, is caught
    by the inner [try]: one error line is logged, [htmlContent] and
    [modified] stay as they were, and the loop goes on with the remaining
    references. *)
Theorem failing_reference_is_isolated (host : Host) (opts : options)
    fuel fs terserModule distDir htmlFile st m srcPath i trL p error :
  RegExp.exec (scriptTagPattern opts) (htmlContent st) (lastIndex st) = (Some m, i) ->
  RegExp.capture m = Some srcPath ->
  skipped opts (RegExp.fullMatch m) srcPath = false ->
  locate host opts fs distDir htmlFile srcPath = (trL, (p, true)) ->
  (readFileSync fs p = Throw error
   \/ exists c0, readFileSync fs p = Normal c0
                 /\ transformContent opts c0 srcPath = Throw error) ->
  let st' := FileState (htmlContent st) (modified st) i in
  let report :=
    trL ++ [Console Error (logPrefix +:+ "Error inlining JavaScript file "
                           +:+ srcPath +:+ ": " +:+ error)] in
  step host opts fs terserModule distDir htmlFile st' m = (report, Normal st')
  /\ scan host opts (S fuel) fs terserModule distDir htmlFile st
     = match scan host opts fuel fs terserModule distDir htmlFile st' with
       | Some (tr, r) => Some (report ++ tr, r)
       | None => None
       end.
Proof.
  intros He Hc Hs HL Hfail st' report.
  assert (E : step host opts fs terserModule distDir htmlFile st' m
              = (report, Normal st')).
  { unfold step, tryInline. rewrite Hc, Hs, HL.
    destruct Hfail as [HR|(c0 & HR & HT)]; rewrite HR; [reflexivity|].
    now rewrite HT. }
  split; [exact E|].
  rewrite (scan_match host opts fuel fs terserModule distDir htmlFile st m i He).
  fold st'. now rewrite E.
Qed.

Lemma failing_reference_is_isolated_witness :
  let html := "<script src='./lib' inline></script><script src='a.js' inline></script>" in
  let fs := <["/proj/dist/lib" := Dir []]>
              (Example.disk html [("/proj/dist/a.js", "a();")]) in
  scan Example.host defaultOptions 3 fs None "/proj/dist" Example.page
    (FileState html false 0)
  = Some ([ExistsSync "/proj/dist/lib";
           Console Error
             "[js-inline] Error inlining JavaScript file ./lib: EISDIR: illegal operation on a directory, read";
           ExistsSync "/proj/dist/a.js";
           Console Info "[js-inline] Inlined JavaScript file: a.js"],
          Normal (FileState
                    ("<script src='./lib' inline></script>"
                     +:+ inlineScriptTag "a();") true 0)).
Proof.
  intros html fs.
  destruct (failing_reference_is_isolated Example.host defaultOptions 2 fs None
              "/proj/dist" Example.page (FileState html false 0)
              (RegExp.Found 0 "<script src='./lib' inline></script>" (Some "./lib"))
              "./lib" 36 [ExistsSync "/proj/dist/lib"] "/proj/dist/lib"
              "EISDIR: illegal operation on a directory, read"
              eq_refl eq_refl eq_refl) as [_ H].
  - vm_compute. reflexivity.
  - left. vm_compute. reflexivity.
  - rewrite H. vm_compute. reflexivity.
Defined.

Section NoGroup.

Variable host : Host.
Variable opts : options.
Hypothesis Hnogroup : hasGroup (scriptTagPattern opts) = false.

(** Without the capturing group the first match throws, before any
    event. *)
Lemma scan_no_group fuel fs terserModule distDir htmlFile st tr r :
  scan host opts fuel fs terserModule distDir htmlFile st = Some (tr, r) ->
  tr = []
  /\ match r with
     | Normal st' => modified st' = modified st
     | Throw _ => True
     end.
Proof.
  destruct fuel as [|fuel]; cbn [scan]; [discriminate|].
  destruct (RegExp.exec _ _ _) as [[m|] i] eqn:E; [|now intros [= <- <-]].
  apply exec_bounds in E as (A & _). rewrite Hnogroup in A.
  unfold step. destruct (RegExp.capture m); [discriminate A|].
  now intros [= <- <-].
Qed.

Lemma processFile_no_group fuel fs terserModule distDir htmlFile tr fs' :
  processFile host opts fuel fs terserModule distDir htmlFile = Some (tr, fs') ->
  fs' = fs /\ writes tr = [] /\ substitutions tr = 0.
Proof.
  unfold processFile.
  destruct (readFileSync fs htmlFile) as [content|e];
    [|intros [= <- <-]; now repeat split].
  destruct (scan host opts fuel fs terserModule distDir htmlFile _)
    as [[tr0 r]|] eqn:E; [|discriminate].
  apply scan_no_group in E as [-> M].
  destruct r as [st|e]; [cbn [modified] in M; rewrite M|];
    intros [= <- <-]; now repeat split.
Qed.

Lemma processFiles_no_group fuel fs terserModule distDir htmlFiles tr fs' :
  processFiles host opts fuel fs terserModule distDir htmlFiles = Some (tr, fs') ->
  fs' = fs /\ writes tr = [] /\ substitutions tr = 0.
Proof.
  revert tr fs'. induction htmlFiles as [|f rest IH]; intros tr fs';
    cbn [processFiles]; [intros [= <- <-]; now repeat split|].
  destruct (processFile host opts fuel fs terserModule distDir f)
    as [[tr1 fs1]|] eqn:E1; [|discriminate].
  apply processFile_no_group in E1 as (-> & W1 & S1).
  destruct (processFiles host opts fuel fs terserModule distDir rest)
    as [[tr2 fs2]|] eqn:E2; [|discriminate].
  destruct (IH _ _ eq_refl) as (-> & W2 & S2).
  intros [= <- <-]. now rewrite writes_app, substitutions_app, W1, W2, S1, S2.
Qed.

End NoGroup.

(** X7. With a custom pattern that has no capturing group, [srcPath] is
    undefined and [srcPath.startsWith] throws outside the inner [try]: the
    first match of every file ends that file with an error. Such a run
    substitutes nothing and writes nothing. *)
Theorem pattern_without_group_never_writes (host : Host) (opts : options)
    fuel terserModule fs tr fs' terserModule' r :
  hasGroup (scriptTagPattern opts) = false ->
  closeBundle host opts fuel terserModule fs = Some (tr, fs', terserModule', r) ->
  fs' = fs /\ writes tr = [] /\ substitutions tr = 0.
Proof.
  intros HG. unfold closeBundle.
  pose proof (writes_loadTerser host opts terserModule) as WL.
  assert (SL : substitutions (fst (loadTerser host opts terserModule)) = 0).
  { unfold loadTerser. destruct (minify opts); [|reflexivity].
    now destruct (importTerser host). }
  destruct (loadTerser host opts terserModule) as [tr0 tm0]. cbn [fst] in WL, SL.
  assert (Hhead : forall e tl, isInlined e = false -> isWrite e = false ->
            writes tl = [] -> substitutions tl = 0 ->
            writes (e :: tr0 ++ tl) = [] /\ substitutions (e :: tr0 ++ tl) = 0).
  { intros e tl He Hw Wt St.
    change (e :: tr0 ++ tl) with ([e] ++ tr0 ++ tl).
    rewrite !writes_app, !substitutions_app, WL, SL, Wt, St.
    unfold writes, substitutions. cbn. now rewrite He, Hw. }
  destruct (negb (existsSync fs (resolve host [cwd host; "dist"]))).
  { intros [= <- <- _ _]. split; [reflexivity|]. now apply Hhead. }
  destruct (findHtmlFiles host fuel fs _ []) as [[htmlFiles|e]|];
    [| |discriminate].
  2:{ intros [= <- <- _ _]. split; [reflexivity|]. now apply Hhead. }
  destruct (processFiles host opts fuel fs tm0 _ htmlFiles) as [[trF fsF]|] eqn:EF;
    [|discriminate].
  apply (processFiles_no_group host opts HG) in EF as (-> & WF & SF).
  intros [= <- <- _ _]. split; [reflexivity|]. apply Hhead; try reflexivity.
  - change (?a :: ?b :: trF ++ ?l) with ([a; b] ++ trF ++ l).
    now rewrite !writes_app, WF.
  - change (?a :: ?b :: trF ++ ?l) with ([a; b] ++ trF ++ l).
    now rewrite !substitutions_app, SF.
Qed.

Lemma pattern_without_group_never_writes_witness :
  let html := "<script src='a.js' inline></script>" in
  let fs := Example.disk html [("/proj/dist/a.js", "a();")] in
  let opts := {| minify := false;
                 scriptTagPattern := RegExp.lit "<script ";
                 transformContent := fun content _ => Normal content;
                 sourceDirs := [];
                 inlineAll := true |} in
  let tr :=
    [Console Info "[js-inline] Looking for HTML files in dist directory...";
     ExistsSync "/proj/dist";
     Console Info "[js-inline] Found 1 HTML files in dist directory";
     Console Info "[js-inline] Processing HTML file: index.html";
     Console Error
       "[js-inline] Error processing HTML file /proj/dist/index.html: TypeError: Cannot read properties of undefined";
     Console Info "[js-inline] Plugin completed successfully"] in
  closeBundle Example.host opts 5 None fs = Some (tr, fs, None, Normal tt)
  /\ fs = fs /\ writes tr = [] /\ substitutions tr = 0.
Proof.
  intros html fs opts tr.
  assert (E : closeBundle Example.host opts 5 None fs = Some (tr, fs, None, Normal tt))
    by (vm_compute; reflexivity).
  split; [exact E|].
  exact (pattern_without_group_never_writes Example.host opts 5 None fs tr fs
           None (Normal tt) eq_refl E).
Defined.

(** ** Calls to the minifier *)

Section MinifyCalls.

Variable host : Host.
Variable opts : options.
Variable terserModule : option terser.

(** Minification takes place when [minify] is on and a module is loaded. *)
Let active : bool := minify opts && isSome terserModule.

Lemma minifyContent_calls srcPath jsContent :
  minifyCalls (fst (minifyContent host opts terserModule srcPath jsContent))
  = if active then 1 else 0.
Proof.
  unfold minifyContent, active.
  destruct (minify opts), terserModule as [t|]; try reflexivity.
  cbn [andb isSome]. now destruct (t jsContent) as [[code|e]|e].
Qed.

Lemma minifyCalls_app tr tr' :
  minifyCalls (tr ++ tr') = minifyCalls tr + minifyCalls tr'.
Proof. unfold minifyCalls. now rewrite List.filter_app, length_app. Qed.

Lemma minifyCalls_locate fs distDir htmlFile srcPath :
  minifyCalls (fst (locate host opts fs distDir htmlFile srcPath)) = 0.
Proof.
  pose proof (locate_firstExisting host opts fs distDir htmlFile srcPath) as L.
  destruct (firstExisting fs _) as [tried r]. destruct L as [-> _].
  unfold minifyCalls. now induction tried.
Qed.

Lemma minifyCalls_notFoundWarnings distDir htmlFile srcPath :
  minifyCalls (notFoundWarnings host opts distDir htmlFile srcPath) = 0.
Proof.
  unfold minifyCalls. rewrite filter_none; [reflexivity|].
  apply (ok_notFoundWarnings host opts (fun e => negb (isMinify e))).
  reflexivity.
Qed.

Lemma step_calls fs distDir htmlFile st m tr r :
  step host opts fs terserModule distDir htmlFile st m = (tr, r) ->
  minifyCalls tr = if active then substitutions tr else 0.
Proof.
  assert (Z : forall tr', minifyCalls tr' = 0 -> substitutions tr' = 0 ->
            minifyCalls tr' = if active then substitutions tr' else 0).
  { intros tr' -> ->. now destruct active. }
  unfold step. destruct (RegExp.capture m) as [srcPath|];
    [|intros [= <- <-]; now apply Z].
  destruct (skipped opts (RegExp.fullMatch m) srcPath);
    [intros [= <- <-]; now apply Z|].
  unfold tryInline.
  pose proof (minifyCalls_locate fs distDir htmlFile srcPath) as ML.
  pose proof (quiet_locate host opts fs distDir htmlFile srcPath) as QL.
  destruct (locate host opts fs distDir htmlFile srcPath) as [trL [p b]].
  cbn [fst] in ML, QL. apply quiet_spec in QL as [SL _].
  assert (Hfail : forall e r',
    (trL ++ [Console Error (logPrefix +:+ "Error inlining JavaScript file "
                            +:+ srcPath +:+ ": " +:+ e)], r') = (tr, r) ->
    minifyCalls tr = if active then substitutions tr else 0).
  { intros e r' [= <- <-]. apply Z.
    - now rewrite minifyCalls_app, ML.
    - now rewrite substitutions_app, SL. }
  destruct b.
  - destruct (readFileSync fs p) as [c0|e]; [|apply Hfail].
    destruct (transformContent opts c0 srcPath) as [c1|e]; [|apply Hfail].
    pose proof (minifyContent_calls srcPath c1) as MM.
    pose proof (quiet_minifyContent host opts terserModule srcPath c1) as QM.
    destruct (minifyContent host opts terserModule srcPath c1) as [trM c].
    cbn [fst] in MM, QM. apply quiet_spec in QM as [SM _].
    intros [= <- <-].
    rewrite !minifyCalls_app, !substitutions_app, ML, MM, SL, SM.
    now destruct active.
  - intros [= <- <-]. apply Z.
    + now rewrite minifyCalls_app, ML, minifyCalls_notFoundWarnings.
    + pose proof (quiet_notFoundWarnings host opts distDir htmlFile srcPath) as QN.
      apply quiet_spec in QN as [SN _]. now rewrite substitutions_app, SL, SN.
Qed.

Lemma scan_calls fuel fs distDir htmlFile st tr r :
  scan host opts fuel fs terserModule distDir htmlFile st = Some (tr, r) ->
  minifyCalls tr = if active then substitutions tr else 0.
Proof.
  revert st tr r. induction fuel as [|fuel IH]; intros st tr r; cbn [scan];
    [discriminate|].
  destruct (RegExp.exec _ _ _) as [[m|] i];
    [|intros [= <- <-]; now destruct active].
  destruct (step host opts fs terserModule distDir htmlFile _ m) as [tr1 r1] eqn:S1.
  apply step_calls in S1. destruct r1 as [st1|e]; [|now intros [= <- <-]].
  destruct (scan host opts fuel fs terserModule distDir htmlFile st1)
    as [[tr2 r2]|] eqn:E2; [|discriminate].
  apply IH in E2. intros [= <- <-].
  rewrite minifyCalls_app, substitutions_app, S1, E2. now destruct active.
Qed.

Lemma processFiles_calls fuel fs distDir htmlFiles tr fs' :
  processFiles host opts fuel fs terserModule distDir htmlFiles = Some (tr, fs') ->
  minifyCalls tr = if active then substitutions tr else 0.
Proof.
  revert fs tr fs'. induction htmlFiles as [|f rest IH]; intros fs tr fs';
    cbn [processFiles]; [intros [= <- <-]; now destruct active|].
  destruct (processFile host opts fuel fs terserModule distDir f)
    as [[tr1 fs1]|] eqn:E1; [|discriminate].
  destruct (processFiles host opts fuel fs1 terserModule distDir rest)
    as [[tr2 fs2]|] eqn:E2; [|discriminate].
  apply IH in E2. intros [= <- <-].
  rewrite minifyCalls_app, substitutions_app, E2.
  assert (H1 : minifyCalls tr1 = if active then substitutions tr1 else 0).
  { clear E2. unfold processFile in E1.
    destruct (readFileSync fs f) as [content|e];
      [|injection E1 as <- <-; now destruct active].
    destruct (scan host opts fuel fs terserModule distDir f _)
      as [[tr0 r]|] eqn:E; [|discriminate].
    apply scan_calls in E.
    destruct r as [st|e]; [destruct (modified st)|]; injection E1 as <- <-;
      change (?e :: tr0 ++ ?l) with ([e] ++ tr0 ++ l);
      rewrite !minifyCalls_app, !substitutions_app, E; now destruct active. }
  rewrite H1. now destruct active.
Qed.

End MinifyCalls.

(** X8. Terser's [minify] is called exactly once for every substitution when
    [minify] is on and the module is loaded, and never otherwise: skipped,
    unresolved and failing references cause no call. *)
Theorem one_minify_call_per_substitution (host : Host) (opts : options)
    fuel terserModule fs tr fs' terserModule' r :
  closeBundle host opts fuel terserModule fs = Some (tr, fs', terserModule', r) ->
  minifyCalls tr
  = if minify opts && isSome terserModule' then substitutions tr else 0.
Proof.
  unfold closeBundle.
  assert (L : minifyCalls (fst (loadTerser host opts terserModule)) = 0
              /\ substitutions (fst (loadTerser host opts terserModule)) = 0).
  { unfold loadTerser. destruct (minify opts); [|now split].
    now destruct (importTerser host). }
  destruct (loadTerser host opts terserModule) as [tr0 tm0].
  cbn [fst] in L. destruct L as [ML SL].
  assert (Hhead : forall e tl (b : bool), isInlined e = false -> isMinify e = false ->
            minifyCalls tl = (if b then substitutions tl else 0) ->
            minifyCalls (e :: tr0 ++ tl)
            = if b then substitutions (e :: tr0 ++ tl) else 0).
  { intros e tl b He Hm Ht.
    change (e :: tr0 ++ tl) with ([e] ++ tr0 ++ tl).
    rewrite !minifyCalls_app, !substitutions_app, ML, SL, Ht.
    unfold minifyCalls, substitutions. cbn. rewrite He, Hm. now destruct b. }
  destruct (negb (existsSync fs (resolve host [cwd host; "dist"]))).
  { intros [= <- _ <- _]. apply Hhead; try reflexivity. now destruct (minify opts && isSome tm0). }
  destruct (findHtmlFiles host fuel fs _ []) as [[htmlFiles|e]|];
    [| |discriminate].
  2:{ intros [= <- _ <- _]. apply Hhead; try reflexivity. now destruct (minify opts && isSome tm0). }
  destruct (processFiles host opts fuel fs tm0 _ htmlFiles) as [[trF fsF]|] eqn:EF;
    [|discriminate].
  apply processFiles_calls in EF. intros [= <- _ <- _].
  apply Hhead; try reflexivity.
  change (?a :: ?b :: trF ++ ?l) with ([a; b] ++ trF ++ l).
  rewrite !minifyCalls_app, !substitutions_app, EF. now destruct (minify opts && isSome tm0).
Qed.

Lemma one_minify_call_per_substitution_witness :
  let html := "<script src='a.js' inline></script><script src='b.js'></script>" in
  let js := "function a() { return 1; }" in
  let fs := Example.disk html [("/proj/dist/a.js", js); ("/proj/dist/b.js", "b();")] in
  let out := inlineScriptTag ("/*min*/" +:+ js) +:+ "<script src='b.js'></script>" in
  let tr :=
    [Console Info "[js-inline] Looking for HTML files in dist directory...";
     Import "terser";
     Console Info "[js-inline] Minification is enabled and terser is available";
     ExistsSync "/proj/dist";
     Console Info "[js-inline] Found 1 HTML files in dist directory";
     Console Info "[js-inline] Processing HTML file: index.html";
     ExistsSync "/proj/dist/a.js";
     Console Info "[js-inline] Minifying a.js...";
     Minify js;
     Console Info ("[js-inline] Minified a.js: 26 " +:+ arrow
                   +:+ " 33 bytes (-26.9% savings)");
     Console Info "[js-inline] Inlined JavaScript file: a.js";
     WriteFileSync Example.page out;
     Console Info "[js-inline] Updated HTML file with inlined scripts: index.html";
     Console Info "[js-inline] Plugin completed successfully"] in
  closeBundle (posixHost "/proj" (Normal markingTerser)) minifying 5 None fs
  = Some (tr, <[Example.page := File out]> fs, Some markingTerser, Normal tt)
  /\ minifyCalls tr = substitutions tr.
Proof.
  intros html js fs out tr.
  assert (E : closeBundle (posixHost "/proj" (Normal markingTerser)) minifying 5
                None fs
              = Some (tr, <[Example.page := File out]> fs, Some markingTerser,
                      Normal tt))
    by (vm_compute; reflexivity).
  split; [exact E|].
  exact (one_minify_call_per_substitution _ _ _ _ _ _ _ _ _ E).
Defined.

(** ** A minifier that fails *)

Section FailingMinifier.

Variable host : Host.
Variable opts : options.
Variable t : terser.

(** [t] never returns code: it throws or reports an error. *)
Hypothesis Hfails : forall code, neverCode (t code) = true.

Lemma minifyContent_failing srcPath jsContent :
  snd (minifyContent host opts (Some t) srcPath jsContent) = jsContent.
Proof.
  unfold minifyContent. destruct (minify opts); [|reflexivity].
  specialize (Hfails jsContent).
  now destruct (t jsContent) as [[code|e]|e].
Qed.

Lemma step_failing fs distDir htmlFile st m :
  snd (step host opts fs (Some t) distDir htmlFile st m)
  = snd (step host (withoutMinify opts) fs None distDir htmlFile st m).
Proof.
  unfold step, tryInline.
  change (locate host (withoutMinify opts)) with (locate host opts).
  change (skipped (withoutMinify opts)) with (skipped opts).
  change (transformContent (withoutMinify opts)) with (transformContent opts).
  destruct (RegExp.capture m) as [srcPath|]; [|reflexivity].
  destruct (skipped opts _ srcPath); [reflexivity|].
  destruct (locate host opts fs distDir htmlFile srcPath) as [trL [p []]];
    [|reflexivity].
  destruct (readFileSync fs p) as [c0|]; [|reflexivity].
  destruct (transformContent opts c0 srcPath) as [c1|]; [|reflexivity].
  pose proof (minifyContent_failing srcPath c1) as M.
  destruct (minifyContent host opts (Some t) srcPath c1) as [trM c].
  cbn [snd] in M. subst c.
  rewrite (minifyContent_unloaded host (withoutMinify opts)). reflexivity.
Qed.

Lemma scan_failing fuel fs distDir htmlFile st :
  option_map snd (scan host opts fuel fs (Some t) distDir htmlFile st)
  = option_map snd (scan host (withoutMinify opts) fuel fs None distDir htmlFile st).
Proof.
  revert st; induction fuel as [|fuel IH]; intros st; [reflexivity|].
  cbn [scan]. change (scriptTagPattern (withoutMinify opts))
    with (scriptTagPattern opts).
  destruct (RegExp.exec _ _ _) as [[m|] i]; [|reflexivity].
  pose proof (step_failing fs distDir htmlFile
                (FileState (htmlContent st) (modified st) i) m) as S1.
  destruct (step host opts fs (Some t) distDir htmlFile _ m) as [tr1 r1].
  destruct (step host (withoutMinify opts) fs None distDir htmlFile _ m)
    as [tr2 r2].
  cbn [snd] in S1. subst r2. destruct r1 as [st'|e]; [|reflexivity].
  specialize (IH st').
  destruct (scan host opts fuel fs (Some t) distDir htmlFile st') as [[? ?]|],
    (scan host (withoutMinify opts) fuel fs None distDir htmlFile st') as [[? ?]|];
    cbn in *; congruence.
Qed.

(** What is kept of a file or a run when the log lines do not matter: the
    writes and the file system. *)
Lemma processFile_failing fuel fs distDir htmlFile :
  option_map (fun x => (writes (fst x), snd x))
    (processFile host opts fuel fs (Some t) distDir htmlFile)
  = option_map (fun x => (writes (fst x), snd x))
      (processFile host (withoutMinify opts) fuel fs None distDir htmlFile).
Proof.
  unfold processFile. destruct (readFileSync fs htmlFile) as [content|e];
    [|reflexivity].
  pose proof (scan_failing fuel fs distDir htmlFile (FileState content false 0)) as S.
  destruct (scan host opts fuel fs (Some t) distDir htmlFile _)
    as [[tr1 r1]|] eqn:E1,
    (scan host (withoutMinify opts) fuel fs None distDir htmlFile _)
    as [[tr2 r2]|] eqn:E2; cbn in S; try discriminate; [|reflexivity].
  injection S as <-.
  apply scan_invariant in E1 as [W1 _]. apply scan_invariant in E2 as [W2 _].
  destruct r1 as [st|e]; [destruct (modified st)|]; cbn [option_map fst snd];
    do 2 f_equal;
    change (?e :: tr1 ++ ?l) with ([e] ++ tr1 ++ l);
    change (?e :: tr2 ++ ?l) with ([e] ++ tr2 ++ l);
    now rewrite !writes_app, W1, W2.
Qed.

Lemma processFiles_failing fuel fs distDir htmlFiles :
  option_map (fun x => (writes (fst x), snd x))
    (processFiles host opts fuel fs (Some t) distDir htmlFiles)
  = option_map (fun x => (writes (fst x), snd x))
      (processFiles host (withoutMinify opts) fuel fs None distDir htmlFiles).
Proof.
  revert fs; induction htmlFiles as [|f rest IH]; intros fs; [reflexivity|].
  cbn [processFiles].
  pose proof (processFile_failing fuel fs distDir f) as P.
  destruct (processFile host opts fuel fs (Some t) distDir f) as [[tr1 fs1]|],
    (processFile host (withoutMinify opts) fuel fs None distDir f) as [[tr2 fs2]|];
    cbn [option_map fst snd] in P; try discriminate; [|reflexivity].
  injection P as W ->. specialize (IH fs2).
  destruct (processFiles host opts fuel fs2 (Some t) distDir rest) as [[tr3 fs3]|],
    (processFiles host (withoutMinify opts) fuel fs2 None distDir rest)
    as [[tr4 fs4]|]; cbn [option_map fst snd] in IH |- *; try discriminate;
    [|reflexivity].
  injection IH as W' ->. now rewrite !writes_app, W, W'.
Qed.

End FailingMinifier.

(** X9. When terser loads but its [minify] fails on every script, by throwing
    or by reporting an error, the run writes the same files with the same
    content as the run with [minify] off: each script falls back to its
    transformed, unminified content. *)
Theorem failing_minifier_changes_no_output (host : Host) (opts : options)
    (t : terser) fuel fs :
  minify opts = true ->
  importTerser host = Normal t ->
  (forall code, neverCode (t code) = true) ->
  option_map output (closeBundle host opts fuel None fs)
  = option_map output (closeBundle host (withoutMinify opts) fuel None fs).
Proof.
  intros Hmin Himp Hfails. unfold closeBundle, loadTerser.
  rewrite Hmin, Himp. cbn [minify withoutMinify].
  destruct (negb (existsSync fs (resolve host [cwd host; "dist"])));
    [reflexivity|].
  destruct (findHtmlFiles host fuel fs _ []) as [[htmlFiles|e]|];
    [|reflexivity|reflexivity].
  pose proof (processFiles_failing host opts t Hfails fuel fs
                (resolve host [cwd host; "dist"]) htmlFiles) as P.
  destruct (processFiles host opts fuel fs (Some t) _ htmlFiles) as [[tr1 fs1]|],
    (processFiles host (withoutMinify opts) fuel fs None _ htmlFiles)
    as [[tr2 fs2]|]; cbn [option_map fst snd] in P; try discriminate;
    [|reflexivity].
  injection P as W ->. cbn [option_map output app]. do 3 f_equal.
  change (?a :: ?b :: ?c :: ?d :: ?e :: tr1 ++ ?l)
    with ([a; b; c; d; e] ++ tr1 ++ l).
  change (?a :: ?b :: ?c :: tr2 ++ ?l) with ([a; b; c] ++ tr2 ++ l).
  now rewrite !writes_app, W.
Qed.

Lemma failing_minifier_changes_no_output_witness :
  let html := "<script src='a.js' inline></script>" in
  let fs := Example.disk html [("/proj/dist/a.js", "a();")] in
  option_map output
    (closeBundle (posixHost "/proj" (Normal brokenTerser)) minifying 5 None fs)
  = Some ([WriteFileSync Example.page (inlineScriptTag "a();")],
          <[Example.page := File (inlineScriptTag "a();")]> fs, Normal tt).
Proof.
  intros html fs.
  rewrite (failing_minifier_changes_no_output
             (posixHost "/proj" (Normal brokenTerser)) minifying brokenTerser 5 fs
             eq_refl eq_refl (fun _ => eq_refl)).
  vm_compute. reflexivity.
Defined.

(** ** A run with minification off *)

(** X10. With [minify] off, as the project's [vite.config.js] sets it, a run
    never imports terser, never calls its [minify] and leaves the module
    variable of the plugin instance as it was. *)
Theorem minify_off_never_touches_terser (host : Host) (opts : options)
    fuel terserModule fs tr fs' terserModule' r :
  minify opts = false ->
  closeBundle host opts fuel terserModule fs = Some (tr, fs', terserModule', r) ->
  imports tr = 0 /\ minifyCalls tr = 0 /\ terserModule' = terserModule.
Proof.
  intros Hoff. unfold closeBundle, loadTerser. rewrite Hoff.
  set (ok := fun e => negb (isImport e) && negb (isMinify e)).
  assert (Hok : forall tr0, forallb ok tr0 = true ->
            imports tr0 = 0 /\ minifyCalls tr0 = 0).
  { intros tr0 H. unfold imports, minifyCalls.
    rewrite !filter_none; [now split| |];
      (eapply forallb_forall; intros e He;
       eapply forallb_forall in H; [|exact He];
       unfold ok in H; now destruct (isImport e), (isMinify e)). }
  destruct (negb (existsSync fs (resolve host [cwd host; "dist"]))).
  { intros [= <- _ <- _]. split; [|split]; reflexivity. }
  destruct (findHtmlFiles host fuel fs _ []) as [[htmlFiles|e]|];
    [| |discriminate].
  2:{ intros [= <- _ <- _]. split; [|split]; reflexivity. }
  destruct (processFiles host opts fuel fs terserModule _ htmlFiles)
    as [[trF fsF]|] eqn:EF; [|discriminate].
  apply (ok_processFiles host opts terserModule ok) in EF; try reflexivity.
  2:{ intros srcPath jsContent. unfold minifyContent. now rewrite Hoff. }
  intros [= <- _ <- _].
  destruct (Hok _ EF) as [I M]. unfold imports, minifyCalls in *.
  cbn [app List.filter isImport isMinify]. rewrite !List.filter_app.
  cbn [List.filter isImport isMinify]. rewrite !app_nil_r.
  split; [exact I|]. split; [exact M|reflexivity].
Qed.

Lemma minify_off_never_touches_terser_witness :
  let html := "<script src='a.js' inline></script>" in
  let fs := Example.disk html [("/proj/dist/a.js", "a();")] in
  let tr :=
    [Console Info "[js-inline] Looking for HTML files in dist directory...";
     ExistsSync "/proj/dist";
     Console Info "[js-inline] Found 1 HTML files in dist directory";
     Console Info "[js-inline] Processing HTML file: index.html";
     ExistsSync "/proj/dist/a.js";
     Console Info "[js-inline] Inlined JavaScript file: a.js";
     WriteFileSync Example.page (inlineScriptTag "a();");
     Console Info "[js-inline] Updated HTML file with inlined scripts: index.html";
     Console Info "[js-inline] Plugin completed successfully"] in
  closeBundle (posixHost "/proj" (Normal markingTerser)) defaultOptions 5
    (Some markingTerser) fs
  = Some (tr, <[Example.page := File (inlineScriptTag "a();")]> fs,
          Some markingTerser, Normal tt)
  /\ imports tr = 0 /\ minifyCalls tr = 0 /\ Some markingTerser = Some markingTerser.
Proof.
  intros html fs tr.
  assert (E : closeBundle (posixHost "/proj" (Normal markingTerser)) defaultOptions
                5 (Some markingTerser) fs
              = Some (tr, <[Example.page := File (inlineScriptTag "a();")]> fs,
                      Some markingTerser, Normal tt))
    by (vm_compute; reflexivity).
  split; [exact E|].
  exact (minify_off_never_touches_terser
           (posixHost "/proj" (Normal markingTerser)) defaultOptions 5
           (Some markingTerser) fs tr _ _ _ eq_refl E).
Defined.

(** ** Where a substitution lands *)

Section Occurrences.

Lemma length_take n s :
  n <= String.length s -> String.length (JsString.take n s) = n.
Proof.
  revert s; induction n as [|n IH]; intros [|c s] H; cbn in *; try lia.
  now rewrite IH by lia.
Qed.

Lemma search_occurrence ps s i m :
  RegExp.search ps s i = Some m ->
  exists a b, s = a +:+ RegExp.fullMatch m +:+ b /\ RegExp.index m = i + String.length a.
Proof.
  revert i; induction s as [|c s IH]; intros i; cbn [RegExp.search].
  - destruct (RegExp.matchHere ps "") as [r|] eqn:E; [|discriminate].
    intros [= <-]. destruct (matchHere_returns ps _ _ E) as (_ & _ & C).
    exists "", (JsString.drop (String.length (fst r)) ""). cbn. split; [exact C|lia].
  - destruct (RegExp.matchHere ps (String c s)) as [r|] eqn:E.
    + intros [= <-]. destruct (matchHere_returns ps _ _ E) as (_ & _ & C).
      exists "", (JsString.drop (String.length (fst r)) (String c s)).
      cbn [RegExp.fullMatch RegExp.index String.append String.length].
      split; [exact C|lia].
    + intros H. apply IH in H as (a & b & -> & Hi).
      exists (String c a), b. cbn [String.append String.length].
      split; [reflexivity|lia].
Qed.

Lemma indexOf_occurrence a p b :
  exists k, JsString.indexOf (a +:+ p +:+ b) p = Some k /\ k <= String.length a.
Proof.
  induction a as [|c a (k & Hk & Hle)].
  - exists 0. split; [|cbn; lia].
    change ("" +:+ p +:+ b) with (p +:+ b).
    apply indexOf_startsWith, startsWith_append.
  - change (String c a +:+ p +:+ b) with (String c (a +:+ p +:+ b)).
    cbn [JsString.indexOf String.length].
    destruct (JsString.startsWith _ p).
    + exists 0. split; [reflexivity|lia].
    + exists (S k). rewrite Hk. split; [reflexivity|lia].
Qed.

(** The text [exec] returns occurs in the text it searched, at the
    returned index; its first occurrence is there or before. *)
Lemma exec_occurrence ps text i m j :
  RegExp.exec ps text i = (Some m, j) ->
  exists k, JsString.indexOf text (RegExp.fullMatch m) = Some k /\ k <= RegExp.index m.
Proof.
  unfold RegExp.exec.
  destruct (Nat.ltb_spec (String.length text) i) as [|Hle]; [discriminate|].
  destruct (RegExp.search ps (JsString.drop i text) i) as [m'|] eqn:E; [|discriminate].
  intros [= <- _]. apply search_occurrence in E as (a & b & E & Hi).
  destruct (indexOf_occurrence (JsString.take i text +:+ a) (RegExp.fullMatch m') b)
    as (k & Hk & Hlen).
  exists k. rewrite append_assoc, <- E, take_drop in Hk. split; [exact Hk|].
  rewrite length_append, length_take in Hlen by exact Hle. lia.
Qed.

End Occurrences.

(** X11. [replace] never misses: when a reference is inlined, the tag text is
    found in the current document, and what is replaced is its first
    occurrence, which lies at the matched position or before it. *)
Theorem substitution_hits_first_occurrence (host : Host) (opts : options)
    fs terserModule distDir htmlFile st m srcPath i trL p c0 c1 trM jsContent :
  RegExp.exec (scriptTagPattern opts) (htmlContent st) (lastIndex st) = (Some m, i) ->
  RegExp.capture m = Some srcPath ->
  skipped opts (RegExp.fullMatch m) srcPath = false ->
  locate host opts fs distDir htmlFile srcPath = (trL, (p, true)) ->
  readFileSync fs p = Normal c0 ->
  transformContent opts c0 srcPath = Normal c1 ->
  minifyContent host opts terserModule srcPath c1 = (trM, jsContent) ->
  exists k,
    JsString.indexOf (htmlContent st) (RegExp.fullMatch m) = Some k
    /\ k <= RegExp.index m
    /\ step host opts fs terserModule distDir htmlFile
         (FileState (htmlContent st) (modified st) i) m
       = (trL ++ trM
          ++ [Console Info (logPrefix +:+ "Inlined JavaScript file: " +:+ srcPath)],
          Normal (FileState
                    (let before := JsString.take k (htmlContent st) in
                     let after :=
                       JsString.drop (k + String.length (RegExp.fullMatch m))
                         (htmlContent st) in
                     before
                     +:+ JsString.getSubstitution (RegExp.fullMatch m) before after
                           (inlineScriptTag jsContent)
                     +:+ after)
                    true i)).
Proof.
  intros He Hc Hs HL HR HT HM.
  destruct (exec_occurrence _ _ _ _ _ He) as (k & Hk & Hle).
  exists k. split; [exact Hk|]. split; [exact Hle|].
  unfold step. rewrite Hc, Hs.
  rewrite (tryInline_resolved host opts fs terserModule distDir htmlFile
             (FileState (htmlContent st) (modified st) i) (RegExp.fullMatch m)
             srcPath _ _ _ _ _ _ HL HR HT HM).
  cbn [htmlContent lastIndex]. unfold JsString.replace. now rewrite Hk.
Qed.

Lemma substitution_hits_first_occurrence_witness :
  let t := "<script src='a.js' inline></script>" in
  let text := inlineScriptTag "b();" +:+ t +:+ t in
  let fs := Example.disk text [("/proj/dist/a.js", "a();")] in
  exists k,
    JsString.indexOf text t = Some k
    /\ k <= 57
    /\ step Example.host defaultOptions fs None "/proj/dist" Example.page
         (FileState text true 92) (RegExp.Found 57 t (Some "a.js"))
       = ([ExistsSync "/proj/dist/a.js";
           Console Info "[js-inline] Inlined JavaScript file: a.js"],
          Normal (FileState
                    (let before := JsString.take k text in
                     let after := JsString.drop (k + String.length t) text in
                     before
                     +:+ JsString.getSubstitution t before after (inlineScriptTag "a();")
                     +:+ after)
                    true 92)).
Proof.
  intros t text fs.
  exact (substitution_hits_first_occurrence Example.host defaultOptions fs None
           "/proj/dist" Example.page (FileState text true 35)
           (RegExp.Found 57 t (Some "a.js")) "a.js" 92
           [ExistsSync "/proj/dist/a.js"] "/proj/dist/a.js" "a();" "a();" []
           "a();" eq_refl eq_refl eq_refl eq_refl eq_refl eq_refl eq_refl).
Defined.

(** ** Dollar signs in a script *)

Section Dollar.

Lemma getSubstitution_app m bf af a t :
  JsString.includes a "$" = false ->
  JsString.getSubstitution m bf af (a +:+ t)
  = a +:+ JsString.getSubstitution m bf af t.
Proof.
  induction a as [|c a IH]; intros H; [reflexivity|].
  apply includes_cons in H as [H1 H2].
  change (String c a +:+ t) with (String c (a +:+ t)).
  cbn [JsString.getSubstitution].
  destruct (Ascii.eqb_spec c "$") as [->|_]; [discriminate H1|].
  now rewrite (IH H2).
Qed.

(** The inline element for a content with one dollar pattern [$x]. *)
Lemma getSubstitution_inline m bf af a x b :
  JsString.includes a "$" = false ->
  JsString.includes b "$" = false ->
  JsString.getSubstitution m bf af
    (inlineScriptTag (a +:+ String "$" (String x b)))
  = "<script>" +:+ newline +:+ a
    +:+ JsString.getSubstitution m bf af (String "$" (String x ""))
    +:+ b +:+ "</script>".
Proof.
  intros Ha Hb. unfold inlineScriptTag.
  rewrite (getSubstitution_app m bf af "<script>") by reflexivity.
  rewrite (getSubstitution_app m bf af newline) by reflexivity.
  rewrite append_assoc, (getSubstitution_app m bf af a) by exact Ha.
  assert (T : JsString.getSubstitution m bf af (b +:+ "</script>")
              = b +:+ "</script>").
  { rewrite getSubstitution_app by exact Hb. reflexivity. }
  change (String "$" (String x b) +:+ "</script>")
    with (String "$" (String x (b +:+ "</script>"))).
  cbn [JsString.getSubstitution Ascii.eqb Bool.eqb].
  destruct (Ascii.eqb x "$"), (Ascii.eqb x "&"), (Ascii.eqb x "`"),
    (Ascii.eqb x "'"); cbn [String.append];
    rewrite ?T, ?append_nil_r, ?append_assoc; reflexivity.
Qed.

End Dollar.

(** X12. A dollar sign in the script is read by [String.prototype.replace] as
    the head of a replacement pattern. For a resolved script whose final
    content holds one dollar sign, followed by the character [x], the
    element put in place of the tag holds, where [$x] stood: one dollar
    sign for [$$], the text of the tag itself for [$&], the document
    before the tag for [$`], the document behind the tag for [$'], and
    [$x] unchanged for any other [x]. *)
Theorem dollar_patterns_are_expanded (host : Host) (opts : options)
    fs terserModule distDir htmlFile st fullMatch srcPath
    trL p c0 c1 trM a x b i :
  locate host opts fs distDir htmlFile srcPath = (trL, (p, true)) ->
  readFileSync fs p = Normal c0 ->
  transformContent opts c0 srcPath = Normal c1 ->
  minifyContent host opts terserModule srcPath c1
  = (trM, a +:+ String "$" (String x b)) ->
  JsString.indexOf (htmlContent st) fullMatch = Some i ->
  JsString.includes a "$" = false ->
  JsString.includes b "$" = false ->
  let before := JsString.take i (htmlContent st) in
  let after := JsString.drop (i + String.length fullMatch) (htmlContent st) in
  let pasted :=
    if Ascii.eqb x "$" then "$"
    else if Ascii.eqb x "&" then fullMatch
    else if Ascii.eqb x "`" then before
    else if Ascii.eqb x "'" then after
    else String "$" (String x "") in
  snd (tryInline host opts fs terserModule distDir htmlFile st fullMatch srcPath)
  = Normal (before +:+ ("<script>" +:+ newline +:+ a +:+ pasted +:+ b
                        +:+ "</script>") +:+ after,
            true).
Proof.
  intros HL HR HT HM Hi Ha Hb before after pasted.
  rewrite (tryInline_resolved _ _ _ _ _ _ _ _ _ _ _ _ _ _ _ HL HR HT HM).
  cbn [snd]. unfold JsString.replace. rewrite Hi. fold before after.
  rewrite getSubstitution_inline by assumption.
  do 4 f_equal. unfold pasted.
  cbn [JsString.getSubstitution Ascii.eqb Bool.eqb].
  destruct (Ascii.eqb x "$"), (Ascii.eqb x "&"), (Ascii.eqb x "`"),
    (Ascii.eqb x "'"); rewrite ?append_nil_r; reflexivity.
Qed.

Lemma dollar_patterns_are_expanded_witness :
  let tag := "<script src='esc.js' inline></script>" in
  let html := "<h1>" +:+ tag +:+ "<p>" in
  let fs := Example.disk html
              [("/proj/dist/esc.js", "r = s.replace(/x/g, '[$&]');")] in
  snd (tryInline Example.host defaultOptions fs None "/proj/dist" Example.page
         (FileState html false 41) tag "esc.js")
  = Normal ("<h1>" +:+ ("<script>" +:+ newline
                        +:+ "r = s.replace(/x/g, '[" +:+ tag +:+ "]');"
                        +:+ "</script>") +:+ "<p>",
            true).
Proof.
  intros tag html fs.
  exact (dollar_patterns_are_expanded Example.host defaultOptions fs None
           "/proj/dist" Example.page (FileState html false 41) tag "esc.js"
           [ExistsSync "/proj/dist/esc.js"] "/proj/dist/esc.js"
           "r = s.replace(/x/g, '[$&]');" "r = s.replace(/x/g, '[$&]');" []
           "r = s.replace(/x/g, '[" "&" "]');" 4
           eq_refl eq_refl eq_refl eq_refl eq_refl eq_refl eq_refl).
Defined.

(** ** Tags the default pattern matches *)

Section Greedy.

Import RegExp.

Lemma fst_takeAll p a r : fst (takeAll p a r) = a +:+ fst r.
Proof. induction a as [|c a IH]; cbn; [reflexivity|now rewrite IH]. Qed.

Lemma snd_takeAll p a r :
  snd (takeAll p a r)
  = if grp p then Some (a +:+ default "" (snd r)) else snd r.
Proof.
  induction a as [|c a IH]; cbn [takeAll close consume snd].
  - now destruct (grp p).
  - rewrite IH. now destruct (grp p).
Qed.

Lemma greedy_stop p k b :
  stops p b -> greedy p k b = option_map (close p) (k b).
Proof. destruct b as [|c b]; cbn; [reflexivity|]. now intros ->. Qed.

(** A greedy piece takes the longest run when what follows matches
    there. *)
Lemma greedy_longest p k a b r :
  every (cls p) a = true -> stops p b -> k b = Some r ->
  greedy p k (a +:+ b) = Some (takeAll p a r).
Proof.
  intros Ha Hb Hk. induction a as [|c a IH].
  - cbn [String.append takeAll]. now rewrite greedy_stop, Hk.
  - cbn [every] in Ha. apply andb_prop in Ha as [Hc Ha].
    change (String c a +:+ b) with (String c (a +:+ b)).
    cbn [greedy takeAll]. now rewrite Hc, (IH Ha).
Qed.

(** It gives the whole run back when what follows matches nowhere
    inside it. *)
Lemma greedy_giveback p k a b :
  every (cls p) a = true -> stops p b ->
  (forall j, 1 <= j <= String.length a -> k (JsString.drop j (a +:+ b)) = None) ->
  greedy p k (a +:+ b) = option_map (close p) (k (a +:+ b)).
Proof.
  intros Ha Hb. induction a as [|c a IH]; intros Hk.
  - cbn [String.append]. now apply greedy_stop.
  - cbn [every] in Ha. apply andb_prop in Ha as [Hc Ha].
    change (String c a +:+ b) with (String c (a +:+ b)).
    cbn [greedy]. rewrite Hc, (IH Ha).
    + assert (E : k (a +:+ b) = None).
      { specialize (Hk 1). cbn [JsString.drop String.length] in Hk.
        change (String c a +:+ b) with (String c (a +:+ b)) in Hk.
        cbn [JsString.drop] in Hk. apply Hk. lia. }
      now rewrite E.
    + intros j Hj. specialize (Hk (S j)).
      change (String c a +:+ b) with (String c (a +:+ b)) in Hk.
      cbn [JsString.drop String.length] in Hk. apply Hk. lia.
Qed.

(** It stops at the last place inside the run where what follows
    matches. *)
Lemma greedy_last p k a1 a2 b r :
  every (cls p) a1 = true -> every (cls p) a2 = true -> stops p b ->
  k (a2 +:+ b) = Some r ->
  (forall j, 1 <= j <= String.length a2 -> k (JsString.drop j (a2 +:+ b)) = None) ->
  greedy p k (a1 +:+ a2 +:+ b) = Some (takeAll p a1 r).
Proof.
  intros H1 H2 Hb Hk Hno. induction a1 as [|c a1 IH].
  - cbn [String.append takeAll]. now rewrite greedy_giveback, Hk.
  - cbn [every] in H1. apply andb_prop in H1 as [Hc H1].
    change (String c a1 +:+ a2 +:+ b) with (String c (a1 +:+ a2 +:+ b)).
    cbn [greedy takeAll]. now rewrite Hc, (IH H1).
Qed.

Lemma matchHere_lit w ps s :
  matchHere (lit w ++ ps) (w +:+ s)
  = option_map (fun r => (w +:+ fst r, snd r)) (matchHere ps s).
Proof.
  induction w as [|c w IH].
  - cbn [lit app String.append]. now destruct (matchHere ps s) as [[? ?]|].
  - change (String c w +:+ s) with (String c (w +:+ s)).
    cbn [lit app]. rewrite matchHere_chr, Ascii.eqb_refl, IH.
    now destruct (matchHere ps s) as [[? ?]|].
Qed.

Lemma matchHere_lit_fail w ps s :
  JsString.startsWith s w = false -> matchHere (lit w ++ ps) s = None.
Proof.
  revert s; induction w as [|c w IH]; intros s; [discriminate|].
  destruct s as [|a s]; [reflexivity|].
  cbn [JsString.startsWith lit app]. rewrite matchHere_chr.
  destruct (Ascii.eqb c a); [|reflexivity].
  intros H. now rewrite (IH s H).
Qed.

Lemma matchHere_once f g ps c s :
  matchHere (Piece f Once g :: ps) (String c s)
  = if f c
    then option_map (fun r => consume (Piece f Once g) c (close (Piece f Once g) r))
           (matchHere ps s)
    else None.
Proof. reflexivity. Qed.

Lemma matchHere_star f g ps s :
  matchHere (Piece f Star g :: ps) s = greedy (Piece f Star g) (matchHere ps) s.
Proof. reflexivity. Qed.

End Greedy.

Section CanonicalTag.

Import RegExp.

Lemma quote_cases q :
  oneOf quotes q = true -> q = "034"%char \/ q = "'"%char.
Proof.
  unfold oneOf, quotes, JsString.includes.
  cbn [JsString.indexOf JsString.startsWith].
  destruct (Ascii.eqb_spec q "034") as [->|_]; [now left|].
  destruct (Ascii.eqb_spec q "'") as [->|_]; [now right|].
  cbn. discriminate.
Qed.

Lemma includes_drop j x w :
  JsString.includes x w = false -> JsString.includes (JsString.drop j x) w = false.
Proof.
  revert x; induction j as [|j IH]; intros [|c x] H; cbn [JsString.drop]; auto.
  apply IH. now apply includes_cons in H.
Qed.

Lemma includes_startsWith x w :
  JsString.includes x w = false -> JsString.startsWith x w = false.
Proof.
  unfold JsString.includes. destruct x; cbn [JsString.indexOf];
    now destruct (JsString.startsWith _ w).
Qed.

(** No [src=] begins in [y] when [y] holds none, whatever follows the
    [>] behind it. *)
Lemma no_src_before_gt y z :
  JsString.includes y "src=" = false ->
  JsString.startsWith (y +:+ String ">" z) "src=" = false.
Proof.
  intros H. apply includes_startsWith in H.
  destruct y as [|a [|b [|c [|d y]]]]; cbn in *;
    repeat match goal with
           | |- context [Ascii.eqb ?u ?v] => destruct (Ascii.eqb u v)
           end; auto.
Qed.

End CanonicalTag.

Section TagMatch.

Import RegExp.

Variable q : ascii.
Variables pre src attrs rest : string.

Hypothesis Hq : oneOf quotes q = true.
Hypothesis Hne : src <> "".
Hypothesis Hsrcq : every (noneOf quotes) src = true.
Hypothesis Hsrcgt : every (noneOf ">") src = true.
Hypothesis Hpre : every (noneOf ">") pre = true.
Hypothesis Hattrs : every (noneOf ">") attrs = true.
Hypothesis Hagain : JsString.includes (src +:+ String q attrs) "src=" = false.

Let tail : string := String ">" ("</script>" +:+ rest).

Let closing : list piece :=
  chr ">" :: Piece space Star false :: lit "</script>".

Let value : list piece :=
  Piece (oneOf quotes) Once false
  :: Piece (noneOf quotes) Plus true
  :: Piece (oneOf quotes) Once false
  :: Piece (noneOf ">") Star false
  :: closing.

Lemma tail_matches : matchHere closing tail = Some ("></script>", None).
Proof.
  unfold closing, tail. rewrite matchHere_chr, Ascii.eqb_refl, matchHere_star.
  rewrite greedy_stop by reflexivity.
  rewrite <- (app_nil_r (lit "</script>")), matchHere_lit.
  reflexivity.
Qed.

Lemma every_app f a b : every f (a +:+ b) = every f a && every f b.
Proof.
  induction a as [|c a IH]; [reflexivity|].
  change (String c a +:+ b) with (String c (a +:+ b)).
  cbn [every]. now rewrite IH, andb_assoc.
Qed.

Lemma q_not_gt : noneOf ">" q = true.
Proof. destruct (quote_cases q Hq) as [-> | ->]; reflexivity. Qed.

Lemma q_is_quote : noneOf quotes q = false.
Proof. unfold noneOf. now rewrite Hq. Qed.

Lemma after_src_matches :
  matchHere (Piece (oneOf quotes) Once false
             :: Piece (noneOf ">") Star false :: closing)
    (String q (attrs +:+ tail))
  = Some (String q (attrs +:+ "></script>"), None).
Proof.
  rewrite matchHere_once, Hq, matchHere_star.
  rewrite (greedy_longest (Piece (noneOf ">") Star false) _ attrs tail _
             Hattrs eq_refl tail_matches).
  cbn [option_map]. unfold consume, close. cbn [grp fst snd].
  now rewrite fst_takeAll, snd_takeAll.
Qed.

Lemma value_matches :
  matchHere value (String q (src +:+ String q (attrs +:+ tail)))
  = Some (String q (src +:+ String q (attrs +:+ "></script>")), Some src).
Proof.
  unfold value. rewrite matchHere_once, Hq.
  destruct src as [|c0 src']; [contradiction|].
  cbn [every] in Hsrcq. apply andb_prop in Hsrcq as [Hc0 Hq'].
  change (String c0 src' +:+ String q (attrs +:+ tail))
    with (String c0 (src' +:+ String q (attrs +:+ tail))).
  rewrite matchHere_plus, Hc0.
  rewrite (greedy_longest (Piece (noneOf quotes) Plus true) _ src'
             (String q (attrs +:+ tail)) _ Hq' q_is_quote after_src_matches).
  cbn [option_map]. unfold consume, close. cbn [grp fst snd].
  rewrite fst_takeAll, snd_takeAll. cbn [grp fst snd default].
  now rewrite append_nil_r.
Qed.

(** The text from [src=] on, and what the pattern from [src=] on
    returns there. *)
Let fromSrc : string := "src=" +:+ String q (src +:+ String q attrs).

Lemma fromSrc_tail :
  fromSrc +:+ tail = "src=" +:+ String q (src +:+ String q (attrs +:+ tail)).
Proof.
  unfold fromSrc. rewrite append_assoc.
  change (String q (src +:+ String q attrs) +:+ tail)
    with (String q ((src +:+ String q attrs) +:+ tail)).
  rewrite append_assoc. reflexivity.
Qed.

Lemma from_src_matches :
  matchHere (lit "src=" ++ value) (fromSrc +:+ tail)
  = Some ("src=" +:+ String q (src +:+ String q (attrs +:+ "></script>")),
          Some src).
Proof. now rewrite fromSrc_tail, matchHere_lit, value_matches. Qed.

Lemma every_fromSrc : every (noneOf ">") fromSrc = true.
Proof.
  unfold fromSrc.
  change ("src=" +:+ String q (src +:+ String q attrs))
    with (String "s" (String "r" (String "c" (String "="
            (String q (src +:+ String q attrs)))))).
  cbn [every]. rewrite every_app. cbn [every].
  now rewrite q_not_gt, Hsrcgt, Hattrs.
Qed.

(** No [src=] begins behind the first character of [fromSrc]. *)
Lemma no_later_src j :
  1 <= j <= String.length fromSrc ->
  matchHere (lit "src=" ++ value) (JsString.drop j (fromSrc +:+ tail)) = None.
Proof.
  intros Hj. apply matchHere_lit_fail.
  rewrite fromSrc_tail.
  destruct j as [|[|[|[|[|j]]]]]; [lia| | | | |]; cbn [String.append JsString.drop];
    try reflexivity.
  - destruct (quote_cases q Hq) as [-> | ->]; reflexivity.
  - assert (E : src +:+ String q (attrs +:+ tail)
                = (src +:+ String q attrs) +:+ tail).
    { rewrite append_assoc. reflexivity. }
    rewrite E. unfold fromSrc in Hj. rewrite length_append in Hj.
    cbn [String.length] in Hj.
    rewrite drop_append_le by (cbn [String.length] in Hj; lia).
    apply no_src_before_gt, includes_drop, Hagain.
Qed.

(** [\s+] and the first [[^>]*] take the text before the last [src=]. *)
Lemma before_src_matches x :
  every (noneOf ">") x = true ->
  exists r,
    greedy (Piece space Plus false)
      (matchHere (Piece (noneOf ">") Star false :: lit "src=" ++ value))
      (x +:+ fromSrc +:+ tail) = Some r
    /\ fst r = x +:+ "src=" +:+ String q (src +:+ String q (attrs +:+ "></script>"))
    /\ snd r = Some src.
Proof.
  intros Hx.
  assert (G : forall y, every (noneOf ">") y = true ->
            matchHere (Piece (noneOf ">") Star false :: lit "src=" ++ value)
              (y +:+ fromSrc +:+ tail)
            = Some (takeAll (Piece (noneOf ">") Star false) y
                      ("src=" +:+ String q (src +:+ String q (attrs +:+ "></script>")),
                       Some src))).
  { intros y Hy. rewrite matchHere_star.
    apply greedy_last; auto using every_fromSrc, from_src_matches, no_later_src.
    reflexivity. }
  induction x as [|c x IH].
  - eexists. split; [|split].
    + change ("" +:+ fromSrc +:+ tail) with (fromSrc +:+ tail).
      rewrite greedy_stop by reflexivity.
      pose proof (G "" eq_refl) as G0.
      change ("" +:+ fromSrc +:+ tail) with (fromSrc +:+ tail) in G0.
      rewrite G0. reflexivity.
    + reflexivity.
    + reflexivity.
  - pose proof Hx as Hcx. cbn [every] in Hx. apply andb_prop in Hx as [Hc Hx].
    destruct (IH Hx) as (r & E & F & S).
    change (String c x +:+ fromSrc +:+ tail)
      with (String c (x +:+ fromSrc +:+ tail)).
    cbn [greedy cls]. rewrite E.
    destruct (space c).
    + eexists. split; [reflexivity|]. cbn [consume grp fst snd].
      rewrite F. split; [reflexivity|exact S].
    + change (String c (x +:+ fromSrc +:+ tail))
        with (String c x +:+ fromSrc +:+ tail).
      rewrite (G _ Hcx). eexists. split; [reflexivity|].
      cbn [option_map close grp fst snd].
      rewrite fst_takeAll, snd_takeAll. cbn [grp fst snd]. split; reflexivity.
Qed.

Lemma default_pattern_split :
  defaultScriptTagPattern
  = lit "<script"
    ++ Piece space Plus false
       :: Piece (noneOf ">") Star false :: lit "src=" ++ value.
Proof. reflexivity. Qed.

Lemma scriptTag_matches :
  matchHere defaultScriptTagPattern (scriptTag q pre src attrs +:+ rest)
  = Some (scriptTag q pre src attrs, Some src).
Proof.
  destruct (before_src_matches pre Hpre) as (r & E & F & S).
  assert (T : scriptTag q pre src attrs +:+ rest
              = "<script" +:+ String " " (pre +:+ fromSrc +:+ tail)).
  { unfold scriptTag, fromSrc, tail.
    rewrite !append_assoc. cbn [String.append].
    rewrite !append_assoc. cbn [String.append].
    rewrite !append_assoc. cbn [String.append]. reflexivity. }
  rewrite T, default_pattern_split, matchHere_lit, matchHere_plus.
  change (space " ") with true. cbv iota. rewrite E. cbn [option_map consume grp fst snd].
  rewrite F, S. reflexivity.
Qed.

End TagMatch.

(** X13. With the default pattern the source of a script element is the value
    of the last [src=] in its tag: of an element whose text before it
    holds no [>], whose value is not empty and holds no quote and no [>],
    and whose remaining attribute text holds no [>] and no further
    [src=], the first [exec] returns the whole element and that value,
    whatever stands before [src=] in the tag, another [src] attribute or
    the head of a longer attribute name included. *)
Theorem default_pattern_takes_last_src (q : ascii)
    (pre src attrs before rest : string) :
  RegExp.oneOf quotes q = true ->
  src <> "" ->
  every (RegExp.noneOf quotes) src = true ->
  every (RegExp.noneOf ">") src = true ->
  every (RegExp.noneOf ">") pre = true ->
  every (RegExp.noneOf ">") attrs = true ->
  JsString.includes (src +:+ String q attrs) "src=" = false ->
  noTagStart before = true ->
  RegExp.exec defaultScriptTagPattern
    (before +:+ scriptTag q pre src attrs +:+ rest) 0
  = (Some (RegExp.Found (String.length before) (scriptTag q pre src attrs)
             (Some src)),
     String.length before + String.length (scriptTag q pre src attrs)).
Proof.
  intros Hq Hne Hsrcq Hsrcgt Hpre Hattrs Hagain Hbefore.
  rewrite exec_at by lia.
  replace (JsString.drop 0 (before +:+ scriptTag q pre src attrs +:+ rest))
    with (before +:+ scriptTag q pre src attrs +:+ rest)
    by now destruct (before +:+ scriptTag q pre src attrs +:+ rest).
  rewrite (search_noTagStart before _ 0 Hbefore).
  rewrite (search_here _ _ _ _
             (scriptTag_matches q pre src attrs rest
                Hq Hne Hsrcq Hsrcgt Hpre Hattrs Hagain)).
  reflexivity.
Qed.

Lemma default_pattern_takes_last_src_witness :
  RegExp.exec defaultScriptTagPattern
    "<p><script src='a.js' data-src='b.js' inline></script>" 0
  = (Some (RegExp.Found 3 "<script src='a.js' data-src='b.js' inline></script>"
             (Some "b.js")),
     54).
Proof.
  exact (default_pattern_takes_last_src "'" "src='a.js' data-" "b.js" " inline"
           "<p>" ""
           eq_refl ltac:(discriminate) eq_refl eq_refl eq_refl eq_refl
           eq_refl eq_refl).
Defined.

(** ** A script that holds its own tag *)

Section TagFree.

Lemma tagFree_app a b : tagFree a -> tagFree b -> tagFree (a +:+ b).
Proof.
  intros Ha Hb j x Hj. rewrite append_assoc.
  destruct (Nat.lt_ge_cases j (String.length a)) as [Hlt|Hge].
  - now apply Ha.
  - rewrite drop_append_ge by exact Hge. apply Hb.
    rewrite length_append in Hj. lia.
Qed.

Lemma tagFree_noTagStart w : noTagStart w = true -> tagFree w.
Proof.
  intros Hw j x Hj (sp & s' & E & _).
  rewrite drop_append_le in E by lia.
  pose proof (noTagStart_drop j w Hw) as Hd.
  pose proof (length_drop j w) as Hl.
  destruct (JsString.drop j w) as [|a [|b u]]; cbn [String.length] in Hl; [lia| |].
  - cbn [noTagStart] in Hd. cbn [String.append] in E.
    injection E as -> _. discriminate Hd.
  - cbn [noTagStart] in Hd. cbn [String.append] in E.
    injection E as -> -> _. discriminate Hd.
Qed.

Lemma tagFree_plain w : JsString.includes w "<" = false -> tagFree w.
Proof.
  intros H. apply tagFree_noTagStart.
  rewrite <- (append_nil_r w). now apply noTagStart_append.
Qed.

(** The head of an inline element. *)
Lemma tagFree_opening : tagFree ("<script>" +:+ newline).
Proof.
  intros j x Hj (sp & s' & E & Hsp). cbn [String.append newline String.length] in *.
  do 9 (destruct j as [|j];
        [cbn [JsString.drop String.append] in E; try discriminate E;
         injection E as <- _; discriminate Hsp|]).
  lia.
Qed.

Lemma tagFree_matchHere w s j :
  tagFree w -> j < String.length w ->
  RegExp.matchHere defaultScriptTagPattern (JsString.drop j (w +:+ s)) = None.
Proof.
  intros Hw Hj.
  destruct (RegExp.matchHere _ _) as [r|] eqn:E; [|reflexivity].
  apply matchHere_default_shape in E. now apply Hw in E.
Qed.

Lemma tagFree_startsWith w s j q pre src attrs :
  tagFree w -> j < String.length w ->
  JsString.startsWith (JsString.drop j (w +:+ s)) (scriptTag q pre src attrs) = false.
Proof.
  intros Hw Hj.
  destruct (JsString.startsWith _ _) eqn:E; [|reflexivity].
  apply startsWith_split in E. exfalso. apply (Hw j s Hj).
  rewrite E. unfold scriptTag. rewrite append_assoc.
  eexists " "%char, _. split; reflexivity.
Qed.

Lemma search_skip ps w s i :
  (forall j, j < String.length w -> RegExp.matchHere ps (JsString.drop j (w +:+ s)) = None) ->
  RegExp.search ps (w +:+ s) i = RegExp.search ps s (i + String.length w).
Proof.
  revert i; induction w as [|c w IH]; intros i H.
  - cbn [String.append String.length]. now rewrite Nat.add_0_r.
  - change (String c w +:+ s) with (String c (w +:+ s)).
    cbn [RegExp.search]. pose proof (H 0) as H0. cbn [JsString.drop] in H0.
    change (String c w +:+ s) with (String c (w +:+ s)) in H0.
    rewrite H0 by (cbn; lia). rewrite IH.
    + cbn [String.length]. f_equal. lia.
    + intros j Hj. apply (H (S j)). cbn [String.length]. lia.
Qed.

Lemma indexOf_skip w s p :
  (forall j, j < String.length w ->
     JsString.startsWith (JsString.drop j (w +:+ s)) p = false) ->
  JsString.startsWith s p = true ->
  JsString.indexOf (w +:+ s) p = Some (String.length w).
Proof.
  intros H Hs. induction w as [|c w IH].
  - cbn [String.append String.length]. now apply indexOf_startsWith.
  - change (String c w +:+ s) with (String c (w +:+ s)).
    cbn [JsString.indexOf]. pose proof (H 0) as H0. cbn [JsString.drop] in H0.
    change (String c w +:+ s) with (String c (w +:+ s)) in H0.
    rewrite H0 by (cbn; lia). rewrite IH; [reflexivity|].
    intros j Hj. apply (H (S j)). cbn [String.length]. lia.
Qed.

End TagFree.

Section SelfReference.

Variable host : Host.
Variable opts : options.
Variable fs : gmap string node.
Variable terserModule : option terser.
Variables distDir htmlFile : string.

(** The tag, and the script it names: padding, the tag text, a rest. *)
Variable q : ascii.
Variables pre src attrs pad rest : string.
Variables (trL trM : list event) (p c0 c1 : string).

Let t : string := scriptTag q pre src attrs.
Let jsContent : string := pad +:+ t +:+ rest.

Hypothesis Hpattern : scriptTagPattern opts = defaultScriptTagPattern.
Hypothesis Hq : RegExp.oneOf quotes q = true.
Hypothesis Hne : src <> "".
Hypothesis Hsrcq : every (RegExp.noneOf quotes) src = true.
Hypothesis Hsrcgt : every (RegExp.noneOf ">") src = true.
Hypothesis Hpre : every (RegExp.noneOf ">") pre = true.
Hypothesis Hattrs : every (RegExp.noneOf ">") attrs = true.
Hypothesis Hagain : JsString.includes (src +:+ String q attrs) "src=" = false.
Hypothesis Heligible : skipped opts t src = false.
Hypothesis Hlocate : locate host opts fs distDir htmlFile src = (trL, (p, true)).
Hypothesis Hread : readFileSync fs p = Normal c0.
Hypothesis Htransform : transformContent opts c0 src = Normal c1.
Hypothesis Hminify :
  minifyContent host opts terserModule src c1 = (trM, jsContent).
Hypothesis Hdollar : JsString.includes jsContent "$" = false.
Hypothesis Hpad : JsString.includes pad "<" = false.
Hypothesis Hlong : String.length t <= 9 + String.length pad.

(** What a substitution puts before and behind the tag text. *)
Let front : string := ("<script>" +:+ newline) +:+ pad.
Let back : string := rest +:+ "</script>".

Lemma inlined_split : inlineScriptTag jsContent = front +:+ t +:+ back.
Proof.
  unfold inlineScriptTag, jsContent, front, back.
  now rewrite !append_assoc.
Qed.

Lemma tagFree_front : tagFree front.
Proof. apply tagFree_app; [apply tagFree_opening|now apply tagFree_plain]. Qed.

Lemma length_front : String.length front = 9 + String.length pad.
Proof. unfold front. now rewrite length_append. Qed.

(** On a text with the tag behind tag-free text, scanned from inside
    that text, [exec] returns the tag. *)
Lemma exec_tag w s i :
  tagFree w -> i <= String.length w ->
  RegExp.exec defaultScriptTagPattern (w +:+ t +:+ s) i
  = (Some (RegExp.Found (String.length w) t (Some src)),
     String.length w + String.length t).
Proof.
  intros Hw Hi.
  rewrite exec_at by (rewrite length_append; lia).
  rewrite drop_append_le by exact Hi.
  rewrite search_skip.
  - rewrite length_drop.
    rewrite (search_here _ _ _ _
               (scriptTag_matches q pre src attrs s
                  Hq Hne Hsrcq Hsrcgt Hpre Hattrs Hagain)).
    cbn [fst snd RegExp.index RegExp.fullMatch]. fold t.
    replace (i + (String.length w - i)) with (String.length w) by lia.
    reflexivity.
  - intros j Hj. rewrite length_drop in Hj.
    rewrite <- drop_append_le by exact Hi.
    rewrite drop_drop. apply tagFree_matchHere; [exact Hw|lia].
Qed.

Lemma indexOf_tag w s :
  tagFree w -> JsString.indexOf (w +:+ t +:+ s) t = Some (String.length w).
Proof.
  intros Hw. apply indexOf_skip; [|apply startsWith_append].
  intros j Hj. now apply tagFree_startsWith.
Qed.

(** Every turn of the loop finds the tag again, further on. *)
Lemma scan_self_reference fuel st w s :
  htmlContent st = w +:+ t +:+ s -> tagFree w -> lastIndex st <= String.length w ->
  scan host opts fuel fs terserModule distDir htmlFile st = None.
Proof.
  revert st w s. induction fuel as [|fuel IH]; intros st w s Ht Hw Hi;
    [reflexivity|].
  rewrite (scan_match host opts fuel fs terserModule distDir htmlFile st
             (RegExp.Found (String.length w) t (Some src))
             (String.length w + String.length t))
    by (rewrite Hpattern, Ht; now apply exec_tag).
  destruct (step_tag host opts fs terserModule distDir htmlFile t src jsContent
              trL trM p c0 c1 Heligible Hlocate Hread Htransform Hminify Hdollar
              (htmlContent st) (String.length w)
              (String.length w + String.length t) (String.length w))
    as [_ E].
  { rewrite Ht. now apply indexOf_tag. }
  rewrite (E (modified st)).
  rewrite (IH _ (w +:+ front) (back +:+ s)); [reflexivity| | |].
  - cbn [htmlContent]. rewrite Ht, take_append.
    rewrite <- drop_drop, !drop_append, inlined_split.
    now rewrite !append_assoc.
  - apply tagFree_app; [exact Hw|apply tagFree_front].
  - cbn [lastIndex]. rewrite length_append, length_front. lia.
Qed.

End SelfReference.

(** X14. The loop need not end. Let a page hold a tag of the default shape
    behind text where no tag starts, let the tag be eligible and resolve
    to a script, and let the final content of that script hold the text
    of the tag itself behind a padding without [<] that is at least as
    long as the tag less nine characters, with no dollar sign anywhere.
    Then every substitution puts a fresh copy of the tag behind the place
    where the scan resumes: the processing of that page finishes for no
    number of turns of the loop (strings being unbounded). *)
Theorem self_referencing_script_never_finishes (host : Host) (opts : options)
    (fs : gmap string node) (terserModule : option terser)
    (distDir htmlFile : string) (q : ascii)
    (pre src attrs pad rest before behind : string)
    (trL trM : list event) (p c0 c1 : string) :
  let t := scriptTag q pre src attrs in
  scriptTagPattern opts = defaultScriptTagPattern ->
  RegExp.oneOf quotes q = true ->
  src <> "" ->
  every (RegExp.noneOf quotes) src = true ->
  every (RegExp.noneOf ">") src = true ->
  every (RegExp.noneOf ">") pre = true ->
  every (RegExp.noneOf ">") attrs = true ->
  JsString.includes (src +:+ String q attrs) "src=" = false ->
  skipped opts t src = false ->
  locate host opts fs distDir htmlFile src = (trL, (p, true)) ->
  readFileSync fs p = Normal c0 ->
  transformContent opts c0 src = Normal c1 ->
  minifyContent host opts terserModule src c1 = (trM, pad +:+ t +:+ rest) ->
  JsString.includes (pad +:+ t +:+ rest) "$" = false ->
  JsString.includes pad "<" = false ->
  String.length t <= 9 + String.length pad ->
  noTagStart before = true ->
  readFileSync fs htmlFile = Normal (before +:+ t +:+ behind) ->
  forall fuel,
    processFile host opts fuel fs terserModule distDir htmlFile = None.
Proof.
  intros t Hpattern Hq Hne Hsrcq Hsrcgt Hpre Hattrs Hagain Heligible Hlocate
    Hread Htransform Hminify Hdollar Hpad Hlong Hbefore Hpage fuel.
  unfold processFile. rewrite Hpage.
  now rewrite (scan_self_reference host opts fs terserModule distDir htmlFile
                 q pre src attrs pad rest trL trM p c0 c1
                 Hpattern Hq Hne Hsrcq Hsrcgt Hpre Hattrs Hagain Heligible
                 Hlocate Hread Htransform Hminify Hdollar Hpad Hlong
                 fuel (FileState (before +:+ t +:+ behind) false 0)
                 before behind eq_refl (tagFree_noTagStart _ Hbefore)
                 (Nat.le_0_l _)).
Qed.

Lemma self_referencing_script_never_finishes_witness :
  let tag := "<script src='a.js' inline></script>" in
  let js := "/* include this file with " +:+ tag +:+ " */ a();" in
  let fs := Example.disk ("<p>" +:+ tag +:+ "</p>") [("/proj/dist/a.js", js)] in
  processFile Example.host defaultOptions 1000 fs None "/proj/dist" Example.page
  = None.
Proof.
  intros tag js fs.
  apply (self_referencing_script_never_finishes Example.host defaultOptions fs
           None "/proj/dist" Example.page "'" "" "a.js" " inline"
           "/* include this file with " " */ a();" "<p>" "</p>"
           [ExistsSync "/proj/dist/a.js"] [] "/proj/dist/a.js" js js);
    try (vm_compute; reflexivity).
  discriminate.
Defined.

(** * Runs on documents made of tags and text *)

(** ** Text without matches *)

Section Tagless.

Variable ps : list RegExp.piece.

Lemma tagless_app a b : tagless ps a -> tagless ps b -> tagless ps (a +:+ b).
Proof.
  intros Ha Hb j x Hj. rewrite append_assoc.
  destruct (Nat.lt_ge_cases j (String.length a)) as [Hlt|Hge].
  - now apply Ha.
  - rewrite drop_append_ge by exact Hge. apply Hb.
    rewrite length_append in Hj. lia.
Qed.

Lemma tagless_nil : tagless ps "".
Proof. intros j x Hj. cbn in Hj. lia. Qed.

Lemma absent_app t a b : absent t a -> absent t b -> absent t (a +:+ b).
Proof.
  intros Ha Hb j x Hj. rewrite append_assoc.
  destruct (Nat.lt_ge_cases j (String.length a)) as [Hlt|Hge].
  - now apply Ha.
  - rewrite drop_append_ge by exact Hge. apply Hb.
    rewrite length_append in Hj. lia.
Qed.

Lemma tagless_absent t src w : wholeTag ps t src -> tagless ps w -> absent t w.
Proof.
  intros Ht Hw j x Hj.
  destruct (JsString.startsWith _ t) eqn:E; [|reflexivity].
  apply startsWith_split in E. specialize (Hw j x Hj).
  rewrite E, Ht in Hw. discriminate Hw.
Qed.

(** A tag text does not begin inside another tag. *)
Lemma absent_tag t src t' src' :
  wholeTag ps t src -> wholeTag ps t' src' -> tagless ps (JsString.drop 1 t') ->
  t <> t' -> absent t t'.
Proof.
  intros Ht Ht' Hin Hne j x Hj.
  destruct (JsString.startsWith _ t) eqn:E; [|reflexivity].
  apply startsWith_split in E. exfalso.
  destruct j as [|j].
  - replace (JsString.drop 0 (t' +:+ x)) with (t' +:+ x) in E
      by now destruct (t' +:+ x).
    pose proof (Ht' x) as M. rewrite E, Ht in M. now injection M as M _.
  - destruct t' as [|c t']; [cbn in Hj; lia|].
    cbn [JsString.drop String.append String.length] in *.
    specialize (Hin j x ltac:(lia)).
    rewrite E, Ht in Hin. discriminate Hin.
Qed.

Lemma matchHere_empty : nonEmpty ps = true -> RegExp.matchHere ps "" = None.
Proof.
  intros HN. destruct (RegExp.matchHere ps "") as [r|] eqn:E; [|reflexivity].
  destruct (matchHere_returns ps _ _ E) as (_ & L & C). rewrite HN in L.
  destruct (fst r); [cbn in L; lia|discriminate C].
Qed.

Lemma search_tagless w i :
  nonEmpty ps = true -> tagless ps w -> RegExp.search ps w i = None.
Proof.
  intros HN Hw. rewrite <- (append_nil_r w), search_skip.
  - cbn [RegExp.search]. now rewrite matchHere_empty.
  - intros j Hj. now apply Hw.
Qed.

(** [exec] past the last match. *)
Lemma exec_tagless_end u w i :
  nonEmpty ps = true -> tagless ps w -> String.length u <= i ->
  RegExp.exec ps (u +:+ w) i = (None, 0).
Proof.
  intros HN Hw Hi. unfold RegExp.exec.
  destruct (String.length (u +:+ w) <? i); [reflexivity|].
  rewrite drop_append_ge by exact Hi.
  now rewrite (search_None_drop ps w 0 _ i (search_tagless w 0 HN Hw)).
Qed.

(** [exec] from inside text without matches finds the tag behind it. *)
Lemma exec_whole u w t src y i :
  tagless ps w -> wholeTag ps t src ->
  String.length u <= i -> i <= String.length (u +:+ w) ->
  RegExp.exec ps ((u +:+ w) +:+ t +:+ y) i
  = (Some (RegExp.Found (String.length (u +:+ w)) t (Some src)),
     String.length (u +:+ w) + String.length t).
Proof.
  intros Hw Ht Hu Hi. rewrite length_append in Hi.
  rewrite exec_at by (rewrite !length_append; lia).
  rewrite append_assoc, drop_append_ge by exact Hu.
  rewrite drop_append_le by lia.
  rewrite search_skip.
  - rewrite (search_here _ _ _ _ (Ht y)). cbn [fst snd].
    rewrite length_drop, length_append.
    replace (i + (String.length w - (i - String.length u)))
      with (String.length u + String.length w) by lia.
    reflexivity.
  - intros j Hj. rewrite length_drop in Hj.
    rewrite <- drop_append_le by lia.
    rewrite drop_drop. apply Hw. lia.
Qed.

Lemma indexOf_absent out t y :
  absent t out -> JsString.indexOf (out +:+ t +:+ y) t = Some (String.length out).
Proof.
  intros H. apply indexOf_skip; [|apply startsWith_append].
  intros j Hj. now apply H.
Qed.

End Tagless.

Lemma tagFree_tagless w : tagFree w -> tagless defaultScriptTagPattern w.
Proof. intros H j x Hj. now apply tagFree_matchHere. Qed.

(** ** The loop on such a document *)

Section Fates.

Variable host : Host.
Variable opts : options.
Variable fs : gmap string node.
Variable terserModule : option terser.
Variables distDir htmlFile : string.

(** The loop body on a match with capture, by the fate of the tag. *)
Lemma step_fate st i t src :
  exists tr,
    step host opts fs terserModule distDir htmlFile st
      (RegExp.Found i t (Some src))
    = (tr,
       Normal
         match fateOf host opts fs terserModule distDir htmlFile t src with
         | Kept => st
         | Inlined jsContent =>
             FileState
               (JsString.replace (htmlContent st) t (inlineScriptTag jsContent))
               true (lastIndex st)
         end)
    /\ substitutions tr
       = match fateOf host opts fs terserModule distDir htmlFile t src with
         | Kept => 0
         | Inlined _ => 1
         end.
Proof.
  unfold step, fateOf, tryInline. cbn [RegExp.capture RegExp.fullMatch].
  destruct (skipped opts t src); [now exists []|].
  pose proof (quiet_locate host opts fs distDir htmlFile src) as QL.
  destruct (locate host opts fs distDir htmlFile src) as [trL [p b]].
  cbn [fst] in QL. apply quiet_spec in QL as [SL _].
  assert (Hfail : forall e : string,
            substitutions
              (trL ++ [Console Error
                         (logPrefix +:+ "Error inlining JavaScript file " +:+ src
                          +:+ ": " +:+ e)]) = 0).
  { intros e. now rewrite substitutions_app, SL. }
  destruct b.
  - destruct (readFileSync fs p) as [c0|e]; [|eexists; split; [reflexivity|apply Hfail]].
    destruct (transformContent opts c0 src) as [c1|e];
      [|eexists; split; [reflexivity|apply Hfail]].
    pose proof (quiet_minifyContent host opts terserModule src c1) as QM.
    destruct (minifyContent host opts terserModule src c1) as [trM c].
    cbn [fst snd] in *. apply quiet_spec in QM as [SM _].
    eexists. split; [reflexivity|].
    now rewrite !substitutions_app, SL, SM.
  - eexists. split; [now destruct st|].
    pose proof (quiet_notFoundWarnings host opts distDir htmlFile src) as QN.
    apply quiet_spec in QN as [SN _]. now rewrite substitutions_app, SL, SN.
Qed.

End Fates.

Section Runs.

Variable host : Host.
Variable opts : options.
Variable fs : gmap string node.
Variable terserModule : option terser.
Variables distDir htmlFile : string.

Let pat : list RegExp.piece := scriptTagPattern opts.
Let f : string -> string -> fate :=
  fateOf host opts fs terserModule distDir htmlFile.

Hypothesis HnonEmpty : nonEmpty pat = true.

(** The loop from inside text without matches, with the tags of [rest]
    ahead: every tag is met in turn and treated according to its fate. *)
Lemma scan_parts rest :
  forall u w b i fuel,
    Forall (sound pat f) rest -> spaced f rest ->
    tagless pat w -> String.length u <= i ->
    (rest = [] \/ i <= String.length (u +:+ w)) ->
    (forall p, In p rest -> f (tagText p) (tagSource p) <> Kept ->
               absent (tagText p) (u +:+ w)) ->
    exists tr,
      scan host opts (S (length rest) + fuel) fs terserModule distDir htmlFile
        (FileState ((u +:+ w) +:+ body rest) b i)
      = Some (tr,
              Normal (FileState ((u +:+ w) +:+ settled f rest)
                        (b || (0 <? inlinedCount f rest)) 0))
      /\ substitutions tr = inlinedCount f rest.
Proof.
  induction rest as [|p rest IH]; intros u w b i fuel Hs Hsp Hw Hu Hi Habs.
  - exists []. split; [|reflexivity].
    cbn [length body settled inlinedCount Nat.add]. rewrite append_nil_r.
    rewrite (scan_done host opts fuel fs terserModule distDir htmlFile
               (FileState (u +:+ w) b i) 0)
      by (now apply exec_tagless_end).
    cbn [htmlContent modified]. now rewrite orb_false_r.
  - destruct Hi as [Hi|Hi]; [discriminate Hi|].
    inversion Hs as [|? ? Hp Hrest]; subst.
    destruct Hp as (Ht & Hin & Hb & Hf).
    cbn [spaced] in Hsp. destruct Hsp as [Hlen Hsp].
    cbn [length body settled inlinedCount Nat.add].
    set (t := tagText p) in *. set (src := tagSource p) in *.
    rewrite (scan_match host opts (S (length rest + fuel)) fs terserModule distDir
               htmlFile (FileState ((u +:+ w) +:+ t +:+ behind p +:+ body rest) b i)
               (RegExp.Found (String.length (u +:+ w)) t (Some src))
               (String.length (u +:+ w) + String.length t))
      by (now apply exec_whole).
    cbn [htmlContent modified].
    destruct (step_fate host opts fs terserModule distDir htmlFile
                (FileState ((u +:+ w) +:+ t +:+ behind p +:+ body rest) b
                   (String.length (u +:+ w) + String.length t))
                (String.length (u +:+ w)) t src) as (tr1 & -> & S1).
    fold f in S1 |- *.
    assert (Hother : forall q, In q rest -> f (tagText q) (tagSource q) <> Kept ->
              absent (tagText q) (u +:+ w) /\ absent (tagText q) (behind p)
              /\ wholeTag pat (tagText q) (tagSource q)).
    { intros q Hq Hfq. rewrite List.Forall_forall in Hrest.
      destruct (Hrest q Hq) as (Htq & _).
      split; [apply Habs; [now right|exact Hfq]|].
      split; [now apply (tagless_absent pat _ (tagSource q))|exact Htq]. }
    destruct (f t src) as [|js] eqn:Ef.
    + destruct (IH ((u +:+ w) +:+ t) (behind p) b
                  (String.length (u +:+ w) + String.length t) fuel)
        as (tr2 & E2 & S2); auto.
      * rewrite length_append. lia.
      * right. rewrite !length_append. lia.
      * intros q Hq Hfq. destruct (Hother q Hq Hfq) as (A1 & A2 & Htq).
        rewrite append_assoc. apply absent_app; [exact A1|].
        apply absent_app; [|exact A2].
        apply (absent_tag pat _ (tagSource q) _ src); auto.
        intros Eq. apply Hfq. fold t in Eq.
        assert (Es : tagSource q = src).
        { pose proof (Htq "") as M1. pose proof (Ht "") as M2.
          rewrite Eq, M2 in M1. now injection M1 as <-. }
        now rewrite Eq, Es.
      * cbn [Nat.add] in E2. rewrite !append_assoc in E2. rewrite !append_assoc.
        rewrite E2. exists (tr1 ++ tr2). split; [reflexivity|].
        rewrite substitutions_app, S1, S2. reflexivity.
    + destruct Hf as [Hd Hjs].
      assert (Hidx : JsString.indexOf
                       ((u +:+ w) +:+ t +:+ behind p +:+ body rest) t
                     = Some (String.length (u +:+ w))).
      { apply indexOf_absent. apply Habs; [now left|].
        fold t src. rewrite Ef. discriminate. }
      cbn [htmlContent lastIndex].
      rewrite (replace_found _ _ _ _ Hidx (includes_inlineScriptTag js Hd)).
      rewrite take_append, <- drop_drop, !drop_append.
      destruct (IH (u +:+ w) (inlineScriptTag js +:+ behind p) true
                  (String.length (u +:+ w) + String.length t) fuel)
        as (tr2 & E2 & S2); auto.
      * now apply tagless_app.
      * lia.
      * destruct rest as [|q rest']; [now left|right].
        rewrite !length_append in *. lia.
      * intros q Hq Hfq. destruct (Hother q Hq Hfq) as (A1 & A2 & Htq).
        apply absent_app; [exact A1|].
        apply absent_app; [|exact A2].
        now apply (tagless_absent pat _ (tagSource q)).
      * cbn [Nat.add] in E2. rewrite !append_assoc in E2. rewrite !append_assoc. rewrite E2.
        exists (tr1 ++ tr2). split; [now rewrite orb_true_r|].
        rewrite substitutions_app, S1, S2. reflexivity.
Qed.

End Runs.

(** ** The same file system with the page rewritten *)

Section PageRewritten.

Variable host : Host.
Variable opts : options.
Variable fs : gmap string node.
Variables htmlFile c d : string.

Hypothesis Hpage : fs !! htmlFile = Some (File c).





End PageRewritten.

Section SecondRun.

Variable host : Host.
Variable opts : options.
Variables fs fs1 : gmap string node.
Variable terserModule : option terser.
Variables distDir htmlFile : string.

Let pat : list RegExp.piece := scriptTagPattern opts.
Let f : string -> string -> fate :=
  fateOf host opts fs terserModule distDir htmlFile.

Hypothesis HnonEmpty : nonEmpty pat = true.


End SecondRun.

(** ** One file *)

Section OneFile.

Variable host : Host.
Variable opts : options.




End OneFile.

(** ** Tags and text of the default pattern *)

Lemma wholeTag_scriptTag q pre src attrs :
  RegExp.oneOf quotes q = true ->
  src <> "" ->
  every (RegExp.noneOf quotes) src = true ->
  every (RegExp.noneOf ">") src = true ->
  every (RegExp.noneOf ">") pre = true ->
  every (RegExp.noneOf ">") attrs = true ->
  JsString.includes (src +:+ String q attrs) "src=" = false ->
  wholeTag defaultScriptTagPattern (scriptTag q pre src attrs) src.
Proof. intros Hq Hne H1 H2 H3 H4 H5 x. now apply scriptTag_matches. Qed.

Lemma tagless_noTagStart w :
  noTagStart w = true -> tagless defaultScriptTagPattern w.
Proof. intros H. now apply tagFree_tagless, tagFree_noTagStart. Qed.

Lemma tagless_inline jsContent :
  JsString.includes jsContent "<" = false ->
  tagless defaultScriptTagPattern (inlineScriptTag jsContent).
Proof.
  intros H. apply tagFree_tagless. unfold inlineScriptTag.
  rewrite <- append_assoc.
  apply tagFree_app; [apply tagFree_opening|].
  apply tagFree_app; [now apply tagFree_plain|].
  now apply tagFree_noTagStart.
Qed.

(** ** Substitutions and the write *)

Section Rewritten.

Variable host : Host.
Variable opts : options.
Variable fs : gmap string node.
Variable terserModule : option terser.
Variables distDir htmlFile : string.


End Rewritten.




(** ** Two identical tags with text around them *)

Lemma tagless_drop ps k w : tagless ps w -> tagless ps (JsString.drop k w).
Proof.
  intros Hw j x Hj. rewrite length_drop in Hj.
  rewrite <- drop_append_le by lia. rewrite drop_drop. apply Hw. lia.
Qed.

Section Apart.

Variable host : Host.
Variable opts : options.
Variable fs : gmap string node.
Variable terserModule : option terser.
Variables distDir htmlFile : string.
Variables t src js before between after : string.

Let pat : list RegExp.piece := scriptTagPattern opts.
Let f : string -> string -> fate :=
  fateOf host opts fs terserModule distDir htmlFile.
Let inlined : string := inlineScriptTag js.

Hypothesis HnonEmpty : nonEmpty pat = true.
Hypothesis Htag : wholeTag pat t src.
Hypothesis Hinner : tagless pat (JsString.drop 1 t).
Hypothesis Hbefore : tagless pat before.
Hypothesis Hbetween : tagless pat between.
Hypothesis Hafter : tagless pat after.
Hypothesis Hfate : f t src = Inlined js.
Hypothesis Hdollar : JsString.includes js "$" = false.
Hypothesis Hinlined : tagless pat inlined.

(** The inline element and the text between the tags reach the second
    tag: the loop meets it. *)
Lemma scan_apart_both fuel :
  String.length t <= String.length inlined + String.length between ->
  exists tr,
    scan host opts (3 + fuel) fs terserModule distDir htmlFile
      (FileState (before +:+ t +:+ between +:+ t +:+ after) false 0)
    = Some (tr,
            Normal (FileState
                      (before +:+ inlined +:+ between +:+ inlined +:+ after)
                      true 0))
    /\ substitutions tr = 2.
Proof.
  intros Hlen.
  assert (Hsound : Forall (sound pat f) [Part t src between; Part t src after]).
  { repeat constructor; cbn [tagText tagSource behind]; auto;
      rewrite Hfate; auto. }
  assert (Hspaced : spaced f [Part t src between; Part t src after]).
  { cbn [spaced tagText tagSource behind]. rewrite Hfate. auto. }
  destruct (scan_parts host opts fs terserModule distDir htmlFile HnonEmpty
              [Part t src between; Part t src after] "" before false 0 fuel
              Hsound Hspaced Hbefore (Nat.le_0_l _) (or_intror (Nat.le_0_l _)))
    as (tr & E & S).
  { intros p Hp _. rewrite List.Forall_forall in Hsound.
    destruct (Hsound p Hp) as (Hw & _).
    now apply (tagless_absent pat _ (tagSource p)). }
  cbn [length body settled inlinedCount tagText tagSource behind
         String.append orb Nat.add] in E, S.
  unfold f in *. rewrite Hfate in E, S. rewrite !append_nil_r in E.
  exists tr. split; [exact E|exact S].
Qed.

(** They do not: the loop resumes behind the start of the second tag and
    finds nothing more. *)
Lemma scan_apart_one fuel :
  String.length inlined + String.length between < String.length t ->
  exists tr,
    scan host opts (3 + fuel) fs terserModule distDir htmlFile
      (FileState (before +:+ t +:+ between +:+ t +:+ after) false 0)
    = Some (tr,
            Normal (FileState (before +:+ inlined +:+ between +:+ t +:+ after)
                      true 0))
    /\ substitutions tr = 1.
Proof.
  intros Hlen.
  set (text := before +:+ t +:+ between +:+ t +:+ after).
  cbn [Nat.add].
  rewrite (scan_match host opts (S (S fuel)) fs terserModule distDir htmlFile
             (FileState text false 0)
             (RegExp.Found (String.length before) t (Some src))
             (String.length before + String.length t))
    by (exact (exec_whole pat "" before t src _ 0 Hbefore Htag
                 (Nat.le_0_l _) (Nat.le_0_l _))).
  cbn [htmlContent modified].
  destruct (step_fate host opts fs terserModule distDir htmlFile
              (FileState text false (String.length before + String.length t))
              (String.length before) t src) as (tr1 & -> & S1).
  fold f in S1 |- *. rewrite Hfate in S1 |- *. cbn [htmlContent lastIndex].
  assert (Hidx : JsString.indexOf text t = Some (String.length before)).
  { apply indexOf_absent. now apply (tagless_absent pat _ src). }
  rewrite (replace_found _ _ _ _ Hidx (includes_inlineScriptTag js Hdollar)).
  unfold text at 1 2. rewrite take_append, <- drop_drop, !drop_append.
  fold inlined.
  set (d := String.length t - String.length inlined - String.length between).
  assert (Esplit : before +:+ inlined +:+ between +:+ t +:+ after
                   = (before +:+ inlined +:+ between +:+ JsString.take d t)
                     +:+ JsString.drop d t +:+ after).
  { rewrite !append_assoc. now rewrite <- (append_assoc (JsString.take d t)), take_drop. }
  rewrite (scan_done host opts (S fuel) fs terserModule distDir htmlFile
             (FileState (before +:+ inlined +:+ between +:+ t +:+ after) true
                (String.length before + String.length t)) 0).
  - exists (tr1 ++ []). split; [reflexivity|].
    now rewrite substitutions_app, S1.
  - cbn [htmlContent lastIndex]. rewrite Esplit.
    apply exec_tagless_end; [exact HnonEmpty| |].
    + apply tagless_app; [|exact Hafter].
      replace (JsString.drop d t) with (JsString.drop (d - 1) (JsString.drop 1 t))
        by (rewrite drop_drop; f_equal; unfold d; lia).
      now apply tagless_drop.
    + rewrite !length_append, length_take by (unfold d; lia). unfold d. lia.
Qed.

End Apart.

(** C7. For a page made of the same eligible tag twice, with text before,
    between and behind the two copies in which no match begins, whose
    script resolves to a content without dollar sign that gives an inline
    element in which no match begins, one pass of the loop always
    substitutes the first copy. The scan then goes on, in the rewritten
    text, from the end offset of the first match: when the inline element
    and the text between the copies are together shorter than the tag,
    the second copy starts before that offset and is left as it is;
    otherwise the second copy is met and substituted in the same pass. *)
Theorem identical_tags_one_pass (host : Host) (opts : options)
    (fs : gmap string node) (terserModule : option terser)
    (distDir htmlFile t srcPath jsContent before between after : string)
    (fuel : nat) :
  let pat := scriptTagPattern opts in
  let inlined := inlineScriptTag jsContent in
  let passed :=
    String.length inlined + String.length between <? String.length t in
  nonEmpty pat = true ->
  wholeTag pat t srcPath ->
  tagless pat (JsString.drop 1 t) ->
  tagless pat before -> tagless pat between -> tagless pat after ->
  fateOf host opts fs terserModule distDir htmlFile t srcPath = Inlined jsContent ->
  JsString.includes jsContent "$" = false ->
  tagless pat inlined ->
  exists tr,
    scan host opts (3 + fuel) fs terserModule distDir htmlFile
      (FileState (before +:+ t +:+ between +:+ t +:+ after) false 0)
    = Some (tr,
            Normal (FileState
                      (before +:+ inlined +:+ between
                       +:+ (if passed then t else inlined) +:+ after)
                      true 0))
    /\ substitutions tr = if passed then 1 else 2.
Proof.
  intros pat inlined passed HN Ht Hin HA HB HC Hf Hd HI. unfold passed.
  destruct (Nat.ltb_spec (String.length inlined + String.length between)
              (String.length t)) as [Hlt|Hge].
  - eapply scan_apart_one; eassumption.
  - eapply scan_apart_both; eassumption.
Qed.

Lemma identical_tags_one_pass_witness :
  let t := "<script src='a.js' inline></script>" in
  let page := "<h1>" +:+ t +:+ "<p>hi</p>" +:+ t +:+ "</h1>" in
  let fs := Example.disk page [("/proj/dist/a.js", "a();")] in
  exists tr,
    scan Example.host defaultOptions 3 fs None "/proj/dist" Example.page
      (FileState page false 0)
    = Some (tr,
            Normal (FileState
                      ("<h1>" +:+ inlineScriptTag "a();" +:+ "<p>hi</p>" +:+ t
                       +:+ "</h1>")
                      true 0))
    /\ substitutions tr = 1.
Proof.
  intros t page fs.
  refine (identical_tags_one_pass Example.host defaultOptions fs None "/proj/dist"
            Example.page (scriptTag "'" "" "a.js" " inline") "a.js" "a();"
            "<h1>" "<p>hi</p>" "</h1>" 0
            eq_refl _
            (tagless_noTagStart
               (JsString.drop 1 (scriptTag "'" "" "a.js" " inline")) eq_refl)
            (tagless_noTagStart "<h1>" eq_refl)
            (tagless_noTagStart "<p>hi</p>" eq_refl)
            (tagless_noTagStart "</h1>" eq_refl)
            eq_refl eq_refl (tagless_inline "a();" eq_refl)).
  apply wholeTag_scriptTag; (reflexivity || discriminate).
Defined.

(** ** The second run on such a page *)



(** A tag the scan of the first run passed over is substituted by the
    second: of two copies of a tag whose inline element is shorter than
    the tag, the first run leaves the second copy, and the second run
    inlines it. *)
Lemma second_run_inlines_passed_tag :
  let t := "<script src='a.js' inline></script>" in
  let fs := Example.disk (t +:+ t) [("/proj/dist/a.js", "a();")] in
  let once := inlineScriptTag "a();" +:+ t in
  let twice := inlineScriptTag "a();" +:+ inlineScriptTag "a();" in
  exists tr1 tr2,
    processFile Example.host defaultOptions 4 fs None "/proj/dist" Example.page
    = Some (tr1, <[Example.page := File once]> fs)
    /\ substitutions tr1 = 1
    /\ processFile Example.host defaultOptions 4 (<[Example.page := File once]> fs)
         None "/proj/dist" Example.page
       = Some (tr2, <[Example.page := File twice]> fs)
    /\ substitutions tr2 = 1.
Proof.
  cbv zeta. eexists _, _.
  split; [vm_compute; reflexivity|].
  split; [vm_compute; reflexivity|].
  split; vm_compute; reflexivity.
Qed.
